(** * The control-plane core of horizon (package [control])

    A shallow embedding of the RPC handlers of the control server: the
    authentication helpers, the registry-store mutations they drive, the
    broadcast fan-out and the streaming session handler.  Handlers are
    functions in a state-and-error monad over an explicit [World]: the
    relational store, the session registry, the clock, the store's fault
    script and the log of materialisations pushed to the object store. *)

From Stdlib Require Import Ascii.
From stdpp Require Import gmap strings list sorting.

Set Warnings "-register-all".

(** Go's [[]byte]: a sequence of 8-bit characters. *)
Abbreviation ByteSlice := string.

(** ** Errors *)

(** The error values the handlers build or compare against.  [StoreFailure]
    stands for any error the relational store reports (connection loss,
    constraint violation, ...), [Upstream] for the secret manager and the
    codecs, [Canceled] for [ctx.Err()]. *)
Inductive error : Type :=
| ErrBadAuthentication
| ErrInvalidRequest
| ErrRecordNotFound
| ErrNoRows
| Errorf (msg : string)
| Wrapf (cause : error) (msg : string)
| MultiError (errs : list error)
| StoreFailure (code : string)
| Upstream (what : string)
| Canceled.

(** [errors.Cause]: strip the [Wrapf] layers. *)
Fixpoint Cause (e : error) : error :=
  match e with
  | Wrapf c _ => Cause c
  | _ => e
  end.

(** The errors [multierror.Append] adds for one argument: a nil error adds
    nothing, a composite is flattened. *)
Definition multierror_parts (e : option error) : list error :=
  match e with
  | None => []
  | Some (MultiError es) => es
  | Some e' => [e']
  end.

(** [multierror.Append(err, serr)]. *)
Definition multierror_Append (err serr : option error) : error :=
  MultiError (multierror_parts err ++ multierror_parts serr).

(** ** Protocol messages (package [pb]) *)

Module pb.

(** Modelled from the spec: [pb.ULID] is declared outside these sources; it
    is a 16-byte opaque identifier read through [Bytes] and rebuilt with
    [ULIDFromBytes]. *)
Record ULID : Type := { Bytes : ByteSlice }.

Definition ULIDFromBytes (b : ByteSlice) : ULID := {| Bytes := b |}.

Definition Equal (a b : ULID) : bool := bool_decide (Bytes a = Bytes b).

(** Modelled from the spec: [pb.TokenRole] is declared outside these
    sources.  The roles are HUB, MANAGE and internal-service; the handlers
    name [pb.HUB] and [pb.MANAGE]. *)
Inductive TokenRole : Type := INTERNAL_SERVICE | HUB | MANAGE.

(** Modelled from the spec: the zero value of [pb.TokenRole], the role of
    a token creator whose [Role] is never assigned.  The order of the
    enumeration is declared outside these sources; the spec has the token
    of [CreateToken], which assigns no role, decode as [role=MANAGE]. *)
Definition TokenRole_zero : TokenRole := MANAGE.

Inductive Capability : Type := CONNECT | ACCESS.

Record TokenCapability : Type :=
  { Capability_ : Capability; Value : string }.

Record Account : Type := { AccountId : ULID; Namespace : string }.

Record Label : Type := { Name : string; LabelValue : string }.

Definition LabelSet : Type := list Label.

Record NetworkLocation : Type :=
  { Addresses : list string; LocLabels : LabelSet }.

Record ServiceRoute : Type :=
  { RouteHub : ULID; RouteId : ULID; RouteType : string;
    RouteLabels : LabelSet }.

Record AccountServices : Type :=
  { ASAccount : Account; Services : list ServiceRoute }.

Record LabelLink : Type :=
  { LLAccount : Account; LLLabels : LabelSet; LLTarget : LabelSet }.

Record CentralActivity : Type :=
  { AccountServices_ : list AccountServices;
    NewLabelLinks : option (list LabelLink) }.

Record ServiceRequest : Type :=
  { SRAccount : Account; SRHub : ULID; SRId : ULID; SRType : string;
    SRLabels : LabelSet }.

Record ConfigRequest : Type :=
  { StableId : ULID; InstanceId : ULID; Locations : list NetworkLocation }.

Record ConfigResponse : Type :=
  { TlsKey : ByteSlice; TlsCert : ByteSlice; TokenPub : ByteSlice;
    S3AccessKey : string; S3SecretKey : string; S3Bucket : string }.

Record HubDisconnectRequest : Type :=
  { HDStableId : ULID; HDInstanceId : ULID }.

Record HubInfo : Type := { HubInfoId : ULID; HubLocations : list NetworkLocation }.

Record ControlRegister : Type := { RegNamespace : string }.

Record AddLabelLinkRequest : Type :=
  { ALAccount : Account; ALLabels : LabelSet; ALTarget : LabelSet }.

Record RemoveLabelLinkRequest : Type :=
  { RLAccount : Account; RLLabels : LabelSet }.

Record CreateTokenRequest : Type :=
  { CTAccount : Account; CTCapabilities : list TokenCapability;
    CTValidDuration : option Z }.

Record ServiceTokenRequest : Type := { STNamespace : string }.

Record HubRegistration : Type := { RegHub : ULID }.

Record HubActivity : Type :=
  { HubReg : option HubRegistration; Flow : list (Z * Z) }.

Inductive Noop : Type := MkNoop.

(** Modelled from the spec: [pb.InternalAccount], the account of the
    internal services, is declared outside these sources. *)
Definition InternalAccount : ULID := {| Bytes := "internal" |}.

End pb.

(** ** Tokens (package [token]) *)

Module token.

Record TokenBody : Type :=
  { Role : pb.TokenRole;
    BodyAccount : pb.Account;
    BodyCapabilities : list pb.TokenCapability }.

Record ValidToken : Type := { Body : TokenBody }.

(** Modelled from the spec: [ValidToken.Account] is defined outside these
    sources; it is the account (id and namespace) the body carries. *)
Definition Account (t : ValidToken) : pb.Account := BodyAccount (Body t).

(** The value of the first ACCESS capability of a capability list. *)
Fixpoint access (caps : list pb.TokenCapability) : option string :=
  match caps with
  | [] => None
  | cb :: rest =>
      match pb.Capability_ cb with
      | pb.ACCESS => Some (pb.Value cb)
      | _ => access rest
      end
  end.

(** Modelled from the spec: [ValidToken.AllowAccount] is defined outside
    these sources; [allow_account(ns)] is true iff the token's namespace is
    a prefix of [ns] (or equal).  The namespace a token is issued for is
    the value of its ACCESS capability: [Register] stores the namespace
    there and nowhere else, and the spec has the token [Register] issues
    for [org/team] allow [org/team/sub] and refuse [other/team].  A token
    without ACCESS capability allows no namespace. *)
Definition AllowAccount (t : ValidToken) (ns : string) : bool :=
  match access (BodyCapabilities (Body t)) with
  | Some allowed => String.prefix allowed ns
  | None => false
  end.

(** The fields of [token.TokenCreator] the handlers assign.  A field that is
    not assigned keeps Go's zero value, see [TokenCreator_zero]. *)
Record TokenCreator : Type :=
  { TCRole : pb.TokenRole;
    TCAccountId : option pb.ULID;
    AccuntNamespace : string;
    Capabilities : list (pb.Capability * string);
    RawCapabilities : list pb.TokenCapability;
    ValidDuration : Z }.

Definition TokenCreator_zero : TokenCreator :=
  {| TCRole := pb.TokenRole_zero; TCAccountId := None; AccuntNamespace := "";
     Capabilities := []; RawCapabilities := []; ValidDuration := 0 |}.

End token.

(** ** Rows of the relational store *)

Module Account.
Record t : Type :=
  { ID : ByteSlice; Namespace : string; CreatedAt : Z; UpdatedAt : Z }.
End Account.

Module Service.
Record t : Type :=
  { ID : Z; ServiceId : ByteSlice; HubId : ByteSlice; AccountId : ByteSlice;
    Type_ : string; Description : string; Labels : list string;
    CreatedAt : Z; UpdatedAt : Z }.
End Service.

Module Hub.
Record t : Type :=
  { StableID : ByteSlice; InstanceID : ByteSlice; ConnectionInfo : ByteSlice;
    LastCheckin : Z; CreatedAt : Z }.

(** The zero value a failed lookup leaves in [var hr Hub]. *)
Definition zero : t :=
  {| StableID := ""; InstanceID := ""; ConnectionInfo := "";
     LastCheckin := 0; CreatedAt := 0 |}.
End Hub.

Module LabelLink.
Record t : Type :=
  { ID : Z; AccountID : ByteSlice; Labels : string; Target : string;
    CreatedAt : Z; UpdatedAt : Z }.
End LabelLink.

Module ManagementClient.
Record t : Type := { ID : ByteSlice; Namespace : string }.
End ManagementClient.

(** The five tables and the serial counter behind the integer keys. *)
Record DB : Type :=
  { accounts : list Account.t;
    hubs : list Hub.t;
    services : list Service.t;
    label_links : list LabelLink.t;
    management_clients : list ManagementClient.t;
    serial : Z }.

(** ** The environment of the server *)

(** The functions of this repository and of its libraries that the handlers
    call and whose code lies outside these sources: the token codec (with the
    vault client, path and key id folded in), the account keys, the string
    forms of identifiers and label sets, the JSON codec of the network
    locations and the generator of fresh identifiers. *)
Record Env : Type :=
  { CheckTokenED25519 : string -> ByteSlice -> error + token.ValidToken;
    EncodeED25519WithVault : token.TokenCreator -> error + string;
    Key : pb.Account -> ByteSlice;
    AccountFromKey : ByteSlice -> error + pb.Account;
    SpecString : pb.ULID -> string;
    AsStringArray : pb.LabelSet -> list string;
    FlattenLabels : pb.LabelSet -> string;
    json_Marshal : list pb.NetworkLocation -> error + ByteSlice;
    json_Unmarshal : ByteSlice -> error + list pb.NetworkLocation;
    NewULID : nat -> pb.ULID }.

(** The fields of [Server] the handlers read and never write. *)
Record Server : Type :=
  { pubKey : ByteSlice;
    registerToken : string;
    hubCert : ByteSlice;
    hubKey : ByteSlice;
    HubAccessKey : string;
    HubSecretKey : string;
    Bucket : string }.

(** A session of [connectedHubs]; [xmit] lists the deltas handed to the
    session's channel, oldest first. *)
Record connectedHub : Type :=
  { xmit : list pb.CentralActivity; messages : Z; bytes : Z }.

(** Modelled from the spec: [updateAccountRouting] and [updateLabelLinks]
    are defined outside these sources; they re-materialise the routing of
    one account, and the label links, in the object store.  The world keeps
    the log of these materialisations. *)
Inductive materialization : Type :=
| RoutingOf (account : pb.Account)
| AllLabelLinks.

(** The mutable state: the committed tables [db], the tables of the open
    transaction [tx], the session registry, the faults the store will report
    on the coming statements ([None]: the statement goes through; an
    exhausted script reports no fault), the clock, the count of identifiers
    drawn so far and the materialisation log. *)
Record World : Type :=
  { db : DB;
    tx : option DB;
    connectedHubs : gmap string connectedHub;
    faults : list (option string);
    now : Z;
    drawn : nat;
    materialized : list materialization }.

Definition with_db (d : DB) (w : World) : World :=
  {| db := d; tx := tx w; connectedHubs := connectedHubs w;
     faults := faults w; now := now w; drawn := drawn w;
     materialized := materialized w |}.

Definition with_tx (t : option DB) (w : World) : World :=
  {| db := db w; tx := t; connectedHubs := connectedHubs w;
     faults := faults w; now := now w; drawn := drawn w;
     materialized := materialized w |}.

Definition with_connectedHubs (m : gmap string connectedHub) (w : World)
  : World :=
  {| db := db w; tx := tx w; connectedHubs := m;
     faults := faults w; now := now w; drawn := drawn w;
     materialized := materialized w |}.

Definition with_faults (fs : list (option string)) (w : World) : World :=
  {| db := db w; tx := tx w; connectedHubs := connectedHubs w;
     faults := fs; now := now w; drawn := drawn w;
     materialized := materialized w |}.

Definition with_drawn (n : nat) (w : World) : World :=
  {| db := db w; tx := tx w; connectedHubs := connectedHubs w;
     faults := faults w; now := now w; drawn := n;
     materialized := materialized w |}.

Definition with_materialized (l : list materialization) (w : World) : World :=
  {| db := db w; tx := tx w; connectedHubs := connectedHubs w;
     faults := faults w; now := now w; drawn := drawn w;
     materialized := l |}.

(** ** The handler monad: state and errors *)

Definition M (A : Type) : Type := World -> (error + A) * World.

#[export] Instance M_ret : MRet M := fun A (a : A) (w : World) => (inr a, w).

#[export] Instance M_bind : MBind M :=
  fun A B (f : A -> M B) (c : M A) (w : World) =>
    match c w with
    | (inl e, w') => (inl e, w')
    | (inr a, w') => f a w'
    end.

Definition fail {A : Type} (e : error) : M A := fun w => (inl e, w).

(** Go's [err = f()] where the handler goes on after a failure: the outcome
    of [c] as a value. *)
Definition try {A : Type} (c : M A) : M (error + A) :=
  fun w => let (r, w') := c w in (inr r, w').

Definition gets {A : Type} (f : World -> A) : M A := fun w => (inr (f w), w).

Definition modify (f : World -> World) : M unit := fun w => (inr tt, f w).

(** Lift a pure result of the environment. *)
Definition lift {A : Type} (r : error + A) : M A := fun w => (r, w).

(** The error of an outcome, as Go's [err]: [None] is [nil]. *)
Definition err_of {A : Type} (r : error + A) : option error :=
  match r with inl e => Some e | inr _ => None end.

(** ** The relational store *)

Definition with_accounts (l : list Account.t) (d : DB) : DB :=
  {| accounts := l; hubs := hubs d; services := services d;
     label_links := label_links d;
     management_clients := management_clients d; serial := serial d |}.

Definition with_hubs (l : list Hub.t) (d : DB) : DB :=
  {| accounts := accounts d; hubs := l; services := services d;
     label_links := label_links d;
     management_clients := management_clients d; serial := serial d |}.

Definition with_services (l : list Service.t) (n : Z) (d : DB) : DB :=
  {| accounts := accounts d; hubs := hubs d; services := l;
     label_links := label_links d;
     management_clients := management_clients d; serial := n |}.

Definition with_label_links (l : list LabelLink.t) (n : Z) (d : DB) : DB :=
  {| accounts := accounts d; hubs := hubs d; services := services d;
     label_links := l;
     management_clients := management_clients d; serial := n |}.

Definition with_management_clients (l : list ManagementClient.t) (d : DB)
  : DB :=
  {| accounts := accounts d; hubs := hubs d; services := services d;
     label_links := label_links d;
     management_clients := l; serial := serial d |}.

(** A statement reads the tables and yields a result and the new tables, or
    an error and no change. *)
Definition statement (A : Type) : Type := DB -> error + (A * DB).

(** SQL's [LIKE] as PostgreSQL reads a pattern: [%] matches any run of
    characters, [_] any one character, and a backslash takes the next
    character literally. *)
Fixpoint like (p s : string) {struct p} : bool :=
  match p with
  | EmptyString => match s with EmptyString => true | String _ _ => false end
  | String c p' =>
      if Ascii.eqb c "%"%char then
        (fix any (s0 : string) : bool :=
           like p' s0
           || match s0 with
              | EmptyString => false
              | String _ s1 => any s1
              end) s
      else if Ascii.eqb c "_"%char then
        match s with
        | EmptyString => false
        | String _ s1 => like p' s1
        end
      else if Ascii.eqb c "\"%char then
        match p' with
        | EmptyString => false
        | String c' p'' =>
            match s with
            | EmptyString => false
            | String a s1 => Ascii.eqb c' a && like p'' s1
            end
        end
      else
        match s with
        | EmptyString => false
        | String a s1 => Ascii.eqb c a && like p' s1
        end
  end.

(** [Where("stable_id = ?", sid).First(&hr)] *)
Definition hub_First (sid : ByteSlice) : statement Hub.t := fun d =>
  match filter (fun h => Hub.StableID h = sid) (hubs d) with
  | [] => inl ErrRecordNotFound
  | h :: _ => inr (h, d)
  end.

(** [Create(&hr)]: [stable_id] is the primary key; gorm stamps
    [CreatedAt]. *)
Definition hub_Create (t : Z) (hr : Hub.t) : statement unit := fun d =>
  if decide (Hub.StableID hr ∈ Hub.StableID <$> hubs d)
  then inl (StoreFailure "unique_violation")
  else
    let row :=
      {| Hub.StableID := Hub.StableID hr; Hub.InstanceID := Hub.InstanceID hr;
         Hub.ConnectionInfo := Hub.ConnectionInfo hr;
         Hub.LastCheckin := Hub.LastCheckin hr; Hub.CreatedAt := t |} in
    inr (tt, with_hubs (hubs d ++ [row]) d).

(** The columns [Model(&hr).Updates(...)] sets. *)
Definition hub_set (data inst : ByteSlice) (t : Z) (h : Hub.t) : Hub.t :=
  {| Hub.StableID := Hub.StableID h; Hub.InstanceID := inst;
     Hub.ConnectionInfo := data; Hub.LastCheckin := t;
     Hub.CreatedAt := Hub.CreatedAt h |}.

(** [Model(&hr).Updates(...)]: the rows whose key is the one of [hr]; gorm
    adds this condition only when the key of [hr] is not blank. *)
Definition hub_Updates (hr : Hub.t) (data inst : ByteSlice) (t : Z)
  : statement unit := fun d =>
  let upd (h : Hub.t) :=
    if decide (Hub.StableID hr = "" ∨ Hub.StableID h = Hub.StableID hr)
    then hub_set data inst t h else h in
  inr (tt, with_hubs (upd <$> hubs d) d).

(** [Where("stable_id = ?", sid).Delete(&Hub{})] *)
Definition hub_Delete (sid : ByteSlice) : statement unit := fun d =>
  inr (tt, with_hubs (filter (fun h => Hub.StableID h ≠ sid) (hubs d)) d).

(** [Find(&hubs)] *)
Definition hub_Find : statement (list Hub.t) := fun d => inr (hubs d, d).

(** [Create(&so)]: the key is drawn from the serial counter; gorm stamps the
    two timestamps. *)
Definition service_Create (t : Z) (so : Service.t) : statement unit := fun d =>
  let id := (serial d + 1)%Z in
  let row :=
    {| Service.ID := id; Service.ServiceId := Service.ServiceId so;
       Service.HubId := Service.HubId so;
       Service.AccountId := Service.AccountId so;
       Service.Type_ := Service.Type_ so;
       Service.Description := Service.Description so;
       Service.Labels := Service.Labels so;
       Service.CreatedAt := t; Service.UpdatedAt := t |} in
  inr (tt, with_services (services d ++ [row]) id d).

(** [Where("service_id = ?", id).Delete(Service{})] *)
Definition service_DeleteById (id : ByteSlice) : statement unit := fun d =>
  inr (tt, with_services
             (filter (fun so => Service.ServiceId so ≠ id) (services d))
             (serial d) d).

(** [Where("hub_id = ?", hub).Find(&sos)] *)
Definition service_FindByHub (hub : ByteSlice) : statement (list Service.t) :=
  fun d => inr (filter (fun so => Service.HubId so = hub) (services d), d).

(** [Where("hub_id = ?", hub).Delete(Service{})] *)
Definition service_DeleteByHub (hub : ByteSlice) : statement unit := fun d =>
  inr (tt, with_services
             (filter (fun so => Service.HubId so ≠ hub) (services d))
             (serial d) d).

(** [Create(&ao)] with [ON CONFLICT (id) DO UPDATE SET namespace =
    EXCLUDED.namespace]. *)
Definition account_Upsert (t : Z) (ao : Account.t) : statement unit := fun d =>
  if decide (Account.ID ao ∈ Account.ID <$> accounts d)
  then
    let upd (a : Account.t) :=
      if decide (Account.ID a = Account.ID ao)
      then {| Account.ID := Account.ID a;
              Account.Namespace := Account.Namespace ao;
              Account.CreatedAt := Account.CreatedAt a;
              Account.UpdatedAt := Account.UpdatedAt a |}
      else a in
    inr (tt, with_accounts (upd <$> accounts d) d)
  else
    let row :=
      {| Account.ID := Account.ID ao;
         Account.Namespace := Account.Namespace ao;
         Account.CreatedAt := t; Account.UpdatedAt := t |} in
    inr (tt, with_accounts (accounts d ++ [row]) d).

(** [Create(&llr)] *)
Definition label_link_Create (t : Z) (llr : LabelLink.t) : statement unit :=
  fun d =>
  let id := (serial d + 1)%Z in
  let row :=
    {| LabelLink.ID := id; LabelLink.AccountID := LabelLink.AccountID llr;
       LabelLink.Labels := LabelLink.Labels llr;
       LabelLink.Target := LabelLink.Target llr;
       LabelLink.CreatedAt := t; LabelLink.UpdatedAt := t |} in
  inr (tt, with_label_links (label_links d ++ [row]) id d).

(** [Where("account_id = ?", acc).Where("labels = ?", ls).Delete(&LabelLink{})] *)
Definition label_link_Delete (acc : ByteSlice) (ls : string) : statement unit :=
  fun d =>
  inr (tt, with_label_links
             (filter (fun l => ¬ (LabelLink.AccountID l = acc
                                  ∧ LabelLink.Labels l = ls))
                     (label_links d))
             (serial d) d).

(** [Where("namespace LIKE ?", pattern).First(&rec)] *)
Definition mgmt_FirstLike (pattern : string)
  : statement ManagementClient.t := fun d =>
  match filter (fun r => like pattern (ManagementClient.Namespace r) = true)
               (management_clients d) with
  | [] => inl ErrRecordNotFound
  | r :: _ => inr (r, d)
  end.

(** [Create(&rec)]: [id] is the primary key. *)
Definition mgmt_Create (rec : ManagementClient.t) : statement unit := fun d =>
  if decide (ManagementClient.ID rec
             ∈ ManagementClient.ID <$> management_clients d)
  then inl (StoreFailure "unique_violation")
  else inr (tt, with_management_clients (management_clients d ++ [rec]) d).

(** The handle a statement runs on: the server's [s.db] or the open
    transaction. *)
Inductive handle : Type := Main | Tx.

Definition tables (h : handle) (w : World) : DB :=
  match h with
  | Main => db w
  | Tx => default (db w) (tx w)
  end.

Definition set_tables (h : handle) (d : DB) (w : World) : World :=
  match h with
  | Main => with_db d w
  | Tx => with_tx (Some d) w
  end.

(** Run one statement ([dbx.Check] of a gorm call): the store reports the
    next fault of the script, or the statement takes effect. *)
Definition exec {A : Type} (h : handle) (stmt : statement A) : M A := fun w =>
  match faults w with
  | Some code :: fs => (inl (StoreFailure code), with_faults fs w)
  | _ =>
      let w1 := with_faults (tail (faults w)) w in
      match stmt (tables h w1) with
      | inl e => (inl e, w1)
      | inr (a, d) => (inr a, set_tables h d w1)
      end
  end.

(** [s.db.Begin()] *)
Definition Begin : M unit := modify (fun w => with_tx (Some (db w)) w).

(** [tx.Rollback()] *)
Definition Rollback : M unit := modify (with_tx None).

(** [dbx.Check(tx.Commit())]: the tables of the transaction become the
    committed ones, unless the store reports a fault. *)
Definition Commit : M unit := fun w =>
  match faults w with
  | Some code :: fs =>
      (inl (StoreFailure code), with_tx None (with_faults fs w))
  | _ =>
      (inr tt,
       with_tx None (with_db (tables Tx w)
                             (with_faults (tail (faults w)) w)))
  end.

(** [if err != nil { tx.Rollback(); return nil, err }] *)
Definition or_rollback {A : Type} (c : M A) : M A := fun w =>
  match c w with
  | (inl e, w') => (inl e, with_tx None w')
  | (inr a, w') => (inr a, w')
  end.

(** One materialisation in the object store; it can fail like a statement. *)
Definition materialize (m : materialization) : M unit := fun w =>
  match faults w with
  | Some code :: fs => (inl (Upstream code), with_faults fs w)
  | _ =>
      (inr tt,
       with_materialized (materialized w ++ [m])
                         (with_faults (tail (faults w)) w))
  end.

(** ** Request contexts *)

(** What a handler reads of its [context.Context]: the incoming metadata
    (absent when the call carries none) and, for the fan-out, the number of
    sends that complete before the cancellation of the context wins the
    [select] ([None]: the context is never cancelled). *)
Record Ctx : Type :=
  { incoming : option (gmap string (list string));
    cancel_after : option nat }.

#[export] Instance TokenRole_eq_dec : EqDecision pb.TokenRole.
Proof. solve_decision. Defined.

#[export] Instance Capability_eq_dec : EqDecision pb.Capability.
Proof. solve_decision. Defined.

(** The [%s] form of a role in the error of [checkFromHub]. *)
Definition TokenRole_String (r : pb.TokenRole) : string :=
  match r with
  | pb.INTERNAL_SERVICE => "INTERNAL_SERVICE"
  | pb.HUB => "HUB"
  | pb.MANAGE => "MANAGE"
  end.

(** [md["authorization"]] *)
Definition authorization (md : gmap string (list string)) : list string :=
  default [] (md !! "authorization").

(** The answer of [FetchConfig]: the TLS bundle, the public key of the
    tokens and the credentials of the object store. *)
Definition config_response (s : Server) : pb.ConfigResponse :=
  {| pb.TlsKey := hubKey s; pb.TlsCert := hubCert s;
     pb.TokenPub := pubKey s; pb.S3AccessKey := HubAccessKey s;
     pb.S3SecretKey := HubSecretKey s; pb.S3Bucket := Bucket s |}.

(** ** The handlers *)

Section Handlers.

Context (E : Env) (s : Server).

Definition checkFromHub (ctx : Ctx) : M token.ValidToken :=
  match incoming ctx with
  | None => fail ErrBadAuthentication
  | Some md =>
      match authorization md with
      | [] => fail ErrBadAuthentication
      | bearer :: _ =>
          match CheckTokenED25519 E bearer (pubKey s) with
          | inl err => fail err
          | inr tok =>
              if decide (token.Role (token.Body tok) ≠ pb.HUB)
              then fail (Wrapf ErrBadAuthentication
                           ("role was: "
                            +:+ TokenRole_String (token.Role (token.Body tok))))
              else mret tok
          end
      end
  end.

Definition checkMgmtAllowed (ctx : Ctx) : M token.ValidToken :=
  match incoming ctx with
  | None => fail ErrBadAuthentication
  | Some md =>
      match authorization md with
      | [] => fail ErrBadAuthentication
      | bearer :: _ =>
          match CheckTokenED25519 E bearer (pubKey s) with
          | inl err => fail err
          | inr tok =>
              if decide (token.Role (token.Body tok) ≠ pb.MANAGE)
              then fail ErrBadAuthentication
              else mret tok
          end
      end
  end.

(** [hub.xmit <- act] accepted by the session. *)
Definition deliver (act : pb.CentralActivity) (ch : connectedHub)
  : connectedHub :=
  {| xmit := xmit ch ++ [act]; messages := messages ch; bytes := bytes ch |}.

(** The fan-out over [connectedHubs]: every send races the cancellation of
    the caller's context.  The sessions are visited in the order of
    [map_to_list]; a context cancelled after [n] sends stops the loop at the
    next session with [ctx.Err()]. *)
Definition broadcastActivity (ctx : Ctx) (act : pb.CentralActivity)
  : M unit := fun w =>
  let hubs := connectedHubs w in
  match cancel_after ctx with
  | None => (inr tt, with_connectedHubs (deliver act <$> hubs) w)
  | Some n =>
      let served := take n (map_to_list hubs).*1 in
      let hubs' :=
        map_imap (fun k ch =>
                    Some (if decide (k ∈ served) then deliver act ch else ch))
                 hubs in
      (if decide (n < size hubs) then inl Canceled else inr tt,
       with_connectedHubs hubs' w)
  end.

Definition updateAccountRouting (h : handle) (account : pb.Account)
  : M unit := materialize (RoutingOf account).

Definition updateLabelLinks : M unit := materialize AllLabelLinks.

Definition SyncHub (ctx : Ctx) (sync : unit) : M (option unit) := mret None.

Definition AddService (ctx : Ctx) (service : pb.ServiceRequest) : M unit :=
  _ ← checkFromHub ctx;
  let so :=
    {| Service.ID := 0;
       Service.ServiceId := pb.Bytes (pb.SRId service);
       Service.HubId := pb.Bytes (pb.SRHub service);
       Service.AccountId := Key E (pb.SRAccount service);
       Service.Type_ := pb.SRType service;
       Service.Description := "";
       Service.Labels := AsStringArray E (pb.SRLabels service);
       Service.CreatedAt := 0; Service.UpdatedAt := 0 |} in
  t ← gets now;
  exec Main (service_Create t so);;
  _ ← try (broadcastActivity ctx
             {| pb.AccountServices_ :=
                  [ {| pb.ASAccount := pb.SRAccount service;
                       pb.Services :=
                         [ {| pb.RouteHub := pb.SRHub service;
                              pb.RouteId := pb.SRId service;
                              pb.RouteType := pb.SRType service;
                              pb.RouteLabels := pb.SRLabels service |} ] |} ];
                pb.NewLabelLinks := None |});
  updateAccountRouting Main (pb.SRAccount service);;
  mret tt.

Definition RemoveService (ctx : Ctx) (service : pb.ServiceRequest) : M unit :=
  _ ← checkFromHub ctx;
  exec Main (service_DeleteById (pb.Bytes (pb.SRId service)));;
  updateAccountRouting Main (pb.SRAccount service);;
  mret tt.

(** The loop of [removeHubServices] over the services found. *)
Fixpoint reroute (h : handle) (sos : list Service.t) : M unit :=
  match sos with
  | [] => mret tt
  | service :: rest =>
      acc ← lift (AccountFromKey E (Service.AccountId service));
      updateAccountRouting h acc;;
      reroute h rest
  end.

Definition removeHubServices (h : handle) (hubId : pb.ULID) : M unit :=
  sos ← exec h (service_FindByHub (pb.Bytes hubId));
  exec h (service_DeleteByHub (pb.Bytes hubId));;
  reroute h sos.

(** The branch of [FetchConfig] for a stable id the store does not know:
    the row is created. *)
Definition fetch_insert (req : pb.ConfigRequest) (data : ByteSlice) (t : Z)
  : M unit :=
  let hr :=
    {| Hub.StableID := pb.Bytes (pb.StableId req);
       Hub.InstanceID := pb.Bytes (pb.InstanceId req);
       Hub.ConnectionInfo := data;
       Hub.LastCheckin := t; Hub.CreatedAt := 0 |} in
  or_rollback (exec Tx (hub_Create t hr)).

(** The [else] branch of [FetchConfig], with the row [hr] the lookup left:
    the services of a previous instance are removed, then the row is
    updated. *)
Definition fetch_update (hr : Hub.t) (req : pb.ConfigRequest)
  (data : ByteSlice) (t : Z) : M unit :=
  let prev := pb.ULIDFromBytes (Hub.InstanceID hr) in
  (if negb (pb.Equal (pb.InstanceId req) prev)
   then or_rollback (removeHubServices Tx prev)
   else mret tt);;
  or_rollback
    (exec Tx (hub_Updates hr data (pb.Bytes (pb.InstanceId req)) t)).

(** [FetchConfig].  The lookup has three outcomes: no row, a row, or an
    error of the store, after which [hr] is still the zero value and the
    [else] branch runs all the same. *)
Definition FetchConfig (ctx : Ctx) (req : pb.ConfigRequest)
  : M pb.ConfigResponse :=
  _ ← checkFromHub ctx;
  data ← lift (json_Marshal E (pb.Locations req));
  Begin;;
  found ← try (exec Tx (hub_First (pb.Bytes (pb.StableId req))));
  t ← gets now;
  match found with
  | inl ErrRecordNotFound => fetch_insert req data t
  | inl _ => fetch_update Hub.zero req data t
  | inr hr => fetch_update hr req data t
  end;;
  Commit;;
  mret (config_response s).

(** [HubDisconnect] returns Go's pair: the response and the error, both
    present when the cleanup reports failures. *)
Definition HubDisconnect (ctx : Ctx) (req : pb.HubDisconnectRequest)
  : World -> (option pb.Noop * option error) * World := fun w =>
  match checkFromHub ctx w with
  | (inl e, w0) => ((None, Some e), w0)
  | (inr _, w0) =>
      let err : option error := None in
      let (r1, w1) := removeHubServices Main (pb.HDInstanceId req) w0 in
      let serr := err_of r1 in
      let err :=
        match err with
        | Some _ => Some (multierror_Append err serr)
        | None => err
        end in
      let (r2, w2) :=
        exec Main (hub_Delete (pb.Bytes (pb.HDStableId req))) w1 in
      let serr := err_of r2 in
      let err :=
        match serr with
        | Some _ => Some (multierror_Append err serr)
        | None => err
        end in
      ((Some pb.MkNoop, err), w2)
  end.

Definition Register (ctx : Ctx) (reg : pb.ControlRegister) : M string :=
  match incoming ctx with
  | None => fail ErrBadAuthentication
  | Some md =>
      match authorization md with
      | [] => fail ErrBadAuthentication
      | bearer :: _ =>
          if decide (bearer ≠ registerToken s) then fail ErrBadAuthentication
          else
            found ← try (exec Main
                           (mgmt_FirstLike (pb.RegNamespace reg +:+ "%")));
            match found with
            | inl ErrRecordNotFound =>
                n ← gets drawn;
                modify (with_drawn (S n));;
                let rec :=
                  {| ManagementClient.ID := pb.Bytes (NewULID E n);
                     ManagementClient.Namespace := pb.RegNamespace reg |} in
                exec Main (mgmt_Create rec);;
                lift (EncodeED25519WithVault E
                        {| token.TCRole := pb.MANAGE;
                           token.TCAccountId := None;
                           token.AccuntNamespace := "";
                           token.Capabilities :=
                             [(pb.ACCESS, ManagementClient.Namespace rec)];
                           token.RawCapabilities := [];
                           token.ValidDuration := 0 |})
            | inl err => fail err
            | inr _ => fail (Errorf "namespace already in use")
            end
      end
  end.

Definition IssueHubToken (ctx : Ctx) (_ : pb.Noop) : M string :=
  match incoming ctx with
  | None => fail ErrBadAuthentication
  | Some md =>
      match authorization md with
      | [] => fail ErrBadAuthentication
      | bearer :: _ =>
          if decide (bearer ≠ registerToken s) then fail ErrBadAuthentication
          else
            lift (EncodeED25519WithVault E
                    {| token.TCRole := pb.HUB;
                       token.TCAccountId := None;
                       token.AccuntNamespace := "";
                       token.Capabilities := [];
                       token.RawCapabilities := [];
                       token.ValidDuration := 0 |})
      end
  end.

Definition AddLabelLink (ctx : Ctx) (req : pb.AddLabelLinkRequest)
  : M pb.Noop :=
  caller ← checkMgmtAllowed ctx;
  let account :=
    if decide (pb.Namespace (pb.ALAccount req) = "")
    then {| pb.AccountId := pb.AccountId (pb.ALAccount req);
            pb.Namespace := pb.Namespace (token.Account caller) |}
    else pb.ALAccount req in
  if negb (token.AllowAccount caller (pb.Namespace account))
  then fail (Wrapf ErrInvalidRequest "invalid namespace requested")
  else
    t ← gets now;
    exec Main (account_Upsert t
                 {| Account.ID := Key E account;
                    Account.Namespace := pb.Namespace account;
                    Account.CreatedAt := 0; Account.UpdatedAt := 0 |});;
    exec Main (label_link_Create t
                 {| LabelLink.ID := 0;
                    LabelLink.AccountID := Key E account;
                    LabelLink.Labels := FlattenLabels E (pb.ALLabels req);
                    LabelLink.Target := FlattenLabels E (pb.ALTarget req);
                    LabelLink.CreatedAt := 0; LabelLink.UpdatedAt := 0 |});;
    _ ← try (broadcastActivity ctx
               {| pb.AccountServices_ := [];
                  pb.NewLabelLinks :=
                    Some [ {| pb.LLAccount := account;
                              pb.LLLabels := pb.ALLabels req;
                              pb.LLTarget := pb.ALTarget req |} ] |});
    updateLabelLinks;;
    mret pb.MkNoop.

Definition RemoveLabelLink (ctx : Ctx) (req : pb.RemoveLabelLinkRequest)
  : M pb.Noop :=
  caller ← checkMgmtAllowed ctx;
  if negb (token.AllowAccount caller (pb.Namespace (pb.RLAccount req)))
  then fail (Wrapf ErrInvalidRequest "invalid namespace requested")
  else
    exec Main (label_link_Delete (Key E (pb.RLAccount req))
                                 (FlattenLabels E (pb.RLLabels req)));;
    updateLabelLinks;;
    mret pb.MkNoop.

(** The loop of [CreateToken] over the requested capabilities: [true] when
    it meets an ACCESS capability the caller may not grant. *)
Fixpoint access_refused (caller : token.ValidToken)
  (cbs : list pb.TokenCapability) : bool :=
  match cbs with
  | [] => false
  | cb :: rest =>
      if decide (pb.Capability_ cb = pb.ACCESS)
      then if negb (token.AllowAccount caller (pb.Value cb)) then true
           else access_refused caller rest
      else access_refused caller rest
  end.

Definition CreateToken (ctx : Ctx) (req : pb.CreateTokenRequest) : M string :=
  caller ← checkMgmtAllowed ctx;
  if negb (token.AllowAccount caller (pb.Namespace (pb.CTAccount req)))
  then fail (Wrapf ErrInvalidRequest "invalid namespace requested")
  else if access_refused caller (pb.CTCapabilities req)
  then fail (Wrapf ErrInvalidRequest
               "invalid namespace requested in access capability")
  else
    let dur := default 0%Z (pb.CTValidDuration req) in
    t ← gets now;
    created ← try (exec Main
                     (account_Upsert t
                        {| Account.ID := Key E (pb.CTAccount req);
                           Account.Namespace := pb.Namespace (pb.CTAccount req);
                           Account.CreatedAt := 0; Account.UpdatedAt := 0 |}));
    match created with
    | inr _ | inl ErrNoRows => mret tt
    | inl err => fail (Wrapf err "creating account record")
    end;;
    lift (EncodeED25519WithVault E
            {| token.TCRole := token.TCRole token.TokenCreator_zero;
               token.TCAccountId := Some (pb.AccountId (pb.CTAccount req));
               token.AccuntNamespace := pb.Namespace (pb.CTAccount req);
               token.Capabilities :=
                 token.Capabilities token.TokenCreator_zero;
               token.RawCapabilities := pb.CTCapabilities req;
               token.ValidDuration := dur |}).

(** The loop of [AllHubs] over the rows read. *)
Fixpoint hub_infos (rows : list Hub.t) : error + list pb.HubInfo :=
  match rows with
  | [] => inr []
  | h :: rest =>
      match json_Unmarshal E (Hub.ConnectionInfo h) with
      | inl e => inl e
      | inr locs =>
          match hub_infos rest with
          | inl e => inl e
          | inr out =>
              inr ({| pb.HubInfoId := pb.ULIDFromBytes (Hub.InstanceID h);
                      pb.HubLocations := locs |} :: out)
          end
      end
  end.

Definition AllHubs (ctx : Ctx) (_ : pb.Noop) : M (list pb.HubInfo) :=
  rows ← exec Main hub_Find;
  lift (hub_infos rows).

Definition RequestServiceToken (ctx : Ctx) (req : pb.ServiceTokenRequest)
  : M string :=
  _ ← checkFromHub ctx;
  lift (EncodeED25519WithVault E
          {| token.TCRole := token.TCRole token.TokenCreator_zero;
             token.TCAccountId := Some pb.InternalAccount;
             token.AccuntNamespace := pb.STNamespace req;
             token.Capabilities := token.Capabilities token.TokenCreator_zero;
             token.RawCapabilities :=
               [ {| pb.Capability_ := pb.ACCESS;
                    pb.Value := pb.STNamespace req |};
                 {| pb.Capability_ := pb.CONNECT; pb.Value := "" |} ];
             token.ValidDuration := 0 |}).

(** *** The streaming session *)

(** An outcome of [stream.Recv]. *)
Inductive recv : Type :=
| RecvErr (e : error)
| RecvMsg (msg : pb.HubActivity).

(** What one turn of the sender's [select] picks: the cancellation of the
    session context, a delta from [ch.xmit] together with the outcome of
    [stream.Send], or the closed channel. *)
Inductive session_event : Type :=
| CtxDone
| Xmit (act : pb.CentralActivity) (sent : option error)
| XmitClosed.

(** The surroundings of one session: the first frame, the turns of the
    sender loop and the deltas that broadcasters still offer on [ch.xmit]
    when the session exits. *)
Record ServerStream : Type :=
  { first_recv : recv;
    events : list session_event;
    offered : list pb.CentralActivity }.

(** The sender loop; [None]: the [select] blocks with no event left, the
    handler has not returned. *)
Fixpoint send_loop (evs : list session_event) : option (option error) :=
  match evs with
  | [] => None
  | CtxDone :: _ => Some (Some Canceled)
  | XmitClosed :: _ => Some None
  | Xmit _ (Some e) :: _ => Some (Some e)
  | Xmit _ None :: rest => send_loop rest
  end.

(** The loop of the deferred teardown,
    [for { select { case <-ch.xmit: default: } }]: a turn takes an offered
    delta or falls through the [default]; either way the loop goes round
    again.  [None]: the loop is still running when the fuel is spent. *)
Fixpoint drain (fuel : nat) (pending : list pb.CentralActivity)
  : option unit :=
  match fuel with
  | O => None
  | S fuel' =>
      match pending with
      | _ :: rest => drain fuel' rest
      | [] => drain fuel' []
      end
  end.

(** [StreamActivity]: [None] in the first component when the handler has
    not returned within the fuel; the world is the one reached so far.  The
    receiving goroutine, which only feeds the telemetry counters, is left
    out. *)
Definition StreamActivity (fuel : nat) (ctx : Ctx) (stream : ServerStream)
  : World -> option (option error) * World := fun w =>
  match checkFromHub ctx w with
  | (inl e, w0) => (Some (Some e), w0)
  | (inr _, w0) =>
      match first_recv stream with
      | RecvErr e => (Some (Some e), w0)
      | RecvMsg msg =>
          match pb.HubReg msg with
          | None => (Some None, w0)
          | Some reg =>
              let key := SpecString E (pb.RegHub reg) in
              let ch := {| xmit := []; messages := 0; bytes := 0 |} in
              let w1 :=
                with_connectedHubs (<[key := ch]> (connectedHubs w0)) w0 in
              match send_loop (events stream) with
              | None => (None, w1)
              | Some ret =>
                  let w2 :=
                    with_connectedHubs (delete key (connectedHubs w1)) w1 in
                  match drain fuel (offered stream) with
                  | None => (None, w2)
                  | Some _ => (Some ret, w2)
                  end
              end
          end
      end
  end.

End Handlers.

(** ** The fast-fail rule, as the specification words it *)

(** Why a bearer is turned away: the call has no metadata, the metadata has
    no [authorization] entry, the verifier rejects the bearer, or the role
    of the token is not the required one. *)
Inductive rejection : Type :=
| NoMetadata
| NoAuthorization
| BadBearer (e : error)
| WrongRole (role : pb.TokenRole).

(** The screening of a call against a required role. *)
Definition screen (E : Env) (s : Server) (required : pb.TokenRole) (ctx : Ctx)
  : rejection + token.ValidToken :=
  match incoming ctx with
  | None => inl NoMetadata
  | Some md =>
      match authorization md with
      | [] => inl NoAuthorization
      | bearer :: _ =>
          match CheckTokenED25519 E bearer (pubKey s) with
          | inl e => inl (BadBearer e)
          | inr tok =>
              if decide (token.Role (token.Body tok) = required)
              then inr tok
              else inl (WrongRole (token.Role (token.Body tok)))
          end
      end
  end.

(** An error is the bad-authentication error when that is its cause. *)
Definition is_bad_authentication (e : error) : Prop :=
  Cause e = ErrBadAuthentication.

(** The error a hub-gated handler answers a rejection with. *)
Definition hub_rejection_error (r : rejection) : error :=
  match r with
  | NoMetadata | NoAuthorization => ErrBadAuthentication
  | BadBearer e => e
  | WrongRole role =>
      Wrapf ErrBadAuthentication ("role was: " +:+ TokenRole_String role)
  end.

(** The error a management-gated handler answers a rejection with. *)
Definition mgmt_rejection_error (r : rejection) : error :=
  match r with
  | BadBearer e => e
  | _ => ErrBadAuthentication
  end.

(** ** A concrete environment *)

Module Demo.

(** A toy token codec: a bearer is the name of the role, a colon and the
    namespace of the account, which is also the namespace the token has
    ACCESS to. *)
Definition mk_token (role : pb.TokenRole) (ns : string) : token.ValidToken :=
  {| token.Body :=
       {| token.Role := role;
          token.BodyAccount :=
            {| pb.AccountId := pb.ULIDFromBytes ""; pb.Namespace := ns |};
          token.BodyCapabilities :=
            [ {| pb.Capability_ := pb.ACCESS; pb.Value := ns |} ] |} |}.

Definition after (n : nat) (b : string) : string :=
  String.substring n (String.length b - n) b.

Definition check (bearer : string) (pub : ByteSlice)
  : error + token.ValidToken :=
  if String.prefix "HUB:" bearer
  then inr (mk_token pb.HUB (after 4 bearer))
  else if String.prefix "MANAGE:" bearer
  then inr (mk_token pb.MANAGE (after 7 bearer))
  else if String.prefix "INTERNAL_SERVICE:" bearer
  then inr (mk_token pb.INTERNAL_SERVICE (after 17 bearer))
  else inl (Upstream "token: signature mismatch").

Definition sign (tc : token.TokenCreator) : error + string :=
  inr (TokenRole_String (token.TCRole tc) +:+ ":"
       +:+ token.AccuntNamespace tc).

Definition hub_token : token.ValidToken := mk_token pb.HUB "".

Definition other_hub_token : token.ValidToken :=
  mk_token pb.HUB "other/team".

Definition manage_token : token.ValidToken := mk_token pb.MANAGE "org/team".

Definition label_string (l : pb.Label) : string :=
  pb.Name l +:+ "=" +:+ pb.LabelValue l.

Definition env : Env :=
  {| CheckTokenED25519 := check;
     EncodeED25519WithVault := sign;
     Key := fun a => pb.Bytes (pb.AccountId a);
     AccountFromKey :=
       fun k => inr {| pb.AccountId := pb.ULIDFromBytes k;
                       pb.Namespace := "" |};
     SpecString := pb.Bytes;
     AsStringArray := fun ls => label_string <$> ls;
     FlattenLabels := fun ls => String.concat "," (label_string <$> ls);
     json_Marshal := fun _ => inr "[]";
     json_Unmarshal := fun _ => inr [];
     NewULID := fun n => pb.ULIDFromBytes (String (ascii_of_nat n) "") |}.







Definition server : Server :=
  {| pubKey := "pub"; registerToken := "register-secret";
     hubCert := "cert"; hubKey := "key";
     HubAccessKey := "ak"; HubSecretKey := "sk"; Bucket := "bucket" |}.

Definition empty_db : DB :=
  {| accounts := []; hubs := []; services := []; label_links := [];
     management_clients := []; serial := 0 |}.

Definition world (d : DB) : World :=
  {| db := d; tx := None; connectedHubs := ∅; faults := []; now := 1000;
     drawn := 0; materialized := [] |}.

(** A call that carries [bearer] in its [authorization] entry. *)
Definition call (bearer : string) : Ctx :=
  {| incoming := Some {[ "authorization" := [bearer] ]};
     cancel_after := None |}.

(** A call without metadata. *)
Definition bare_call : Ctx := {| incoming := None; cancel_after := None |}.

Definition hub_row (stable instance : ByteSlice) : Hub.t :=
  {| Hub.StableID := stable; Hub.InstanceID := instance;
     Hub.ConnectionInfo := "[]"; Hub.LastCheckin := 900;
     Hub.CreatedAt := 800 |}.

Definition service_row (id : Z) (service hub account : ByteSlice)
  : Service.t :=
  {| Service.ID := id; Service.ServiceId := service; Service.HubId := hub;
     Service.AccountId := account; Service.Type_ := "http";
     Service.Description := ""; Service.Labels := ["env=prod"];
     Service.CreatedAt := 900; Service.UpdatedAt := 900 |}.

End Demo.

(** ** The gated calls *)

(** The two gates: [checkFromHub] and [checkMgmtAllowed]. *)
Inductive gate : Type := HubGate | MgmtGate.

Definition gate_role (g : gate) : pb.TokenRole :=
  match g with HubGate => pb.HUB | MgmtGate => pb.MANAGE end.

Definition gate_error (g : gate) : rejection -> error :=
  match g with
  | HubGate => hub_rejection_error
  | MgmtGate => mgmt_rejection_error
  end.

(** A call of one of the handlers that open with a gate. *)
Inductive rpc : Type :=
| CallAddService (req : pb.ServiceRequest)
| CallRemoveService (req : pb.ServiceRequest)
| CallFetchConfig (req : pb.ConfigRequest)
| CallHubDisconnect (req : pb.HubDisconnectRequest)
| CallRequestServiceToken (req : pb.ServiceTokenRequest)
| CallStreamActivity (fuel : nat) (stream : ServerStream)
| CallAddLabelLink (req : pb.AddLabelLinkRequest)
| CallRemoveLabelLink (req : pb.RemoveLabelLinkRequest)
| CallCreateToken (req : pb.CreateTokenRequest).

Definition gate_of (c : rpc) : gate :=
  match c with
  | CallAddService _ | CallRemoveService _ | CallFetchConfig _
  | CallHubDisconnect _ | CallRequestServiceToken _
  | CallStreamActivity _ _ => HubGate
  | CallAddLabelLink _ | CallRemoveLabelLink _ | CallCreateToken _ => MgmtGate
  end.

(** The error a handler returns, [None] standing for Go's [nil]. *)
Definition returned {A : Type} (c : M A) (w : World)
  : option (option error) * World :=
  let (r, w') := c w in (Some (err_of r), w').

(** Dispatch of a call to its handler, keeping the error returned (the outer
    [None]: the handler has not returned) and the world reached. *)
Definition run (E : Env) (s : Server) (c : rpc) (ctx : Ctx) (w : World)
  : option (option error) * World :=
  match c with
  | CallAddService req => returned (AddService E s ctx req) w
  | CallRemoveService req => returned (RemoveService E s ctx req) w
  | CallFetchConfig req => returned (FetchConfig E s ctx req) w
  | CallHubDisconnect req =>
      let (r, w') := HubDisconnect E s ctx req w in (Some (snd r), w')
  | CallRequestServiceToken req =>
      returned (RequestServiceToken E s ctx req) w
  | CallStreamActivity fuel stream => StreamActivity E s fuel ctx stream w
  | CallAddLabelLink req => returned (AddLabelLink E s ctx req) w
  | CallRemoveLabelLink req => returned (RemoveLabelLink E s ctx req) w
  | CallCreateToken req => returned (CreateToken E s ctx req) w
  end.

(** ** Vocabulary of the statements *)

(** A computation that leaves the committed tables as they are, and one that
    does so whenever it fails. *)
Definition keeps_db {A : Type} (c : M A) : Prop :=
  forall w, db (c w).2 = db w.

Definition errors_keep_db {A : Type} (c : M A) : Prop :=
  forall w e, (c w).1 = inl e -> db (c w).2 = db w.

(** The accounts [removeHubServices] re-materialises for the services it
    found, or the first error of [pb.AccountFromKey]. *)
Fixpoint resolve (E : Env) (sos : list Service.t) : error + list pb.Account :=
  match sos with
  | [] => inr []
  | so :: rest =>
      match AccountFromKey E (Service.AccountId so) with
      | inl e => inl e
      | inr acc =>
          match resolve E rest with
          | inl e => inl e
          | inr accs => inr (acc :: accs)
          end
      end
  end.

(** The row [FetchConfig] creates for a new stable id. *)
Definition fresh_row (req : pb.ConfigRequest) (data : ByteSlice) (t : Z)
  : Hub.t :=
  {| Hub.StableID := pb.Bytes (pb.StableId req);
     Hub.InstanceID := pb.Bytes (pb.InstanceId req);
     Hub.ConnectionInfo := data; Hub.LastCheckin := t; Hub.CreatedAt := t |}.

(** The rows of the hubs table after the update of [FetchConfig] on the row
    keyed [key]. *)
Definition touch_rows (key : ByteSlice) (req : pb.ConfigRequest)
  (data : ByteSlice) (t : Z) (rows : list Hub.t) : list Hub.t :=
  (fun h => if decide (key = "" ∨ Hub.StableID h = key)
            then hub_set data (pb.Bytes (pb.InstanceId req)) t h else h)
  <$> rows.

(** A namespace without the wildcards of [LIKE]: no [%], no [_] and no
    backslash. *)
Fixpoint literal (n : string) : bool :=
  match n with
  | EmptyString => true
  | String c n' =>
      negb (Ascii.eqb c "%"%char) && negb (Ascii.eqb c "_"%char)
      && negb (Ascii.eqb c "\"%char) && literal n'
  end.

(** The call carries [secret] as the first value of its [authorization]
    entry. *)
Definition presents (secret : string) (ctx : Ctx) : Prop :=
  exists md rest, incoming ctx = Some md ∧ authorization md = secret :: rest.

(** The creator [Register] hands to the signer. *)
Definition manage_creator (ns : string) : token.TokenCreator :=
  {| token.TCRole := pb.MANAGE; token.TCAccountId := None;
     token.AccuntNamespace := "";
     token.Capabilities := [(pb.ACCESS, ns)];
     token.RawCapabilities := []; token.ValidDuration := 0 |}.

(** The accounts table after the upsert of [ao]. *)
Definition upsert_rows (t : Z) (ao : Account.t) (rows : list Account.t)
  : list Account.t :=
  if decide (Account.ID ao ∈ Account.ID <$> rows)
  then (fun a => if decide (Account.ID a = Account.ID ao)
                 then {| Account.ID := Account.ID a;
                         Account.Namespace := Account.Namespace ao;
                         Account.CreatedAt := Account.CreatedAt a;
                         Account.UpdatedAt := Account.UpdatedAt a |}
                 else a) <$> rows
  else rows ++ [ {| Account.ID := Account.ID ao;
                    Account.Namespace := Account.Namespace ao;
                    Account.CreatedAt := t; Account.UpdatedAt := t |} ].

(** The account [AddLabelLink] works on: an empty namespace in the request
    is replaced by the namespace of the caller. *)
Definition link_account (caller : token.ValidToken)
  (req : pb.AddLabelLinkRequest) : pb.Account :=
  if decide (pb.Namespace (pb.ALAccount req) = "")
  then {| pb.AccountId := pb.AccountId (pb.ALAccount req);
          pb.Namespace := pb.Namespace (token.Account caller) |}
  else pb.ALAccount req.

(** The delta [AddLabelLink] broadcasts. *)
Definition link_delta (account : pb.Account) (req : pb.AddLabelLinkRequest)
  : pb.CentralActivity :=
  {| pb.AccountServices_ := [];
     pb.NewLabelLinks :=
       Some [ {| pb.LLAccount := account;
                 pb.LLLabels := pb.ALLabels req;
                 pb.LLTarget := pb.ALTarget req |} ] |}.

(** The row [AddLabelLink] inserts, as stored. *)
Definition link_row (E : Env) (account : pb.Account)
  (req : pb.AddLabelLinkRequest) (id t : Z) : LabelLink.t :=
  {| LabelLink.ID := id; LabelLink.AccountID := Key E account;
     LabelLink.Labels := FlattenLabels E (pb.ALLabels req);
     LabelLink.Target := FlattenLabels E (pb.ALTarget req);
     LabelLink.CreatedAt := t; LabelLink.UpdatedAt := t |}.

(** The account row handed to the upsert. *)
Definition account_row (E : Env) (account : pb.Account) : Account.t :=
  {| Account.ID := Key E account;
     Account.Namespace := pb.Namespace account;
     Account.CreatedAt := 0; Account.UpdatedAt := 0 |}.


(** The row [AddService] inserts, as stored. *)
Definition new_service (E : Env) (service : pb.ServiceRequest) (id t : Z)
  : Service.t :=
  {| Service.ID := id;
     Service.ServiceId := pb.Bytes (pb.SRId service);
     Service.HubId := pb.Bytes (pb.SRHub service);
     Service.AccountId := Key E (pb.SRAccount service);
     Service.Type_ := pb.SRType service;
     Service.Description := "";
     Service.Labels := AsStringArray E (pb.SRLabels service);
     Service.CreatedAt := t; Service.UpdatedAt := t |}.

(** ** Flow telemetry *)

(** Go's int64 arithmetic: the result of an addition, wrapped around. *)
Definition wrap64 (z : Z) : Z := ((z + 2 ^ 63) mod 2 ^ 64 - 2 ^ 63)%Z.

(** The three shapes of a flow record; the fields [processFlows] reads. *)
Record FlowStream : Type :=
  { FlowId : pb.ULID; StreamHubId : pb.ULID; StreamAgentId : pb.ULID;
    StreamServiceId : pb.ULID; StreamAccount : pb.Account;
    NumMessages : Z; NumBytes : Z }.

Record FlowAgent : Type :=
  { AgentHubId : pb.ULID; AgentId : pb.ULID; AgentAccount : pb.Account;
    ActiveStreams : Z }.

Record FlowHubStats : Type := { StatsHubId : pb.ULID; ActiveAgents : Z }.

Record FlowRecord : Type :=
  { Stream : option FlowStream; Agent : option FlowAgent;
    HubStats : option FlowHubStats }.

(** What [processFlows] hands to the metrics sink and to the top-N
    structure.  A value is kept as the integer the code converts with
    [float32]. *)
Inductive metric : Type :=
| IncrCounterWithLabels (key : list string) (val : Z)
    (labels : list (string * string))
| SetGaugeWithLabels (key : list string) (val : Z)
    (labels : list (string * string))
| IncrCounter (key : list string) (val : Z)
| FlowTopAdd (stream : FlowStream).

Section Telemetry.

(** [AccountSpecString] stands for [pb.Account.SpecString], which is defined
    outside these sources. *)
Context (E : Env) (AccountSpecString : pb.Account -> string).

(** The sink calls for a stream record. *)
Definition stream_metrics (st : FlowStream) : list metric :=
  let labels :=
    [ ("flow", SpecString E (FlowId st));
      ("hub", SpecString E (StreamHubId st));
      ("agent", SpecString E (StreamAgentId st));
      ("service", SpecString E (StreamServiceId st));
      ("account", AccountSpecString (StreamAccount st)) ] in
  [ IncrCounterWithLabels ["stream"; "messages"] (NumMessages st) labels;
    IncrCounterWithLabels ["stream"; "bytes"] (NumBytes st) labels;
    FlowTopAdd st ].

(** The sink call for an agent record. *)
Definition agent_metrics (a : FlowAgent) : list metric :=
  [ SetGaugeWithLabels ["hub"; "streams"] (ActiveStreams a)
      [ ("hub", SpecString E (AgentHubId a));
        ("agent", SpecString E (AgentId a));
        ("account", AccountSpecString (AgentAccount a)) ] ].

(** The sink call for a hub-statistics record. *)
Definition hub_stats_metrics (h : FlowHubStats) : list metric :=
  [ SetGaugeWithLabels ["agents"; "active"] (ActiveAgents h)
      [ ("hub", SpecString E (StatsHubId h)) ] ].

(** The loop of [processFlows]: the two running sums and the sink calls, in
    order. *)
Fixpoint flow_loop (flows : list FlowRecord) (mdiff bdiff : Z)
  : Z * Z * list metric :=
  match flows with
  | [] => (mdiff, bdiff, [])
  | rec :: rest =>
      let '(mdiff1, bdiff1, ev1) :=
        match Stream rec with
        | Some st =>
            (wrap64 (mdiff + NumMessages st), wrap64 (bdiff + NumBytes st),
             stream_metrics st)
        | None => (mdiff, bdiff, [])
        end in
      let ev2 := match Agent rec with Some a => agent_metrics a | None => [] end in
      let ev3 :=
        match HubStats rec with Some h => hub_stats_metrics h | None => [] end in
      let '(m, b, evs) := flow_loop rest mdiff1 bdiff1 in
      (m, b, ev1 ++ ev2 ++ ev3 ++ evs)
  end.

(** [processFlows]: the counters of the session after the two
    [atomic.AddInt64], and all the sink calls. *)
Definition processFlows (ch : connectedHub) (flows : list FlowRecord)
  : connectedHub * list metric :=
  let '(mdiff, bdiff, evs) := flow_loop flows 0 0 in
  ({| xmit := xmit ch;
      messages := wrap64 (messages ch + mdiff);
      bytes := wrap64 (bytes ch + bdiff) |},
   evs ++ [ IncrCounter ["total"; "messages"] mdiff;
            IncrCounter ["total"; "bytes"] bdiff ]).

End Telemetry.

(** The messages and the bytes of the stream records of a batch, summed as
    integers. *)
Definition stream_messages (flows : list FlowRecord) : Z :=
  foldr (fun rec acc =>
           (match Stream rec with Some st => NumMessages st | None => 0 end
            + acc)%Z) 0%Z flows.

Definition stream_bytes (flows : list FlowRecord) : Z :=
  foldr (fun rec acc =>
           (match Stream rec with Some st => NumBytes st | None => 0 end
            + acc)%Z) 0%Z flows.



(** ** More vocabulary *)

(** The creator [IssueHubToken] hands to the signer. *)
Definition hub_creator : token.TokenCreator :=
  {| token.TCRole := pb.HUB; token.TCAccountId := None;
     token.AccuntNamespace := ""; token.Capabilities := [];
     token.RawCapabilities := []; token.ValidDuration := 0 |}.

(** The verifier reads back the role the signer was given. *)
Definition codec_keeps_role (E : Env) (s : Server) : Prop :=
  forall tc bearer,
    EncodeED25519WithVault E tc = inr bearer ->
    exists tok, CheckTokenED25519 E bearer (pubKey s) = inr tok
                ∧ token.Role (token.Body tok) = token.TCRole tc.

(** The delta [AddService] broadcasts. *)
Definition service_delta (service : pb.ServiceRequest) : pb.CentralActivity :=
  {| pb.AccountServices_ :=
       [ {| pb.ASAccount := pb.SRAccount service;
            pb.Services :=
              [ {| pb.RouteHub := pb.SRHub service;
                   pb.RouteId := pb.SRId service;
                   pb.RouteType := pb.SRType service;
                   pb.RouteLabels := pb.SRLabels service |} ] |} ];
     pb.NewLabelLinks := None |}.

(** The record [StreamActivity] installs for a new session. *)
Definition fresh_session : connectedHub :=
  {| xmit := []; messages := 0; bytes := 0 |}.

(** The demo environment with a secret manager that cannot sign. *)
Definition sealed_env : Env :=
  {| CheckTokenED25519 := CheckTokenED25519 Demo.env;
     EncodeED25519WithVault := fun _ => inl (Upstream "vault is sealed");
     Key := Key Demo.env;
     AccountFromKey := AccountFromKey Demo.env;
     SpecString := SpecString Demo.env;
     AsStringArray := AsStringArray Demo.env;
     FlattenLabels := FlattenLabels Demo.env;
     json_Marshal := json_Marshal Demo.env;
     json_Unmarshal := json_Unmarshal Demo.env;
     NewULID := NewULID Demo.env |}.

(** * The HTTP front end (package [web])

    [extractPrefixHost] on Go strings, and [ServeHTTP] over the
    collaborators of a [Frontend]: the host-name checker, the label
    resolver and the connector. *)

Module web.

(** [strings.IndexByte]: the index of the first [c] in [s], or -1. *)
Fixpoint IndexByte (s : string) (c : ascii) : Z :=
  match s with
  | EmptyString => -1
  | String a rest =>
      if Ascii.eqb a c then 0
      else let i := IndexByte rest c in
           if decide (i = -1)%Z then -1 else (i + 1)%Z
  end.

(** [strings.LastIndexByte]: the index of the last [c] in [s], or -1. *)
Fixpoint LastIndexByte (s : string) (c : ascii) : Z :=
  match s with
  | EmptyString => -1
  | String a rest =>
      let i := LastIndexByte rest c in
      if decide (i = -1)%Z
      then (if Ascii.eqb a c then 0 else -1)%Z
      else (i + 1)%Z
  end.

(** Go's [len(s)] and [s[lo:hi]]; [extractPrefixHost] slices within
    bounds only. *)
Definition len (s : string) : Z := Z.of_nat (String.length s).

Definition slice (s : string) (lo hi : Z) : string :=
  String.substring (Z.to_nat lo) (Z.to_nat (hi - lo)) s.

Definition extractPrefixHost (host : string) : string * string * bool :=
  let firstDot := IndexByte host "."%char in
  let first :=
    if decide (firstDot ≠ -1)%Z then slice host 0 firstDot else host in
  let domain :=
    if decide (firstDot ≠ -1)%Z then slice host firstDot (len host) else "" in
  let lastDash := LastIndexByte first "-"%char in
  if decide (lastDash = -1)%Z then ("", "", false)
  else (slice first 0 (lastDash + 1) +:+ domain,
        slice first (lastDash + 1) (len first), true).

(** [c] occurs in [s]. *)
Fixpoint occurs (c : ascii) (s : string) : bool :=
  match s with
  | EmptyString => false
  | String a rest => Ascii.eqb a c || occurs c rest
  end.

(** What follows the first label of a host: nothing, or the rest from
    the first dot on. *)
Definition is_domain (domain : string) : Prop :=
  domain = "" \/ exists rest, domain = String "."%char rest.

End web.

Module frontend.
Import web.

(** The field of [registry.ResolvedService] that [ServeHTTP] reads, and a
    stand-in for the rest. *)
Record ResolvedService : Type := { ServiceType : string; Endpoint : string }.

(** [wire.Request], [wire.Header], [wire.Response]. *)
Record Header : Type := { Name : string; Value : list string }.

Record Request : Type :=
  { Method : string; Path : string; Query : string; Fragment : string;
    Auth : option (string * string); Headers : list Header }.

Record Response : Type := { Code : Z; RespHeaders : list Header }.

(** What [ServeHTTP] reads of the [*http.Request]; [Header] lists the
    entries in the order the [range] visits them. *)
Record HttpRequest : Type :=
  { Host : string; ReqMethod : string; EscapedPath : string;
    RawQuery : string; URLFragment : string;
    BasicAuth : option (string * string);
    ReqHeader : list (string * list string);
    Body : ByteSlice }.

(** A [wire.Context] after the request body was written to it: the tag,
    error and response [ReadMarshal] yields, and what [Reader] delivers. *)
Record WireContext : Type :=
  { ReadMarshal : ByteSlice -> Z * option string * Response;
    Reader : ByteSlice -> ByteSlice }.

(** The collaborators of a [Frontend]; an error is kept as its message.
    [FindLabelLink] and [MatchServices] return Go's tuples. *)
Record Frontend : Type :=
  { HandlingHostname : string -> bool;
    FindLabelLink : list string -> string * list string * option string;
    MatchServices :
      string -> list string -> list ResolvedService * option string;
    ConnectToService :
      Request -> string -> ResolvedService -> string + WireContext;
    CanonicalHeaderKey : string -> string }.

(** What the handler does to its [http.ResponseWriter]: [http.Error], a
    run-time panic, or the relayed response. *)
Inductive outcome : Type :=
| HttpError (msg : string) (code : Z)
| Panics
| Responds (code : Z) (headers : list (string * string)) (body : ByteSlice).

Definition StatusNotFound : Z := 404.
Definition StatusInternalServerError : Z := 500.

(** The first half of [ServeHTTP]: from the host to the account and the
    target labels, or the error answered. *)
Definition resolve_target (f : Frontend) (req : HttpRequest)
  : outcome + (string * list string) :=
  let '(prefixHost, deployId, usingPrefix) :=
    if negb (HandlingHostname f (Host req))
    then extractPrefixHost (Host req)
    else ("", "", false) in
  if negb (HandlingHostname f (Host req)) && negb usingPrefix
  then inl (HttpError ("no registered application for hostname: "
                       +:+ Host req) StatusInternalServerError)
  else
    let '(account, target, err) :=
      FindLabelLink f [":hostname=" +:+ Host req] in
    match err with
    | Some e => inl (HttpError e StatusInternalServerError)
    | None =>
        match target with
        | [] =>
            if usingPrefix then
              let '(account2, target2, err2) :=
                FindLabelLink f [":hostname=" +:+ prefixHost;
                                 ":deployment=true"] in
              match err2, target2 with
              | None, _ :: _ =>
                  inr (account2, target2 ++ [":deployment=" +:+ deployId])
              | _, _ =>
                  inl (HttpError
                         ("no registered application for hostname (2): "
                          +:+ Host req) StatusNotFound)
              end
            else
              inl (HttpError ("no registered application for hostname: "
                              +:+ Host req) StatusNotFound)
        | _ :: _ => inr (account, target)
        end
    end.

(** [hdr.Add(h.Name, v)] for every value of every header. *)
Definition relay_headers (f : Frontend) (hs : list Header)
  : list (string * string) :=
  hs ≫= (fun h => (fun v => (CanonicalHeaderKey f (Name h), v)) <$> Value h).

(** The second half of [ServeHTTP]: from the account and the target to the
    relayed response. *)
Definition forward (f : Frontend) (req : HttpRequest) (account : string)
  (target : list string) : outcome :=
  let '(services, err) := MatchServices f account target in
  match err with
  | Some e => HttpError e StatusInternalServerError
  | None =>
      match services with
      | [] => Panics
      | rs :: _ =>
          if decide (ServiceType rs ≠ "http")
          then HttpError "no http services available" StatusNotFound
          else
            let wreq :=
              {| Method := ReqMethod req; Path := EscapedPath req;
                 Query := RawQuery req; Fragment := URLFragment req;
                 Auth := BasicAuth req;
                 Headers := (fun kv => {| Name := kv.1; Value := kv.2 |})
                            <$> ReqHeader req |} in
            match ConnectToService f wreq account rs with
            | inl e => HttpError e StatusInternalServerError
            | inr wctx =>
                let '(tag, err, wresp) := ReadMarshal wctx (Body req) in
                match err with
                | Some e => HttpError e StatusInternalServerError
                | None =>
                    if decide (tag ≠ 1)%Z then Panics
                    else Responds (Code wresp)
                           (relay_headers f (RespHeaders wresp))
                           (Reader wctx (Body req))
                end
            end
      end
  end.

Definition ServeHTTP (f : Frontend) (req : HttpRequest) : outcome :=
  match resolve_target f req with
  | inl answered => answered
  | inr (account, target) => forward f req account target
  end.

(** A front end for the examples.  The checker handles [hub.example.com]
    and [app-7.example.com]; the resolver links [hub.example.com] and
    [www.example.com] directly and [app-.example.com] as a deployment
    link; every match yields [services], every service answers with
    [tag]. *)
Definition demo_service : ResolvedService :=
  {| ServiceType := "http"; Endpoint := "10.0.0.1:80" |}.

Definition demo_context (tag : Z) : WireContext :=
  {| ReadMarshal := fun _ =>
       (tag, None, {| Code := 200; RespHeaders := [] |});
     Reader := fun body => body |}.

Definition demo (services : list ResolvedService) (tag : Z) : Frontend :=
  {| HandlingHostname := fun h =>
       bool_decide (h ∈ ["hub.example.com"; "app-7.example.com"]);
     FindLabelLink := fun labels =>
       if decide (labels = [":hostname=hub.example.com"])
       then ("acct", [":app=hub"], None)
       else if decide (labels = [":hostname=www.example.com"])
       then ("acct", [":app=www"], None)
       else if decide (labels = [":hostname=app-.example.com";
                                 ":deployment=true"])
       then ("acct", [":app=web"], None)
       else ("", [], None);
     MatchServices := fun _ _ => (services, None);
     ConnectToService := fun _ _ _ => inr (demo_context tag);
     CanonicalHeaderKey := fun k => k |}.

Definition demo_request (host : string) : HttpRequest :=
  {| Host := host; ReqMethod := "GET"; EscapedPath := "/";
     RawQuery := ""; URLFragment := ""; BasicAuth := None;
     ReqHeader := []; Body := "" |}.

End frontend.

(** * The certificate store (package [data])

    The [certmagic] storage kept in one [bbolt] bucket.  [bbolt] is
    modelled by what the store relies on: a transaction is writable or
    read-only, a bucket can only be created in a writable one, and
    [ForEach] walks the keys in byte order. *)

Module bolt.

(** The errors of [bbolt] the certificate store can meet, and [Other] for
    those of the clock, the time codec and the disk. *)
Inductive berror : Type :=
| ErrTxNotWritable
| ErrKeyRequired
| ErrKeyTooLarge
| ErrValueTooLarge
| Other (msg : string).

Definition MaxKeySize : Z := 32768.
Definition MaxValueSize : Z := 2147483646.

(** The database file as the store uses it: the bucket [certs], when it
    exists, from keys to values. *)
Abbreviation Bucket := (gmap string ByteSlice).
Abbreviation DB := (option Bucket).

(** A transaction: whether it may write, and its view of the file. *)
Record Tx : Type := { writable : bool; root : DB }.

(** A call returns or panics. *)
Inductive result (A : Type) : Type :=
| Returns (a : A)
| Panics.
Arguments Returns {A} a.
Arguments Panics {A}.

Definition blen (s : ByteSlice) : Z := Z.of_nat (String.length s).

(** [tx.CreateBucketIfNotExists("certs")]: refused in a read-only
    transaction before the bucket is looked up. *)
Definition CreateBucketIfNotExists (tx : Tx) : berror + Tx :=
  if writable tx
  then inr {| writable := true; root := Some (default ∅ (root tx)) |}
  else inl ErrTxNotWritable.

(** [buk.Put], [buk.Delete] and [buk.Get] on the bucket of [tx]. *)
Definition Put (key : string) (value : ByteSlice) (tx : Tx) : berror + Tx :=
  if negb (writable tx) then inl ErrTxNotWritable
  else if decide (key = "") then inl ErrKeyRequired
  else if decide (MaxKeySize < blen key)%Z then inl ErrKeyTooLarge
  else if decide (MaxValueSize < blen value)%Z then inl ErrValueTooLarge
  else inr {| writable := true; root := insert key value <$> root tx |}.

Definition Remove (key : string) (tx : Tx) : berror + Tx :=
  if negb (writable tx) then inl ErrTxNotWritable
  else inr {| writable := true; root := delete key <$> root tx |}.

Definition Get (key : string) (tx : Tx) : option ByteSlice :=
  root tx ≫= fun b => b !! key.

(** [buk.ForEach] visits the pairs in the byte order of their keys. *)
Definition ForEach (b : Bucket) : list (string * ByteSlice) :=
  merge_sort (fun x y => String.le x.1 y.1) (map_to_list b).

(** [db.Update]: the function runs in a writable transaction, committed
    when it returns nil and rolled back otherwise; [commit] is the error
    of the commit, if any.  [db.View]: a read-only transaction. *)
Definition Update (commit : option berror) (fn : Tx -> berror + Tx) (d : DB)
  : option berror * DB :=
  match fn {| writable := true; root := d |} with
  | inl err => (Some err, d)
  | inr tx =>
      match commit with
      | Some err => (Some err, d)
      | None => (None, root tx)
      end
  end.

Definition View {A : Type} (fn : Tx -> berror + A) (d : DB) : berror + A :=
  fn {| writable := false; root := d |}.

(** [bytes.Count(k, "/")]. *)
Fixpoint Count (k : string) (c : ascii) : Z :=
  match k with
  | EmptyString => 0
  | String a rest => ((if Ascii.eqb a c then 1 else 0) + Count rest c)%Z
  end.

(** [data[15:]] and [data[:15]] of a slice of at least 15 bytes. *)
Definition from15 (data : ByteSlice) : ByteSlice :=
  String.substring 15 (String.length data - 15) data.

Definition upto15 (data : ByteSlice) : ByteSlice :=
  String.substring 0 15 data.

(** [certmagic.KeyInfo], as far as [Stat] fills it. *)
Record KeyInfo : Type := { Modified : Z; Size : Z; IsTerminal : bool }.

Definition KeyInfo_zero : KeyInfo :=
  {| Modified := 0; Size := 0; IsTerminal := false |}.

Section CertStorage.

(** [time.Now().MarshalBinary()] and [Time.UnmarshalBinary]. *)
Context (now : berror + ByteSlice) (UnmarshalBinary : ByteSlice -> berror + Z).

Definition Store (commit : option berror) (key : string) (value : ByteSlice)
  : DB -> option berror * DB :=
  Update commit (fun tx =>
    match CreateBucketIfNotExists tx with
    | inl err => inl err
    | inr buk =>
        match now with
        | inl err => inl err
        | inr data => Put key (data +:+ value) buk
        end
    end).

Definition Load (key : string) (d : DB)
  : result (option ByteSlice * option berror) :=
  match View (fun tx =>
          match CreateBucketIfNotExists tx with
          | inl err => inl err
          | inr buk =>
              inr match Get key buk with
                  | Some data =>
                      if decide (blen data < 15)%Z then Panics
                      else Returns (Some (from15 data))
                  | None => Returns None
                  end
          end) d with
  | inl err => Returns (None, Some err)
  | inr Panics => Panics
  | inr (Returns data) => Returns (data, None)
  end.

Definition Delete (commit : option berror) (key : string)
  : DB -> option berror * DB :=
  Update commit (fun tx =>
    match CreateBucketIfNotExists tx with
    | inl err => inl err
    | inr buk => Remove key buk
    end).

Definition Exists (key : string) (d : DB) : bool :=
  match View (fun tx =>
          match root tx with
          | None => inr false
          | Some _ => inr (bool_decide (is_Some (Get key tx)))
          end) d with
  | inr found => found
  | inl _ => false
  end.

Definition List (prefix : string) (recursive : bool) (d : DB)
  : list string * option berror :=
  match View (fun tx =>
          match root tx with
          | None => inr []
          | Some buk =>
              inr (foldl (fun matches kv =>
                            if negb recursive && bool_decide (1 < Count kv.1 "/"%char)%Z
                            then matches
                            else if String.prefix prefix kv.1
                                 then matches ++ [kv.2]
                                 else matches)
                         [] (ForEach buk))
          end) d with
  | inr matches => (matches, None)
  | inl err => ([], Some err)
  end.

Definition Stat (key : string) (d : DB) : result (KeyInfo * option berror) :=
  match View (fun tx =>
          match CreateBucketIfNotExists tx with
          | inl err => inl err
          | inr buk =>
              let data := default "" (Get key buk) in
              if decide (blen data < 15)%Z then inr Panics
              else match UnmarshalBinary (upto15 data) with
                   | inl err => inl err
                   | inr t =>
                       inr (Returns {| Modified := t;
                                       Size := blen data - 15;
                                       IsTerminal := false |})
                   end
          end) d with
  | inl err => Returns (KeyInfo_zero, Some err)
  | inr Panics => Panics
  | inr (Returns ki) => Returns (ki, None)
  end.

End CertStorage.

(** A time stamp of 15 bytes and a file with one certificate, for the
    examples. *)
Definition demo_stamp : ByteSlice := "2026-01-01T00Z!".

Definition demo_db : DB :=
  Some {[ "certs/a.crt" := demo_stamp +:+ "PEM" ]}.

End bolt.

(** * Properties *)

(** ** Authentication *)

Section Auth.

Context (E : Env) (s : Server).

Lemma checkFromHub_screen ctx w :
  checkFromHub E s ctx w =
  (match screen E s pb.HUB ctx with
   | inl r => inl (hub_rejection_error r)
   | inr tok => inr tok
   end, w).
Proof.
  unfold checkFromHub, screen.
  destruct (incoming ctx) as [md|]; [|reflexivity].
  destruct (authorization md) as [|bearer rest]; [reflexivity|].
  destruct (CheckTokenED25519 E bearer (pubKey s)) as [e|tok]; [reflexivity|].
  repeat case_decide; try reflexivity; congruence.
Qed.

Lemma checkMgmtAllowed_screen ctx w :
  checkMgmtAllowed E s ctx w =
  (match screen E s pb.MANAGE ctx with
   | inl r => inl (mgmt_rejection_error r)
   | inr tok => inr tok
   end, w).
Proof.
  unfold checkMgmtAllowed, screen.
  destruct (incoming ctx) as [md|]; [|reflexivity].
  destruct (authorization md) as [|bearer rest]; [reflexivity|].
  destruct (CheckTokenED25519 E bearer (pubKey s)) as [e|tok]; [reflexivity|].
  repeat case_decide; try reflexivity; congruence.
Qed.

Lemma bind_fails {A B} (c : M A) (k : A -> M B) w e w' :
  c w = (inl e, w') -> (c ≫= k) w = (inl e, w').
Proof. intros H. unfold mbind, M_bind. now rewrite H. Qed.

Lemma bind_runs {A B} (c : M A) (k : A -> M B) w a w' :
  c w = (inr a, w') -> (c ≫= k) w = k a w'.
Proof. intros H. unfold mbind, M_bind. now rewrite H. Qed.

Lemma returned_fails {A} (c : M A) w e w' :
  c w = (inl e, w') -> returned c w = (Some (Some e), w').
Proof. intros H. unfold returned. now rewrite H. Qed.

Lemma hub_gate_closed ctx w rej :
  screen E s pb.HUB ctx = inl rej ->
  checkFromHub E s ctx w = (inl (hub_rejection_error rej), w).
Proof. intros H. now rewrite checkFromHub_screen, H. Qed.

Lemma hub_gate_open ctx w tok :
  screen E s pb.HUB ctx = inr tok ->
  checkFromHub E s ctx w = (inr tok, w).
Proof. intros H. now rewrite checkFromHub_screen, H. Qed.

Lemma mgmt_gate_closed ctx w rej :
  screen E s pb.MANAGE ctx = inl rej ->
  checkMgmtAllowed E s ctx w = (inl (mgmt_rejection_error rej), w).
Proof. intros H. now rewrite checkMgmtAllowed_screen, H. Qed.

Lemma mgmt_gate_open ctx w tok :
  screen E s pb.MANAGE ctx = inr tok ->
  checkMgmtAllowed E s ctx w = (inr tok, w).
Proof. intros H. now rewrite checkMgmtAllowed_screen, H. Qed.

Lemma rejection_is_bad_authentication g rej :
  match rej with
  | BadBearer e => gate_error g rej = e
  | _ => is_bad_authentication (gate_error g rej)
  end.
Proof. destruct g, rej; reflexivity. Qed.

End Auth.

(** C1, as amended.  Each handler that opens with a gate (AddService,
    RemoveService, FetchConfig, HubDisconnect, RequestServiceToken and
    StreamActivity behind [checkFromHub]; AddLabelLink, RemoveLabelLink and
    CreateToken behind [checkMgmtAllowed]) returns the gate's error and
    leaves the world as it was whenever the call is screened out: the error
    is the bad-authentication error when the metadata or the authorization
    entry is missing or the role is not the required one, and the verifier's
    own error when the verifier rejects the bearer. *)
Theorem gated_calls_reject (E : Env) (s : Server) (c : rpc) (ctx : Ctx)
  (w : World) (rej : rejection) :
  screen E s (gate_role (gate_of c)) ctx = inl rej ->
  run E s c ctx w = (Some (Some (gate_error (gate_of c) rej)), w)
  ∧ match rej with
    | BadBearer e => gate_error (gate_of c) rej = e
    | _ => is_bad_authentication (gate_error (gate_of c) rej)
    end.
Proof.
  intros H. split; [|apply rejection_is_bad_authentication].
  destruct c; cbn [gate_of gate_role gate_error run] in H |- *;
    try (apply returned_fails;
         unfold AddService, RemoveService, FetchConfig, RequestServiceToken,
           AddLabelLink, RemoveLabelLink, CreateToken;
         apply bind_fails;
         first [ now apply hub_gate_closed | now apply mgmt_gate_closed ]).
  - unfold HubDisconnect. now rewrite (hub_gate_closed _ _ _ _ _ H).
  - unfold StreamActivity. now rewrite (hub_gate_closed _ _ _ _ _ H).
Qed.

(** A call without metadata is turned away by AddService. *)
Lemma gated_calls_reject_witness :
  screen Demo.env Demo.server pb.HUB Demo.bare_call = inl NoMetadata
  ∧ forall req w,
      run Demo.env Demo.server (CallAddService req) Demo.bare_call w
      = (Some (Some ErrBadAuthentication), w).
Proof.
  split; [reflexivity|].
  intros req w.
  apply (gated_calls_reject Demo.env Demo.server (CallAddService req)
           Demo.bare_call w NoMetadata).
  reflexivity.
Defined.

(** C1 fails as stated: AllHubs opens with no gate.  A call without
    metadata gets the list of hubs, not the bad-authentication error. *)
Lemma AllHubs_is_not_gated :
  incoming Demo.bare_call = None
  ∧ AllHubs Demo.env Demo.bare_call pb.MkNoop
      (Demo.world (with_hubs [Demo.hub_row "S" "I"] Demo.empty_db))
    = (inr [ {| pb.HubInfoId := pb.ULIDFromBytes "I";
                pb.HubLocations := [] |} ],
       Demo.world (with_hubs [Demo.hub_row "S" "I"] Demo.empty_db)).
Proof. split; reflexivity. Qed.

(** ** HubDisconnect *)

(** C2: the code loses the cause.  When the removal of the services fails
    and the deletion of the hub row succeeds, HubDisconnect returns the
    response with a nil error: the first failure is appended only under
    [if err != nil], and [err] is nil after the gate. *)
Theorem HubDisconnect_loses_service_error (E : Env) (s : Server) (ctx : Ctx)
  (req : pb.HubDisconnectRequest) (w w1 w2 : World) (tok : token.ValidToken)
  (cause : error) :
  screen E s pb.HUB ctx = inr tok ->
  removeHubServices E Main (pb.HDInstanceId req) w = (inl cause, w1) ->
  exec Main (hub_Delete (pb.Bytes (pb.HDStableId req))) w1 = (inr tt, w2) ->
  HubDisconnect E s ctx req w = ((Some pb.MkNoop, None), w2).
Proof.
  intros Hgate Hrm Hdel. unfold HubDisconnect.
  rewrite (hub_gate_open _ _ _ _ _ Hgate), Hrm, Hdel. reflexivity.
Qed.

(** The store reports a deadlock on the first statement of the removal; the
    hub row is deleted all the same and no error comes back. *)
Lemma HubDisconnect_loses_service_error_witness :
  let req := {| pb.HDStableId := pb.ULIDFromBytes "S";
                pb.HDInstanceId := pb.ULIDFromBytes "I" |} in
  let d := with_services [Demo.service_row 1 "X" "I" "A"] 1
             (with_hubs [Demo.hub_row "S" "I"] Demo.empty_db) in
  let w := with_faults [Some "deadlock detected"] (Demo.world d) in
  removeHubServices Demo.env Main (pb.HDInstanceId req) w
  = (inl (StoreFailure "deadlock detected"), Demo.world d)
  ∧ HubDisconnect Demo.env Demo.server (Demo.call "HUB:") req w
    = ((Some pb.MkNoop, None), Demo.world (with_hubs [] d)).
Proof.
  split; [reflexivity|].
  apply (HubDisconnect_loses_service_error Demo.env Demo.server
           (Demo.call "HUB:") _ _
           (Demo.world
              (with_services [Demo.service_row 1 "X" "I" "A"] 1
                 (with_hubs [Demo.hub_row "S" "I"] Demo.empty_db)))
           _ Demo.hub_token (StoreFailure "deadlock detected"));
    reflexivity.
Defined.

(** ** The streaming session *)

Lemma drain_runs_on (fuel : nat) (pending : list pb.CentralActivity) :
  drain fuel pending = None.
Proof.
  revert pending. induction fuel as [|fuel IH]; intros pending; [reflexivity|].
  destruct pending; simpl; apply IH.
Qed.

(** C4: the teardown never completes.  Once a session is registered, the
    handler does not return, whatever the fuel: when the sender loop exits,
    the deferred teardown takes the session out of the registry and then
    stays in its drain loop, which has no exit. *)
Theorem StreamActivity_never_returns (E : Env) (s : Server) (fuel : nat)
  (ctx : Ctx) (stream : ServerStream) (w : World) (tok : token.ValidToken)
  (msg : pb.HubActivity) (reg : pb.HubRegistration) :
  screen E s pb.HUB ctx = inr tok ->
  first_recv stream = RecvMsg msg ->
  pb.HubReg msg = Some reg ->
  (StreamActivity E s fuel ctx stream w).1 = None
  ∧ (forall ret, send_loop (events stream) = Some ret ->
       connectedHubs (StreamActivity E s fuel ctx stream w).2
         !! SpecString E (pb.RegHub reg) = None).
Proof.
  intros Hgate Hrecv Hreg. unfold StreamActivity.
  rewrite (hub_gate_open _ _ _ _ _ Hgate), Hrecv, Hreg.
  destruct (send_loop (events stream)) as [ret|].
  - rewrite drain_runs_on. split; [reflexivity|].
    intros _ _. simpl. apply lookup_delete_eq.
  - split; [reflexivity|]. intros ret Hret. discriminate Hret.
Qed.

(** A registered session whose context is cancelled, with nothing offered
    on its channel: the handler is still running after a thousand turns. *)
Lemma StreamActivity_never_returns_witness :
  let stream :=
    {| first_recv :=
         RecvMsg {| pb.HubReg := Some {| pb.RegHub := pb.ULIDFromBytes "H" |};
                    pb.Flow := [] |};
       events := [CtxDone];
       offered := [] |} in
  send_loop (events stream) = Some (Some Canceled)
  ∧ (StreamActivity Demo.env Demo.server 1000 (Demo.call "HUB:")
       stream (Demo.world Demo.empty_db)).1 = None.
Proof.
  split; [reflexivity|].
  refine (proj1 (StreamActivity_never_returns Demo.env Demo.server 1000
                   (Demo.call "HUB:") _ (Demo.world Demo.empty_db)
                   Demo.hub_token _ {| pb.RegHub := pb.ULIDFromBytes "H" |}
                   _ _ _));
    reflexivity.
Defined.

(** ** Running the monad *)

Section Run.

Lemma bind_ret {A B} (a : A) (k : A -> M B) w : (mret a ≫= k) w = k a w.
Proof. reflexivity. Qed.

Lemma bind_lift {A B} (r : error + A) (k : A -> M B) w :
  (lift r ≫= k) w = match r with inl e => (inl e, w) | inr a => k a w end.
Proof. destruct r; reflexivity. Qed.

Lemma bind_modify {B} (f : World -> World) (k : unit -> M B) w :
  (modify f ≫= k) w = k tt (f w).
Proof. reflexivity. Qed.

Lemma bind_gets {A B} (f : World -> A) (k : A -> M B) w :
  (gets f ≫= k) w = k (f w) w.
Proof. reflexivity. Qed.

Lemma bind_try {A B} (c : M A) (k : error + A -> M B) w :
  (try c ≫= k) w = k (c w).1 (c w).2.
Proof. unfold mbind, M_bind, try. destruct (c w); reflexivity. Qed.

Lemma with_faults_quiet w : faults w = [] -> with_faults (tail (faults w)) w = w.
Proof. destruct w; simpl; intros ->; reflexivity. Qed.

Lemma exec_quiet {A} h (stmt : statement A) w :
  faults w = [] ->
  exec h stmt w =
  match stmt (tables h w) with
  | inl e => (inl e, w)
  | inr (a, d) => (inr a, set_tables h d w)
  end.
Proof.
  intros Hq. unfold exec. rewrite (with_faults_quiet _ Hq). now rewrite Hq.
Qed.

Lemma materialize_quiet m w :
  faults w = [] ->
  materialize m w = (inr tt, with_materialized (materialized w ++ [m]) w).
Proof.
  intros Hq. unfold materialize. rewrite (with_faults_quiet _ Hq). now rewrite Hq.
Qed.

Lemma Commit_quiet w :
  faults w = [] ->
  Commit w = (inr tt, with_tx None (with_db (tables Tx w) w)).
Proof.
  intros Hq. unfold Commit. rewrite (with_faults_quiet _ Hq). now rewrite Hq.
Qed.

Lemma keeps_db_bind {A B} (c : M A) (k : A -> M B) :
  keeps_db c -> (forall a, keeps_db (k a)) -> keeps_db (c ≫= k).
Proof.
  intros Hc Hk w. unfold mbind, M_bind. specialize (Hc w).
  destruct (c w) as [[e|a] w1]; simpl in *; [exact Hc|].
  now rewrite Hk.
Qed.

Lemma keeps_db_ret {A} (a : A) : keeps_db (mret a).
Proof. intros w. reflexivity. Qed.

Lemma keeps_db_lift {A} (r : error + A) : keeps_db (lift r).
Proof. intros w. reflexivity. Qed.

Lemma keeps_db_gets {A} (f : World -> A) : keeps_db (gets f).
Proof. intros w. reflexivity. Qed.

Lemma keeps_db_try {A} (c : M A) : keeps_db c -> keeps_db (try c).
Proof. intros Hc w. specialize (Hc w). unfold try. now destruct (c w). Qed.

Lemma keeps_db_or_rollback {A} (c : M A) : keeps_db c -> keeps_db (or_rollback c).
Proof.
  intros Hc w. specialize (Hc w). unfold or_rollback.
  now destruct (c w) as [[e|a] w1].
Qed.

Lemma keeps_db_exec_Tx {A} (stmt : statement A) : keeps_db (exec Tx stmt).
Proof.
  intros w. unfold exec. destruct (faults w) as [|[c|] fs]; simpl;
    try reflexivity; destruct (stmt _) as [e|[a d]]; reflexivity.
Qed.

Lemma keeps_db_materialize m : keeps_db (materialize m).
Proof.
  intros w. unfold materialize. now destruct (faults w) as [|[c|] fs].
Qed.

Lemma keeps_db_Begin : keeps_db Begin.
Proof. intros w. reflexivity. Qed.

Context (E : Env) (s : Server).

Lemma keeps_db_reroute sos : keeps_db (reroute E Tx sos).
Proof.
  induction sos as [|so rest IH]; simpl; [apply keeps_db_ret|].
  apply keeps_db_bind; [apply keeps_db_lift|]. intros acc.
  apply keeps_db_bind; [apply keeps_db_materialize|]. intros _. exact IH.
Qed.

Lemma keeps_db_removeHubServices hub : keeps_db (removeHubServices E Tx hub).
Proof.
  unfold removeHubServices.
  apply keeps_db_bind; [apply keeps_db_exec_Tx|]. intros sos.
  apply keeps_db_bind; [apply keeps_db_exec_Tx|]. intros _.
  apply keeps_db_reroute.
Qed.

Lemma keeps_db_fetch_insert req data t : keeps_db (fetch_insert req data t).
Proof. apply keeps_db_or_rollback, keeps_db_exec_Tx. Qed.

Lemma keeps_db_fetch_update hr req data t : keeps_db (fetch_update E hr req data t).
Proof.
  unfold fetch_update. apply keeps_db_bind.
  - destruct (negb _); [|apply keeps_db_ret].
    apply keeps_db_or_rollback, keeps_db_removeHubServices.
  - intros _. apply keeps_db_or_rollback, keeps_db_exec_Tx.
Qed.

Lemma keeps_db_checkFromHub ctx : keeps_db (checkFromHub E s ctx).
Proof. intros w. now rewrite checkFromHub_screen. Qed.

Lemma errors_keep_db_bind {A B} (c : M A) (k : A -> M B) :
  keeps_db c -> (forall a, errors_keep_db (k a)) -> errors_keep_db (c ≫= k).
Proof.
  intros Hc Hk w e. unfold mbind, M_bind. specialize (Hc w).
  destruct (c w) as [[e'|a] w1]; simpl in *; [intros _; exact Hc|].
  intros He. now rewrite (Hk a w1 e He).
Qed.

Lemma errors_keep_db_Commit {A} (a : A) :
  errors_keep_db (Commit ≫= fun _ => mret a).
Proof.
  intros w e. unfold mbind, M_bind, Commit.
  destruct (faults w) as [|[c|] fs]; simpl; try discriminate; reflexivity.
Qed.

Lemma FetchConfig_atomic ctx req : errors_keep_db (FetchConfig E s ctx req).
Proof.
  unfold FetchConfig.
  apply errors_keep_db_bind; [apply keeps_db_checkFromHub|]. intros _.
  apply errors_keep_db_bind; [apply keeps_db_lift|]. intros data.
  apply errors_keep_db_bind; [apply keeps_db_Begin|]. intros _.
  apply errors_keep_db_bind; [apply keeps_db_try, keeps_db_exec_Tx|].
  intros found.
  apply errors_keep_db_bind; [apply keeps_db_gets|]. intros t.
  apply errors_keep_db_bind; [|intros _; apply errors_keep_db_Commit].
  destruct found as [[]|hr];
    first [apply keeps_db_fetch_insert | apply keeps_db_fetch_update].
Qed.

End Run.

(** ** FetchConfig *)

Lemma no_row_no_key (sid : string) (l : list Hub.t) :
  filter (fun h => Hub.StableID h = sid) l = [] ->
  sid ∉ Hub.StableID <$> l.
Proof.
  intros Hnone Hin. apply list_elem_of_fmap in Hin as (h & -> & Hh).
  assert (Hf : h ∈ filter (fun h' => Hub.StableID h' = Hub.StableID h) l)
    by (apply list_elem_of_filter; auto).
  rewrite Hnone in Hf. inversion Hf.
Qed.

Lemma first_row_key (sid : string) (l : list Hub.t) h rest :
  filter (fun h => Hub.StableID h = sid) l = h :: rest ->
  Hub.StableID h = sid ∧ h ∈ l.
Proof.
  intros Hf.
  assert (Hin : h ∈ filter (fun h' => Hub.StableID h' = sid) l)
    by (rewrite Hf; left).
  apply list_elem_of_filter in Hin. exact Hin.
Qed.

Section FetchHelpers.
Context (E : Env) (s : Server).

Lemma reroute_quiet h sos accs w :
  faults w = [] ->
  resolve E sos = inr accs ->
  reroute E h sos w
  = (inr tt, with_materialized (materialized w ++ (RoutingOf <$> accs)) w).
Proof.
  revert accs w. induction sos as [|so rest IH]; intros accs w Hq Hres.
  - simpl in Hres. injection Hres as <-. simpl. rewrite app_nil_r.
    destruct w; reflexivity.
  - simpl in Hres.
    destruct (AccountFromKey E (Service.AccountId so)) as [e|acc] eqn:Hk;
      [discriminate|].
    destruct (resolve E rest) as [e|accs'] eqn:Hr; [discriminate|].
    injection Hres as <-.
    cbn [reroute]. rewrite bind_lift, Hk.
    unfold updateAccountRouting.
    erewrite bind_runs by (apply materialize_quiet; exact Hq).
    rewrite (IH accs') by (exact Hq || reflexivity).
    cbn [materialized with_materialized]. rewrite <- app_assoc. reflexivity.
Qed.

Lemma reroute_quiet_fails h sos e w :
  faults w = [] ->
  resolve E sos = inl e ->
  (reroute E h sos w).1 = inl e.
Proof.
  revert w. induction sos as [|so rest IH]; intros w Hq Hres;
    [discriminate|].
  simpl in Hres. cbn [reroute]. rewrite bind_lift.
  destruct (AccountFromKey E (Service.AccountId so)) as [e'|acc] eqn:Hk.
  - injection Hres as <-. reflexivity.
  - unfold updateAccountRouting.
    erewrite bind_runs by (apply materialize_quiet; exact Hq).
    destruct (resolve E rest) as [e'|accs'] eqn:Hr; [|discriminate].
    injection Hres as <-. apply IH; [exact Hq|reflexivity].
Qed.

End FetchHelpers.

Section FetchCases.
Context (E : Env) (s : Server).

Lemma FetchConfig_start ctx req w tok data :
  screen E s pb.HUB ctx = inr tok ->
  json_Marshal E (pb.Locations req) = inr data ->
  faults w = [] ->
  FetchConfig E s ctx req w =
  ((match hub_First (pb.Bytes (pb.StableId req)) (db w) with
    | inl ErrRecordNotFound => fetch_insert req data (now w)
    | inl _ => fetch_update E Hub.zero req data (now w)
    | inr (hr, _) => fetch_update E hr req data (now w)
    end) ≫= (fun _ => Commit ≫= fun _ => mret (config_response s)))
    (with_tx (Some (db w)) w).
Proof.
  intros Hgate Hdata Hq. unfold FetchConfig.
  rewrite (bind_runs _ _ _ _ _ (hub_gate_open _ _ _ _ _ Hgate)).
  rewrite bind_lift, Hdata. unfold Begin. rewrite bind_modify, bind_try.
  rewrite exec_quiet by exact Hq.
  change (tables Tx (with_tx (Some (db w)) w)) with (db w).
  unfold hub_First.
  destruct (filter _ (hubs (db w))) as [|h rest]; cbn [fst snd];
    rewrite bind_gets; reflexivity.
Qed.

Lemma FetchConfig_inserts ctx req w tok data :
  screen E s pb.HUB ctx = inr tok ->
  json_Marshal E (pb.Locations req) = inr data ->
  faults w = [] ->
  filter (fun h => Hub.StableID h = pb.Bytes (pb.StableId req)) (hubs (db w)) = [] ->
  FetchConfig E s ctx req w
  = (inr (config_response s),
     with_tx None
       (with_db (with_hubs (hubs (db w) ++ [fresh_row req data (now w)]) (db w)) w)).
Proof.
  intros Hgate Hdata Hq Hnone.
  rewrite (FetchConfig_start _ _ _ _ _ Hgate Hdata Hq).
  unfold hub_First. rewrite Hnone.
  unfold fetch_insert, or_rollback, mbind, M_bind.
  rewrite exec_quiet by exact Hq.
  change (tables Tx (with_tx (Some (db w)) w)) with (db w).
  unfold hub_Create. cbn [Hub.StableID].
  rewrite decide_False by (apply no_row_no_key; exact Hnone).
  cbn [set_tables]. rewrite Commit_quiet by exact Hq.
  reflexivity.
Qed.

Lemma removeHubServices_quiet h hub accs w :
  faults w = [] ->
  resolve E (filter (fun so => Service.HubId so = pb.Bytes hub)
                    (services (tables h w))) = inr accs ->
  removeHubServices E h hub w
  = (inr tt,
     with_materialized (materialized w ++ (RoutingOf <$> accs))
       (set_tables h
          (with_services
             (filter (fun so => Service.HubId so ≠ pb.Bytes hub)
                     (services (tables h w)))
             (serial (tables h w)) (tables h w)) w)).
Proof.
  intros Hq Hres. unfold removeHubServices.
  erewrite bind_runs by (rewrite exec_quiet by exact Hq; reflexivity).
  erewrite bind_runs
    by (rewrite exec_quiet by (destruct h; exact Hq); reflexivity).
  replace (tables h (set_tables h (tables h w) w)) with (tables h w)
    by (destruct h; reflexivity).
  rewrite (reroute_quiet E h _ accs) by (first [destruct h; exact Hq | exact Hres]).
  destruct h; reflexivity.
Qed.

Lemma removeHubServices_quiet_fails h hub e w :
  faults w = [] ->
  resolve E (filter (fun so => Service.HubId so = pb.Bytes hub)
                    (services (tables h w))) = inl e ->
  (removeHubServices E h hub w).1 = inl e.
Proof.
  intros Hq Hres. unfold removeHubServices.
  erewrite bind_runs by (rewrite exec_quiet by exact Hq; reflexivity).
  erewrite bind_runs
    by (rewrite exec_quiet by (destruct h; exact Hq); reflexivity).
  apply reroute_quiet_fails; [destruct h; exact Hq | exact Hres].
Qed.

Lemma FetchConfig_refreshes ctx req w tok data h rest :
  screen E s pb.HUB ctx = inr tok ->
  json_Marshal E (pb.Locations req) = inr data ->
  faults w = [] ->
  filter (fun h => Hub.StableID h = pb.Bytes (pb.StableId req)) (hubs (db w))
  = h :: rest ->
  Hub.InstanceID h = pb.Bytes (pb.InstanceId req) ->
  FetchConfig E s ctx req w
  = (inr (config_response s),
     with_tx None
       (with_db (with_hubs (touch_rows (pb.Bytes (pb.StableId req)) req data
                              (now w) (hubs (db w))) (db w)) w)).
Proof.
  intros Hgate Hdata Hq Hrow Hsame.
  rewrite (FetchConfig_start _ _ _ _ _ Hgate Hdata Hq).
  unfold hub_First. rewrite Hrow.
  destruct (first_row_key _ _ _ _ Hrow) as [Hkey _].
  unfold fetch_update, pb.Equal. cbn [pb.ULIDFromBytes pb.Bytes].
  rewrite bool_decide_eq_true_2 by (symmetry; exact Hsame).
  cbn [negb]. unfold or_rollback, mbind, M_bind, mret, M_ret.
  rewrite exec_quiet by exact Hq.
  change (tables Tx (with_tx (Some (db w)) w)) with (db w).
  unfold hub_Updates. cbn [set_tables]. rewrite Commit_quiet by exact Hq.
  rewrite Hkey. reflexivity.
Qed.

Lemma FetchConfig_rotates ctx req w tok data h rest accs :
  screen E s pb.HUB ctx = inr tok ->
  json_Marshal E (pb.Locations req) = inr data ->
  faults w = [] ->
  filter (fun h => Hub.StableID h = pb.Bytes (pb.StableId req)) (hubs (db w))
  = h :: rest ->
  Hub.InstanceID h ≠ pb.Bytes (pb.InstanceId req) ->
  resolve E (filter (fun so => Service.HubId so = Hub.InstanceID h)
                    (services (db w))) = inr accs ->
  FetchConfig E s ctx req w
  = (inr (config_response s),
     with_materialized (materialized w ++ (RoutingOf <$> accs))
       (with_tx None
          (with_db
             (with_hubs (touch_rows (pb.Bytes (pb.StableId req)) req data
                           (now w) (hubs (db w)))
                (with_services
                   (filter (fun so => Service.HubId so ≠ Hub.InstanceID h)
                           (services (db w)))
                   (serial (db w)) (db w))) w))).
Proof.
  intros Hgate Hdata Hq Hrow Hdiff Hres.
  rewrite (FetchConfig_start _ _ _ _ _ Hgate Hdata Hq).
  unfold hub_First. rewrite Hrow.
  destruct (first_row_key _ _ _ _ Hrow) as [Hkey _].
  unfold fetch_update, pb.Equal. cbn [pb.ULIDFromBytes pb.Bytes].
  rewrite bool_decide_eq_false_2 by (intros Heq; apply Hdiff; now symmetry).
  cbn [negb]. unfold or_rollback, mbind, M_bind.
  rewrite (removeHubServices_quiet Tx (pb.ULIDFromBytes (Hub.InstanceID h)) accs)
    by (first [exact Hq | exact Hres]).
  rewrite exec_quiet by exact Hq.
  unfold hub_Updates. cbn [set_tables]. rewrite Commit_quiet by exact Hq.
  rewrite Hkey. reflexivity.
Qed.

Lemma FetchConfig_rotation_fails ctx req w tok data h rest e :
  screen E s pb.HUB ctx = inr tok ->
  json_Marshal E (pb.Locations req) = inr data ->
  faults w = [] ->
  filter (fun h => Hub.StableID h = pb.Bytes (pb.StableId req)) (hubs (db w))
  = h :: rest ->
  Hub.InstanceID h ≠ pb.Bytes (pb.InstanceId req) ->
  resolve E (filter (fun so => Service.HubId so = Hub.InstanceID h)
                    (services (db w))) = inl e ->
  (FetchConfig E s ctx req w).1 = inl e.
Proof.
  intros Hgate Hdata Hq Hrow Hdiff Hres.
  rewrite (FetchConfig_start _ _ _ _ _ Hgate Hdata Hq).
  unfold hub_First. rewrite Hrow.
  unfold fetch_update, pb.Equal. cbn [pb.ULIDFromBytes pb.Bytes].
  rewrite bool_decide_eq_false_2 by (intros Heq; apply Hdiff; now symmetry).
  cbn [negb]. unfold or_rollback, mbind, M_bind.
  pose proof (removeHubServices_quiet_fails Tx
                (pb.ULIDFromBytes (Hub.InstanceID h)) e
                (with_tx (Some (db w)) w) Hq Hres) as Hfail.
  destruct (removeHubServices E Tx _ _) as [[e'|a] w1]; simpl in Hfail;
    [|discriminate].
  injection Hfail as ->. reflexivity.
Qed.

End FetchCases.

Lemma touch_rows_filter key req data t sid rows :
  filter (fun h => Hub.StableID h = sid) (touch_rows key req data t rows)
  = touch_rows key req data t (filter (fun h => Hub.StableID h = sid) rows).
Proof.
  unfold touch_rows. induction rows as [|h rows IH]; [reflexivity|].
  assert (Hk : forall h', Hub.StableID
                 (if decide (key = "" ∨ Hub.StableID h' = key)
                  then hub_set data (pb.Bytes (pb.InstanceId req)) t h'
                  else h') = Hub.StableID h')
    by (intros h'; destruct (decide (key = "" ∨ Hub.StableID h' = key));
        reflexivity).
  rewrite fmap_cons, !filter_cons, Hk.
  destruct (decide (Hub.StableID h = sid)); rewrite IH; reflexivity.
Qed.

Section Rotation.
Context (E : Env) (s : Server).

Lemma FetchConfig_stores_instance ctx req w tok data resp w1 :
  screen E s pb.HUB ctx = inr tok ->
  json_Marshal E (pb.Locations req) = inr data ->
  faults w = [] ->
  FetchConfig E s ctx req w = (inr resp, w1) ->
  faults w1 = []
  ∧ exists h rest,
      filter (fun h => Hub.StableID h = pb.Bytes (pb.StableId req))
             (hubs (db w1)) = h :: rest
      ∧ Hub.InstanceID h = pb.Bytes (pb.InstanceId req).
Proof.
  intros Hgate Hdata Hq Hrun.
  destruct (filter (fun h => Hub.StableID h = pb.Bytes (pb.StableId req))
                   (hubs (db w))) as [|h rest] eqn:Hrow.
  - rewrite (FetchConfig_inserts E s _ _ _ _ _ Hgate Hdata Hq Hrow) in Hrun.
    injection Hrun as _ <-. split; [exact Hq|].
    exists (fresh_row req data (now w)), [].
    cbn [db with_tx with_db hubs with_hubs].
    rewrite filter_app, Hrow, filter_cons, decide_True by reflexivity.
    split; reflexivity.
  - assert (Htouch :
      exists h' rest',
        filter (fun h0 => Hub.StableID h0 = pb.Bytes (pb.StableId req))
          (touch_rows (pb.Bytes (pb.StableId req)) req data (now w)
             (hubs (db w))) = h' :: rest'
        ∧ Hub.InstanceID h' = pb.Bytes (pb.InstanceId req)).
    { rewrite touch_rows_filter, Hrow. unfold touch_rows.
      rewrite fmap_cons. eexists _, _. split; [reflexivity|].
      destruct (first_row_key _ _ _ _ Hrow) as [Hkey _].
      rewrite decide_True by (right; exact Hkey). reflexivity. }
    destruct (decide (Hub.InstanceID h = pb.Bytes (pb.InstanceId req)))
      as [Hsame|Hdiff].
    + rewrite (FetchConfig_refreshes E s _ _ _ _ _ _ _ Hgate Hdata Hq Hrow Hsame)
        in Hrun.
      injection Hrun as _ <-. split; [exact Hq|]. exact Htouch.
    + destruct (resolve E (filter (fun so => Service.HubId so = Hub.InstanceID h)
                                  (services (db w)))) as [e|accs] eqn:Hres.
      * pose proof (FetchConfig_rotation_fails E s _ _ _ _ _ _ _ _
                      Hgate Hdata Hq Hrow Hdiff Hres) as Hfail.
        rewrite Hrun in Hfail. discriminate Hfail.
      * rewrite (FetchConfig_rotates E s _ _ _ _ _ _ _ _
                   Hgate Hdata Hq Hrow Hdiff Hres) in Hrun.
        injection Hrun as _ <-. split; [exact Hq|]. exact Htouch.
Qed.

Lemma FetchConfig_drops_previous ctx req w tok data resp w1 h rest :
  screen E s pb.HUB ctx = inr tok ->
  json_Marshal E (pb.Locations req) = inr data ->
  faults w = [] ->
  filter (fun h => Hub.StableID h = pb.Bytes (pb.StableId req)) (hubs (db w))
  = h :: rest ->
  Hub.InstanceID h ≠ pb.Bytes (pb.InstanceId req) ->
  FetchConfig E s ctx req w = (inr resp, w1) ->
  db w1
  = with_hubs (touch_rows (pb.Bytes (pb.StableId req)) req data (now w)
                 (hubs (db w)))
      (with_services
         (filter (fun so => Service.HubId so ≠ Hub.InstanceID h)
                 (services (db w)))
         (serial (db w)) (db w)).
Proof.
  intros Hgate Hdata Hq Hrow Hdiff Hrun.
  destruct (resolve E (filter (fun so => Service.HubId so = Hub.InstanceID h)
                              (services (db w)))) as [e|accs] eqn:Hres.
  - pose proof (FetchConfig_rotation_fails E s _ _ _ _ _ _ _ _
                  Hgate Hdata Hq Hrow Hdiff Hres) as Hfail.
    rewrite Hrun in Hfail. discriminate Hfail.
  - rewrite (FetchConfig_rotates E s _ _ _ _ _ _ _ _
               Hgate Hdata Hq Hrow Hdiff Hres) in Hrun.
    injection Hrun as _ <-. reflexivity.
Qed.

Lemma rotation_clears_services ctx req w tok data resp w1
  ctx' req' tok' data' resp' w2 :
  screen E s pb.HUB ctx = inr tok ->
  json_Marshal E (pb.Locations req) = inr data ->
  faults w = [] ->
  FetchConfig E s ctx req w = (inr resp, w1) ->
  screen E s pb.HUB ctx' = inr tok' ->
  json_Marshal E (pb.Locations req') = inr data' ->
  pb.Bytes (pb.StableId req') = pb.Bytes (pb.StableId req) ->
  pb.Bytes (pb.InstanceId req') ≠ pb.Bytes (pb.InstanceId req) ->
  FetchConfig E s ctx' req' w1 = (inr resp', w2) ->
  forall so, so ∈ services (db w2) ->
             Service.HubId so ≠ pb.Bytes (pb.InstanceId req).
Proof.
  intros Hgate Hdata Hq Hrun Hgate' Hdata' Hstable Hinst Hrun' so Hso.
  destruct (FetchConfig_stores_instance _ _ _ _ _ _ _ Hgate Hdata Hq Hrun)
    as (Hq1 & h & rest & Hrow & Hh).
  rewrite <- Hstable in Hrow.
  assert (Hdiff : Hub.InstanceID h ≠ pb.Bytes (pb.InstanceId req'))
    by (rewrite Hh; intros Heq; apply Hinst; now symmetry).
  rewrite (FetchConfig_drops_previous _ _ _ _ _ _ _ _ _
             Hgate' Hdata' Hq1 Hrow Hdiff Hrun') in Hso.
  cbn [services with_hubs with_services] in Hso.
  apply list_elem_of_filter in Hso as [Hne _]. now rewrite <- Hh.
Qed.

End Rotation.

(** C3: FetchConfig implements the contract of config_fetch.  With a valid
    HUB token and a store that reports no fault: a stable id without a row
    gets one; a row whose stored instance differs has every service of the
    stored instance deleted and is updated, or, when the call fails,
    nothing is committed (one transaction); a row with the same instance
    has its connection info and last check-in refreshed.  Hence, after two
    successful calls for one stable id with different instances, no service
    of the first instance remains. *)
Theorem FetchConfig_config_fetch (E : Env) (s : Server) (ctx : Ctx)
  (req : pb.ConfigRequest) (w : World) (tok : token.ValidToken)
  (data : ByteSlice) :
  screen E s pb.HUB ctx = inr tok ->
  json_Marshal E (pb.Locations req) = inr data ->
  faults w = [] ->
  let stable := pb.Bytes (pb.StableId req) in
  let instance := pb.Bytes (pb.InstanceId req) in
  let out := FetchConfig E s ctx req w in
  (forall e, out.1 = inl e -> db out.2 = db w)
  ∧ match filter (fun h => Hub.StableID h = stable) (hubs (db w)) with
    | [] =>
        out.1 = inr (config_response s)
        ∧ db out.2
          = with_hubs (hubs (db w) ++ [fresh_row req data (now w)]) (db w)
    | h :: _ =>
        if decide (Hub.InstanceID h = instance)
        then
          out.1 = inr (config_response s)
          ∧ db out.2
            = with_hubs (touch_rows stable req data (now w) (hubs (db w)))
                (db w)
          ∧ hub_set data instance (now w) h
            = {| Hub.StableID := Hub.StableID h;
                 Hub.InstanceID := Hub.InstanceID h;
                 Hub.ConnectionInfo := data;
                 Hub.LastCheckin := now w;
                 Hub.CreatedAt := Hub.CreatedAt h |}
        else
          (forall resp, out.1 = inr resp ->
             db out.2
             = with_hubs (touch_rows stable req data (now w) (hubs (db w)))
                 (with_services
                    (filter (fun so => Service.HubId so ≠ Hub.InstanceID h)
                            (services (db w)))
                    (serial (db w)) (db w)))
          ∧ (forall accs,
               resolve E (filter (fun so => Service.HubId so = Hub.InstanceID h)
                                 (services (db w))) = inr accs ->
               out.1 = inr (config_response s))
    end
  ∧ (forall ctx' req' tok' data' resp resp' w2,
       out.1 = inr resp ->
       screen E s pb.HUB ctx' = inr tok' ->
       json_Marshal E (pb.Locations req') = inr data' ->
       pb.Bytes (pb.StableId req') = stable ->
       pb.Bytes (pb.InstanceId req') ≠ instance ->
       FetchConfig E s ctx' req' out.2 = (inr resp', w2) ->
       forall so, so ∈ services (db w2) -> Service.HubId so ≠ instance).
Proof.
  intros Hgate Hdata Hq stable instance out.
  split; [intros e; apply FetchConfig_atomic|]. split.
  - destruct (filter (fun h => Hub.StableID h = stable) (hubs (db w)))
      as [|h rest] eqn:Hrow.
    + subst out.
      rewrite (FetchConfig_inserts E s _ _ _ _ _ Hgate Hdata Hq Hrow).
      split; reflexivity.
    + destruct (decide (Hub.InstanceID h = instance)) as [Hsame|Hdiff].
      * subst out.
        rewrite (FetchConfig_refreshes E s _ _ _ _ _ _ _
                   Hgate Hdata Hq Hrow Hsame).
        repeat split. unfold hub_set. now rewrite Hsame.
      * split.
        -- intros resp Hok.
           apply (FetchConfig_drops_previous E s ctx req w tok data resp
                    out.2 h rest Hgate Hdata Hq Hrow Hdiff).
           subst out. destruct (FetchConfig E s ctx req w) as [r w1].
           simpl in Hok |- *. now rewrite Hok.
        -- intros accs Hres. subst out.
           now rewrite (FetchConfig_rotates E s _ _ _ _ _ _ _ _
                          Hgate Hdata Hq Hrow Hdiff Hres).
  - intros ctx' req' tok' data' resp resp' w2 Hok Hgate' Hdata' Hst Hin Hrun'.
    apply (rotation_clears_services E s ctx req w tok data resp out.2
             ctx' req' tok' data' resp' w2); try assumption.
    subst out. destruct (FetchConfig E s ctx req w) as [r w1].
    simpl in Hok |- *. now rewrite Hok.
Qed.

(** Hub S restarts: its row holds instance I1 and service X belongs to I1;
    the call for instance I2 succeeds and leaves no service. *)
Lemma FetchConfig_config_fetch_witness :
  let req := {| pb.StableId := pb.ULIDFromBytes "S";
                pb.InstanceId := pb.ULIDFromBytes "I2";
                pb.Locations := [] |} in
  let w := Demo.world
             (with_services [Demo.service_row 1 "X" "I1" "A"] 1
                (with_hubs [Demo.hub_row "S" "I1"] Demo.empty_db)) in
  screen Demo.env Demo.server pb.HUB (Demo.call "HUB:")
  = inr Demo.hub_token
  ∧ faults w = []
  ∧ services
      (db (FetchConfig Demo.env Demo.server (Demo.call "HUB:") req w).2)
    = [].
Proof.
  intros req w. split; [reflexivity|]. split; [reflexivity|].
  destruct (FetchConfig_config_fetch Demo.env Demo.server
              (Demo.call "HUB:") req w Demo.hub_token "[]"
              eq_refl eq_refl eq_refl) as (_ & Hcase & _).
  destruct Hcase as [Hdb _].
  now rewrite (Hdb (config_response Demo.server) eq_refl).
Defined.

(** ** Register *)

Lemma like_any s : like "%" s = true.
Proof.
  induction s as [|a s IH]; [reflexivity|].
  simpl in *. exact IH.
Qed.

Lemma like_literal_prefix n s :
  literal n = true -> like (n +:+ "%") s = String.prefix n s.
Proof.
  revert s. induction n as [|c n IH]; intros s Hlit.
  - change ("" +:+ "%") with "%". rewrite like_any. now destruct s.
  - simpl in Hlit.
    apply andb_prop in Hlit as [Hlit Hn].
    apply andb_prop in Hlit as [Hlit H3].
    apply andb_prop in Hlit as [H1 H2].
    apply negb_true_iff in H1, H2, H3.
    change (String c n +:+ "%") with (String c (n +:+ "%")).
    cbn [like]. rewrite H1, H2, H3.
    destruct s as [|a s]; [reflexivity|].
    cbn [String.prefix]. rewrite IH by exact Hn.
    destruct (Ascii.ascii_dec c a) as [->|Hne].
    + now rewrite Ascii.eqb_refl.
    + apply Ascii.eqb_neq in Hne. now rewrite Hne.
Qed.

Lemma with_db_same w : with_db (db w) w = w.
Proof. destruct w; reflexivity. Qed.

Section Registration.
Context (E : Env) (s : Server).

Lemma Register_start ctx reg w :
  presents (registerToken s) ctx ->
  literal (pb.RegNamespace reg) = true ->
  faults w = [] ->
  Register E s ctx reg w =
  match filter (fun r => String.prefix (pb.RegNamespace reg)
                           (ManagementClient.Namespace r) = true)
               (management_clients (db w)) with
  | [] =>
      let rec := {| ManagementClient.ID := pb.Bytes (NewULID E (drawn w));
                    ManagementClient.Namespace := pb.RegNamespace reg |} in
      (exec Main (mgmt_Create rec) ≫= fun _ =>
         lift (EncodeED25519WithVault E (manage_creator (pb.RegNamespace reg))))
        (with_drawn (S (drawn w)) w)
  | _ :: _ => (inl (Errorf "namespace already in use"), w)
  end.
Proof.
  intros (md & rest & Hmd & Hauth) Hlit Hq. unfold Register.
  rewrite Hmd, Hauth. rewrite decide_False by (intros Hne; now apply Hne).
  rewrite bind_try, exec_quiet by exact Hq. unfold mgmt_FirstLike.
  cbn [tables].
  rewrite (list_filter_iff _
             (fun r => String.prefix (pb.RegNamespace reg)
                         (ManagementClient.Namespace r) = true))
    by (intros r; now rewrite like_literal_prefix).
  destruct (filter _ (management_clients (db w))) as [|r0 rs];
    cbn [fst snd set_tables]; [reflexivity|].
  now rewrite with_db_same.
Qed.

Lemma Register_creates ctx reg w :
  presents (registerToken s) ctx ->
  literal (pb.RegNamespace reg) = true ->
  faults w = [] ->
  filter (fun r => String.prefix (pb.RegNamespace reg)
                     (ManagementClient.Namespace r) = true)
         (management_clients (db w)) = [] ->
  pb.Bytes (NewULID E (drawn w))
    ∉ ManagementClient.ID <$> management_clients (db w) ->
  Register E s ctx reg w
  = (EncodeED25519WithVault E (manage_creator (pb.RegNamespace reg)),
     with_db
       (with_management_clients
          (management_clients (db w)
           ++ [ {| ManagementClient.ID := pb.Bytes (NewULID E (drawn w));
                   ManagementClient.Namespace := pb.RegNamespace reg |} ])
          (db w))
       (with_drawn (S (drawn w)) w)).
Proof.
  intros Hcall Hlit Hq Hfree Hfresh.
  rewrite (Register_start _ _ _ Hcall Hlit Hq), Hfree.
  cbv zeta. erewrite bind_runs.
  2:{ rewrite exec_quiet by exact Hq. unfold mgmt_Create.
      cbn [tables db with_drawn ManagementClient.ID].
      rewrite decide_False by exact Hfresh. reflexivity. }
  reflexivity.
Qed.

End Registration.

(** C5, as amended.  With the register token, a namespace [N] free of the
    wildcards of LIKE and a store that reports no fault, Register fails with
    "namespace already in use" whenever [N] is a prefix of the namespace of
    some existing management client, and otherwise creates a record with
    namespace [N] under a fresh id and hands the signer a MANAGE creator
    with ACCESS = [N]. *)
Theorem Register_guards_extensions (E : Env) (s : Server) (ctx : Ctx)
  (reg : pb.ControlRegister) (w : World) :
  presents (registerToken s) ctx ->
  literal (pb.RegNamespace reg) = true ->
  faults w = [] ->
  let N := pb.RegNamespace reg in
  let extending :=
    filter (fun r => String.prefix N (ManagementClient.Namespace r) = true)
           (management_clients (db w)) in
  let rec := {| ManagementClient.ID := pb.Bytes (NewULID E (drawn w));
                ManagementClient.Namespace := N |} in
  let out := Register E s ctx reg w in
  (extending ≠ [] -> out = (inl (Errorf "namespace already in use"), w))
  ∧ (extending = [] ->
     ManagementClient.ID rec
       ∉ ManagementClient.ID <$> management_clients (db w) ->
     out.1 = EncodeED25519WithVault E (manage_creator N)
     ∧ management_clients (db out.2) = management_clients (db w) ++ [rec]).
Proof.
  intros Hcall Hlit Hq N extending rec out. split.
  - intros Hsome. subst out.
    rewrite (Register_start E s _ _ _ Hcall Hlit Hq).
    fold N. fold extending. now destruct extending.
  - intros Hnone Hfresh. subst out.
    rewrite (Register_creates E s _ _ _ Hcall Hlit Hq Hnone Hfresh).
    split; reflexivity.
Qed.

(** "org/team" is registered; registering "org" is refused. *)
Lemma Register_guards_extensions_witness :
  let w := Demo.world
             (with_management_clients
                [ {| ManagementClient.ID := "m1";
                     ManagementClient.Namespace := "org/team" |} ]
                Demo.empty_db) in
  presents (registerToken Demo.server) (Demo.call "register-secret")
  ∧ Register Demo.env Demo.server (Demo.call "register-secret")
      {| pb.RegNamespace := "org" |} w
    = (inl (Errorf "namespace already in use"), w).
Proof.
  intros w.
  assert (Hcall : presents (registerToken Demo.server)
                    (Demo.call "register-secret"))
    by (eexists _, []; split; reflexivity).
  split; [exact Hcall|].
  apply (proj1 (Register_guards_extensions Demo.env Demo.server
                  (Demo.call "register-secret")
                  {| pb.RegNamespace := "org" |} w Hcall eq_refl eq_refl)).
  discriminate.
Defined.

(** C5 fails as stated: "org" is registered and is a prefix of "org/team",
    yet registering "org/team" succeeds and adds a second record. *)
Lemma Register_accepts_extension_of_existing :
  let w := Demo.world
             (with_management_clients
                [ {| ManagementClient.ID := "m1";
                     ManagementClient.Namespace := "org" |} ]
                Demo.empty_db) in
  let out := Register Demo.env Demo.server (Demo.call "register-secret")
               {| pb.RegNamespace := "org/team" |} w in
  String.prefix "org" "org/team" = true
  ∧ out.1 = inr "MANAGE:"
  ∧ ManagementClient.Namespace <$> management_clients (db out.2)
    = ["org"; "org/team"].
Proof. repeat split. Qed.

(** ** Label links, services and delegate tokens *)

Lemma account_Upsert_rows t ao d :
  account_Upsert t ao d
  = inr (tt, with_accounts (upsert_rows t ao (accounts d)) d).
Proof.
  unfold account_Upsert, upsert_rows.
  destruct (decide (Account.ID ao ∈ Account.ID <$> accounts d)); reflexivity.
Qed.

Lemma upsert_rows_has t ao rows :
  exists a, a ∈ upsert_rows t ao rows
            ∧ Account.ID a = Account.ID ao
            ∧ Account.Namespace a = Account.Namespace ao.
Proof.
  unfold upsert_rows.
  destruct (decide (Account.ID ao ∈ Account.ID <$> rows)) as [Hin|Hout].
  - apply list_elem_of_fmap in Hin as (a0 & Hid & Ha0).
    eexists. split; [apply list_elem_of_fmap; exists a0; split;
                      [reflexivity|exact Ha0]|].
    rewrite decide_True by (symmetry; exact Hid).
    split; [symmetry; exact Hid|reflexivity].
  - eexists. split; [apply elem_of_app; right; left|].
    split; reflexivity.
Qed.

Lemma broadcast_frame ctx act w :
  faults (broadcastActivity ctx act w).2 = faults w
  ∧ db (broadcastActivity ctx act w).2 = db w
  ∧ materialized (broadcastActivity ctx act w).2 = materialized w.
Proof.
  unfold broadcastActivity. destruct (cancel_after ctx); repeat split.
Qed.

Lemma broadcast_reaches_all ctx act w :
  cancel_after ctx = None ->
  broadcastActivity ctx act w
  = (inr tt, with_connectedHubs (deliver act <$> connectedHubs w) w).
Proof. intros Hc. unfold broadcastActivity. now rewrite Hc. Qed.

Section Links.
Context (E : Env) (s : Server).

Lemma AddLabelLink_quiet ctx req w caller :
  screen E s pb.MANAGE ctx = inr caller ->
  token.AllowAccount caller (pb.Namespace (link_account caller req)) = true ->
  faults w = [] ->
  let account := link_account caller req in
  let d1 := with_accounts
              (upsert_rows (now w) (account_row E account) (accounts (db w)))
              (db w) in
  let d2 := with_label_links
              (label_links (db w)
               ++ [link_row E account req (serial (db w) + 1) (now w)])
              (serial (db w) + 1) d1 in
  AddLabelLink E s ctx req w
  = (inr pb.MkNoop,
     with_materialized (materialized w ++ [AllLabelLinks])
       (broadcastActivity ctx (link_delta account req) (with_db d2 w)).2).
Proof.
  intros Hgate Hallow Hq account d1 d2. unfold AddLabelLink.
  rewrite (bind_runs _ _ _ _ _ (mgmt_gate_open _ _ _ _ _ Hgate)).
  fold (link_account caller req). fold account. fold account in Hallow.
  rewrite Hallow. cbn [negb]. rewrite bind_gets.
  erewrite bind_runs
    by (rewrite exec_quiet by exact Hq; cbn [tables];
        rewrite account_Upsert_rows; reflexivity).
  erewrite bind_runs
    by (rewrite exec_quiet by exact Hq; reflexivity).
  rewrite bind_try. unfold updateLabelLinks, broadcastActivity.
  destruct (cancel_after ctx) as [n|]; cbn [fst snd];
    (erewrite bind_runs by (apply materialize_quiet; exact Hq));
    reflexivity.
Qed.

Lemma RemoveLabelLink_quiet ctx req w caller :
  screen E s pb.MANAGE ctx = inr caller ->
  token.AllowAccount caller (pb.Namespace (pb.RLAccount req)) = true ->
  faults w = [] ->
  RemoveLabelLink E s ctx req w
  = (inr pb.MkNoop,
     with_materialized (materialized w ++ [AllLabelLinks])
       (with_db
          (with_label_links
             (filter (fun l => ¬ (LabelLink.AccountID l = Key E (pb.RLAccount req)
                                  ∧ LabelLink.Labels l
                                    = FlattenLabels E (pb.RLLabels req)))
                     (label_links (db w)))
             (serial (db w)) (db w)) w)).
Proof.
  intros Hgate Hallow Hq. unfold RemoveLabelLink.
  rewrite (bind_runs _ _ _ _ _ (mgmt_gate_open _ _ _ _ _ Hgate)).
  rewrite Hallow. cbn [negb].
  erewrite bind_runs
    by (rewrite exec_quiet by exact Hq; reflexivity).
  unfold updateLabelLinks.
  erewrite bind_runs by (apply materialize_quiet; exact Hq).
  reflexivity.
Qed.

End Links.

Lemma prefix_refl n : String.prefix n n = true.
Proof.
  induction n as [|c n IH]; [reflexivity|]. simpl.
  destruct (Ascii.ascii_dec c c); [exact IH|congruence].
Qed.



Section Tokens.
Context (E : Env) (s : Server).



Lemma AddService_accounts ctx service w :
  accounts (db (AddService E s ctx service w).2) = accounts (db w).
Proof.
  unfold AddService. unfold mbind at 1. unfold M_bind at 1.
  rewrite checkFromHub_screen.
  destruct (screen E s pb.HUB ctx) as [rej|tok]; [reflexivity|].
  rewrite bind_gets.
  unfold mbind, M_bind, exec, try, broadcastActivity, updateAccountRouting,
    materialize, service_Create, mret, M_ret.
  destruct (faults w) as [|[c|] [|[c'|] fs]]; cbn;
    destruct (cancel_after ctx); reflexivity.
Qed.

Lemma AddService_quiet ctx service w tok :
  screen E s pb.HUB ctx = inr tok ->
  faults w = [] ->
  (AddService E s ctx service w).1 = inr tt
  ∧ services (db (AddService E s ctx service w).2)
    = services (db w)
      ++ [new_service E service (serial (db w) + 1) (now w)].
Proof.
  intros Hgate Hq. unfold AddService.
  rewrite (bind_runs _ _ _ _ _ (hub_gate_open _ _ _ _ _ Hgate)).
  rewrite bind_gets.
  erewrite bind_runs by (rewrite exec_quiet by exact Hq; reflexivity).
  rewrite bind_try. unfold updateAccountRouting, broadcastActivity.
  destruct (cancel_after ctx) as [n|]; cbn [fst snd];
    (erewrite bind_runs by (apply materialize_quiet; exact Hq));
    split; reflexivity.
Qed.

Lemma RemoveService_quiet ctx service w tok :
  screen E s pb.HUB ctx = inr tok ->
  faults w = [] ->
  RemoveService E s ctx service w
  = (inr tt,
     with_materialized (materialized w ++ [RoutingOf (pb.SRAccount service)])
       (with_db
          (with_services
             (filter (fun so => Service.ServiceId so ≠ pb.Bytes (pb.SRId service))
                     (services (db w)))
             (serial (db w)) (db w)) w)).
Proof.
  intros Hgate Hq. unfold RemoveService.
  rewrite (bind_runs _ _ _ _ _ (hub_gate_open _ _ _ _ _ Hgate)).
  erewrite bind_runs by (rewrite exec_quiet by exact Hq; reflexivity).
  unfold updateAccountRouting.
  erewrite bind_runs by (apply materialize_quiet; exact Hq).
  reflexivity.
Qed.


End Tokens.

Lemma AddLabelLink_stores (E : Env) (s : Server) (ctx : Ctx)
  (req : pb.AddLabelLinkRequest) (w : World) (caller : token.ValidToken) :
  screen E s pb.MANAGE ctx = inr caller ->
  faults w = [] ->
  let account := link_account caller req in
  let out := AddLabelLink E s ctx req w in
  token.AllowAccount caller (pb.Namespace account) = true ->
  out.1 = inr pb.MkNoop
  ∧ (exists a, a ∈ accounts (db out.2)
               ∧ Account.ID a = Key E account
               ∧ Account.Namespace a = pb.Namespace account)
  ∧ label_links (db out.2)
    = label_links (db w)
      ++ [link_row E account req (serial (db w) + 1) (now w)]
  ∧ (cancel_after ctx = None ->
     connectedHubs out.2
     = deliver (link_delta account req) <$> connectedHubs w).
Proof.
  intros Hgate Hq account out Hallow. subst out.
  rewrite (AddLabelLink_quiet E s ctx req w caller Hgate Hallow Hq).
  fold account. cbn [fst snd].
  destruct (broadcast_frame ctx (link_delta account req)
              (with_db
                 (with_label_links
                    (label_links (db w)
                     ++ [link_row E account req (serial (db w) + 1) (now w)])
                    (serial (db w) + 1)
                    (with_accounts
                       (upsert_rows (now w) (account_row E account)
                          (accounts (db w))) (db w))) w))
    as (_ & Hdb & _).
  cbn [db with_materialized]. rewrite Hdb. cbn [db with_db].
  split; [reflexivity|]. split.
  - apply (upsert_rows_has (now w) (account_row E account)).
  - split; [reflexivity|]. intros Hc.
    now rewrite broadcast_reaches_all by exact Hc.
Qed.

(** C7, as amended.  With a MANAGE token that allows the account's
    namespace and a store that reports no fault: AddLabelLink upserts the
    account row, inserts the link keyed by the flattened labels and, when
    the caller's context is not cancelled, hands the delta to every
    connected session; RemoveLabelLink deletes the links of the account with
    these flattened labels, and neither upserts the account nor
    broadcasts. *)
Theorem label_link_calls (E : Env) (s : Server) (ctx : Ctx) (w : World)
  (caller : token.ValidToken) :
  screen E s pb.MANAGE ctx = inr caller ->
  faults w = [] ->
  (forall req,
     let account := link_account caller req in
     let out := AddLabelLink E s ctx req w in
     token.AllowAccount caller (pb.Namespace account) = true ->
     out.1 = inr pb.MkNoop
     ∧ (exists a, a ∈ accounts (db out.2)
                  ∧ Account.ID a = Key E account
                  ∧ Account.Namespace a = pb.Namespace account)
     ∧ label_links (db out.2)
       = label_links (db w)
         ++ [link_row E account req (serial (db w) + 1) (now w)]
     ∧ (cancel_after ctx = None ->
        connectedHubs out.2
        = deliver (link_delta account req) <$> connectedHubs w))
  ∧ (forall req,
       let out := RemoveLabelLink E s ctx req w in
       token.AllowAccount caller (pb.Namespace (pb.RLAccount req)) = true ->
       out.1 = inr pb.MkNoop
       ∧ label_links (db out.2)
         = filter (fun l => ¬ (LabelLink.AccountID l = Key E (pb.RLAccount req)
                               ∧ LabelLink.Labels l
                                 = FlattenLabels E (pb.RLLabels req)))
                  (label_links (db w))
       ∧ accounts (db out.2) = accounts (db w)
       ∧ connectedHubs out.2 = connectedHubs w).
Proof.
  intros Hgate Hq. split.
  - intros req account out Hallow.
    apply (AddLabelLink_stores E s ctx req w caller Hgate Hq Hallow).
  - intros req out Hallow. subst out.
    rewrite (RemoveLabelLink_quiet E s ctx req w caller Hgate Hallow Hq).
    repeat split.
Qed.

(** A MANAGE token for "org/team" adds a link for its own namespace while
    hub H1 is connected: H1 receives the delta. *)
Lemma label_link_calls_witness :
  let w := with_connectedHubs
             {[ "H1" := {| xmit := []; messages := 0; bytes := 0 |} ]}
             (Demo.world Demo.empty_db) in
  let req := {| pb.ALAccount := {| pb.AccountId := pb.ULIDFromBytes "A";
                                   pb.Namespace := "org/team" |};
                pb.ALLabels := [ {| pb.Name := "host";
                                    pb.LabelValue := "foo.example" |} ];
                pb.ALTarget := [ {| pb.Name := "env";
                                    pb.LabelValue := "prod" |} ] |} in
  screen Demo.env Demo.server pb.MANAGE (Demo.call "MANAGE:org/team")
  = inr Demo.manage_token
  ∧ (AddLabelLink Demo.env Demo.server (Demo.call "MANAGE:org/team") req w).1
    = inr pb.MkNoop
  ∧ LabelLink.Labels
      <$> label_links
            (db (AddLabelLink Demo.env Demo.server
                   (Demo.call "MANAGE:org/team") req w).2)
    = ["host=foo.example"].
Proof.
  intros w req. split; [reflexivity|].
  destruct (proj1 (label_link_calls Demo.env Demo.server
                     (Demo.call "MANAGE:org/team") w Demo.manage_token
                     eq_refl eq_refl) req eq_refl)
    as (Hok & _ & Hrows & _).
  split; [exact Hok|]. now rewrite Hrows.
Defined.

(** C7 fails as stated for RemoveLabelLink: the call succeeds and deletes
    the link, but no account row appears and the connected hub H1 is handed
    nothing. *)
Lemma RemoveLabelLink_is_silent :
  let link := {| LabelLink.ID := 1; LabelLink.AccountID := "A";
                 LabelLink.Labels := "host=foo.example";
                 LabelLink.Target := "env=prod";
                 LabelLink.CreatedAt := 900; LabelLink.UpdatedAt := 900 |} in
  let w := with_connectedHubs
             {[ "H1" := {| xmit := []; messages := 0; bytes := 0 |} ]}
             (Demo.world (with_label_links [link] 1 Demo.empty_db)) in
  let req := {| pb.RLAccount := {| pb.AccountId := pb.ULIDFromBytes "A";
                                   pb.Namespace := "org/team" |};
                pb.RLLabels := [ {| pb.Name := "host";
                                    pb.LabelValue := "foo.example" |} ] |} in
  let out := RemoveLabelLink Demo.env Demo.server
               (Demo.call "MANAGE:org/team") req w in
  out.1 = inr pb.MkNoop
  ∧ label_links (db out.2) = []
  ∧ accounts (db out.2) = []
  ∧ xmit <$> (connectedHubs out.2 !! "H1") = Some [].
Proof. repeat split. Qed.



(** C8, as amended.  With a valid HUB token, AddService upserts no account
    row: the accounts table is after the call what it was before, whatever
    the store does; when the store reports no fault the call succeeds and
    the Service row, carrying the key of the request's account, is
    inserted. *)
Theorem AddService_upserts_no_account (E : Env) (s : Server) (ctx : Ctx)
  (service : pb.ServiceRequest) (w : World) (tok : token.ValidToken) :
  screen E s pb.HUB ctx = inr tok ->
  let out := AddService E s ctx service w in
  accounts (db out.2) = accounts (db w)
  ∧ (faults w = [] ->
     out.1 = inr tt
     ∧ services (db out.2)
       = services (db w)
         ++ [new_service E service (serial (db w) + 1) (now w)]).
Proof.
  intros Hgate out. split; [apply AddService_accounts|].
  intros Hq. apply (AddService_quiet E s ctx service w tok Hgate Hq).
Qed.

(** Service X of account A on hub S, added to an empty store. *)
Lemma AddService_upserts_no_account_witness :
  let service := {| pb.SRAccount := {| pb.AccountId := pb.ULIDFromBytes "A";
                                       pb.Namespace := "org/team" |};
                    pb.SRHub := pb.ULIDFromBytes "S";
                    pb.SRId := pb.ULIDFromBytes "X";
                    pb.SRType := "http";
                    pb.SRLabels := [ {| pb.Name := "env";
                                        pb.LabelValue := "prod" |} ] |} in
  let w := Demo.world Demo.empty_db in
  screen Demo.env Demo.server pb.HUB (Demo.call "HUB:") = inr Demo.hub_token
  ∧ accounts (db (AddService Demo.env Demo.server (Demo.call "HUB:")
                    service w).2) = [].
Proof.
  intros service w. split; [reflexivity|].
  apply (proj1 (AddService_upserts_no_account Demo.env Demo.server
                  (Demo.call "HUB:") service w Demo.hub_token eq_refl)).
Defined.

(** C8 fails as stated: after a successful AddService for account A on an
    empty store, the Service row is there and the accounts table is still
    empty. *)
Lemma AddService_inserts_without_account :
  let service := {| pb.SRAccount := {| pb.AccountId := pb.ULIDFromBytes "A";
                                       pb.Namespace := "org/team" |};
                    pb.SRHub := pb.ULIDFromBytes "S";
                    pb.SRId := pb.ULIDFromBytes "X";
                    pb.SRType := "http";
                    pb.SRLabels := [ {| pb.Name := "env";
                                        pb.LabelValue := "prod" |} ] |} in
  let out := AddService Demo.env Demo.server (Demo.call "HUB:") service
               (Demo.world Demo.empty_db) in
  out.1 = inr tt
  ∧ Service.AccountId <$> services (db out.2) = ["A"]
  ∧ accounts (db out.2) = [].
Proof. repeat split. Qed.

(** C9: RemoveService does not look at the token.  Two calls that pass the
    hub gate with any two tokens and carry the same request yield the same
    outcome and the same world; with a store that reports no fault, the
    rows deleted are exactly those with the request's service id, whatever
    their hub or account. *)
Theorem RemoveService_ignores_token (E : Env) (s : Server) (ctx1 ctx2 : Ctx)
  (tok1 tok2 : token.ValidToken) (service : pb.ServiceRequest) (w : World) :
  screen E s pb.HUB ctx1 = inr tok1 ->
  screen E s pb.HUB ctx2 = inr tok2 ->
  RemoveService E s ctx1 service w = RemoveService E s ctx2 service w
  ∧ (faults w = [] ->
     (RemoveService E s ctx1 service w).1 = inr tt
     ∧ services (db (RemoveService E s ctx1 service w).2)
       = filter (fun so => Service.ServiceId so ≠ pb.Bytes (pb.SRId service))
                (services (db w))).
Proof.
  intros H1 H2. split.
  - unfold RemoveService.
    rewrite (bind_runs _ _ _ _ _ (hub_gate_open _ _ _ _ _ H1)).
    now rewrite (bind_runs _ _ _ _ _ (hub_gate_open _ _ _ _ _ H2)).
  - intros Hq. rewrite (RemoveService_quiet E s ctx1 service w tok1 H1 Hq).
    split; reflexivity.
Qed.

(** Service X is registered on hub I1 for account A and on hub I2 for
    account B; a token of another account removes both rows. *)
Lemma RemoveService_ignores_token_witness :
  let service := {| pb.SRAccount := {| pb.AccountId := pb.ULIDFromBytes "C";
                                       pb.Namespace := "other/team" |};
                    pb.SRHub := pb.ULIDFromBytes "S3";
                    pb.SRId := pb.ULIDFromBytes "X";
                    pb.SRType := "http"; pb.SRLabels := [] |} in
  let w := Demo.world
             (with_services [Demo.service_row 1 "X" "I1" "A";
                             Demo.service_row 2 "X" "I2" "B";
                             Demo.service_row 3 "Y" "I1" "A"] 3
                Demo.empty_db) in
  screen Demo.env Demo.server pb.HUB (Demo.call "HUB:") = inr Demo.hub_token
  ∧ screen Demo.env Demo.server pb.HUB (Demo.call "HUB:other/team")
    = inr Demo.other_hub_token
  ∧ Demo.hub_token ≠ Demo.other_hub_token
  ∧ RemoveService Demo.env Demo.server (Demo.call "HUB:") service w
    = RemoveService Demo.env Demo.server (Demo.call "HUB:other/team")
        service w
  ∧ Service.ID
      <$> services (db (RemoveService Demo.env Demo.server
                          (Demo.call "HUB:other/team") service w).2)
    = [3%Z].
Proof.
  intros service w. split; [reflexivity|]. split; [reflexivity|].
  split; [discriminate|].
  split.
  - apply (proj1 (RemoveService_ignores_token Demo.env Demo.server
                    (Demo.call "HUB:") (Demo.call "HUB:other/team")
                    Demo.hub_token Demo.other_hub_token service w
                    eq_refl eq_refl)).
  - reflexivity.
Defined.




(** * Further properties of the handlers *)

(** ** The register token *)

Section RegisterGate.

Context (E : Env) (s : Server).

Lemma not_presented secret ctx :
  ¬ presents secret ctx ->
  match incoming ctx with
  | None => True
  | Some md => match authorization md with
               | [] => True
               | bearer :: _ => bearer ≠ secret
               end
  end.
Proof.
  intros Hno. destruct (incoming ctx) as [md|] eqn:Hmd; [|exact I].
  destruct (authorization md) as [|bearer rest] eqn:Hauth; [exact I|].
  intros ->. apply Hno. now exists md, rest.
Qed.

Lemma IssueHubToken_presented ctx n w :
  presents (registerToken s) ctx ->
  IssueHubToken E s ctx n w = (EncodeED25519WithVault E hub_creator, w).
Proof.
  intros (md & rest & Hmd & Hauth). unfold IssueHubToken.
  rewrite Hmd, Hauth. now rewrite decide_False by (intros Hne; now apply Hne).
Qed.

Lemma screen_presented bearer ctx tok role :
  presents bearer ctx ->
  CheckTokenED25519 E bearer (pubKey s) = inr tok ->
  screen E s role ctx
  = if decide (token.Role (token.Body tok) = role) then inr tok
    else inl (WrongRole (token.Role (token.Body tok))).
Proof.
  intros (md & rest & Hmd & Hauth) Hcheck. unfold screen.
  now rewrite Hmd, Hauth, Hcheck.
Qed.

Lemma Register_signs ctx reg w bearer w' :
  Register E s ctx reg w = (inr bearer, w') ->
  EncodeED25519WithVault E (manage_creator (pb.RegNamespace reg)) = inr bearer.
Proof.
  unfold Register.
  destruct (incoming ctx) as [md|]; [|discriminate].
  destruct (authorization md) as [|b rest]; [discriminate|].
  destruct (decide (b ≠ registerToken s)); [discriminate|].
  rewrite bind_try.
  destruct (exec Main _ w) as [[e|r] w1]; cbn [fst snd]; [|discriminate].
  destruct e; try discriminate.
  rewrite bind_gets, bind_modify.
  unfold mbind, M_bind.
  destruct (exec Main _ _) as [[e|r] w2]; [discriminate|].
  unfold lift, manage_creator. cbn [ManagementClient.Namespace].
  now intros [= -> _].
Qed.

End RegisterGate.

(** X1.  Register and IssueHubToken are gated by the shared register token:
    a call without metadata, without an authorization entry, or whose first
    authorization value is not the register token gets the
    bad-authentication error itself, and nothing is read or written. *)
Theorem register_gate_rejects (E : Env) (s : Server) (ctx : Ctx) (w : World) :
  ¬ presents (registerToken s) ctx ->
  (forall reg, Register E s ctx reg w = (inl ErrBadAuthentication, w))
  ∧ (forall n, IssueHubToken E s ctx n w = (inl ErrBadAuthentication, w)).
Proof.
  intros Hno. pose proof (not_presented _ _ Hno) as H.
  split; intros x; [unfold Register|unfold IssueHubToken];
    destruct (incoming ctx) as [md|]; try reflexivity;
    destruct (authorization md) as [|bearer rest]; try reflexivity;
    now rewrite decide_True by exact H.
Qed.

(** A hub token is not the register token. *)
Lemma register_gate_rejects_witness :
  ¬ presents (registerToken Demo.server) (Demo.call "HUB:")
  ∧ IssueHubToken Demo.env Demo.server (Demo.call "HUB:") pb.MkNoop
      (Demo.world Demo.empty_db)
    = (inl ErrBadAuthentication, Demo.world Demo.empty_db).
Proof.
  assert (Hno : ¬ presents (registerToken Demo.server) (Demo.call "HUB:")).
  { intros (md & rest & Hmd & Hauth). injection Hmd as <-.
    discriminate Hauth. }
  split; [exact Hno|].
  apply (proj2 (register_gate_rejects Demo.env Demo.server (Demo.call "HUB:")
                  (Demo.world Demo.empty_db) Hno)).
Defined.

(** X2.  When the verifier reads back the role the signer was given, a
    token issued by IssueHubToken opens the hub gate and is turned away by
    the management gate as a wrong role, and a token issued by Register
    does the opposite; IssueHubToken leaves the world as it is. *)
Theorem issued_tokens_open_their_gate (E : Env) (s : Server) (ctx : Ctx)
  (w : World) :
  codec_keeps_role E s ->
  presents (registerToken s) ctx ->
  (forall n bearer w' ctx',
     IssueHubToken E s ctx n w = (inr bearer, w') ->
     presents bearer ctx' ->
     w' = w
     ∧ (exists tok, screen E s pb.HUB ctx' = inr tok)
     ∧ screen E s pb.MANAGE ctx' = inl (WrongRole pb.HUB))
  ∧ (forall reg bearer w' ctx',
       Register E s ctx reg w = (inr bearer, w') ->
       presents bearer ctx' ->
       (exists tok, screen E s pb.MANAGE ctx' = inr tok)
       ∧ screen E s pb.HUB ctx' = inl (WrongRole pb.MANAGE)).
Proof.
  intros Hcodec Hcall. split.
  - intros n bearer w' ctx' Hrun Hp.
    rewrite (IssueHubToken_presented E s _ _ _ Hcall) in Hrun.
    injection Hrun as Hsign <-.
    destruct (Hcodec _ _ Hsign) as (tok & Hcheck & Hrole).
    cbn [token.TCRole hub_creator] in Hrole.
    split; [reflexivity|].
    rewrite !(screen_presented E s _ _ _ _ Hp Hcheck), Hrole.
    split; [eexists; reflexivity|reflexivity].
  - intros reg bearer w' ctx' Hrun Hp.
    destruct (Hcodec _ _ (Register_signs E s _ _ _ _ _ Hrun))
      as (tok & Hcheck & Hrole).
    cbn [token.TCRole manage_creator] in Hrole.
    rewrite !(screen_presented E s _ _ _ _ Hp Hcheck), Hrole.
    split; [eexists; reflexivity|reflexivity].
Qed.

(** The toy codec keeps the role; the token IssueHubToken returns passes
    the hub gate. *)
Lemma issued_tokens_open_their_gate_witness :
  codec_keeps_role Demo.env Demo.server
  ∧ presents (registerToken Demo.server) (Demo.call "register-secret")
  ∧ exists tok, screen Demo.env Demo.server pb.HUB (Demo.call "HUB:")
                = inr tok.
Proof.
  assert (Hcodec : codec_keeps_role Demo.env Demo.server).
  { intros tc bearer Hsign. cbn in Hsign. injection Hsign as <-.
    destruct (token.TCRole tc) eqn:Hrole;
      [ exists (Demo.mk_token pb.INTERNAL_SERVICE
                  (Demo.after 17
                     ("INTERNAL_SERVICE:" +:+ token.AccuntNamespace tc)))
      | exists (Demo.mk_token pb.HUB
                  (Demo.after 4 ("HUB:" +:+ token.AccuntNamespace tc)))
      | exists (Demo.mk_token pb.MANAGE
                  (Demo.after 7 ("MANAGE:" +:+ token.AccuntNamespace tc))) ];
      (split; [|reflexivity]);
      destruct (token.AccuntNamespace tc); reflexivity. }
  assert (Hcall : presents (registerToken Demo.server)
                    (Demo.call "register-secret"))
    by (eexists _, []; split; reflexivity).
  split; [exact Hcodec|]. split; [exact Hcall|].
  apply (proj1 (issued_tokens_open_their_gate Demo.env Demo.server
                  (Demo.call "register-secret") (Demo.world Demo.empty_db)
                  Hcodec Hcall)
           pb.MkNoop "HUB:" (Demo.world Demo.empty_db) (Demo.call "HUB:")
           eq_refl).
  eexists _, []. split; reflexivity.
Defined.

(** ** The fan-out *)

Lemma deliver_twice a b ch :
  deliver b (deliver a ch)
  = {| xmit := xmit ch ++ [a; b]; messages := messages ch;
       bytes := bytes ch |}.
Proof. unfold deliver. cbn. now rewrite <- app_assoc. Qed.

(** X3.  Two broadcasts under contexts that are not cancelled both succeed
    and reach every registered session in the order they were made: each
    queue grows by the first delta, then the second; no session is added or
    removed and the counters are untouched. *)
Theorem broadcast_fifo (ctx : Ctx) (a b : pb.CentralActivity) (w : World) :
  cancel_after ctx = None ->
  let first := broadcastActivity ctx a w in
  let second := broadcastActivity ctx b first.2 in
  first.1 = inr tt ∧ second.1 = inr tt
  ∧ forall key,
      connectedHubs second.2 !! key
      = (fun ch => {| xmit := xmit ch ++ [a; b]; messages := messages ch;
                      bytes := bytes ch |})
        <$> connectedHubs w !! key.
Proof.
  intros Hc first second. subst first second.
  rewrite !broadcast_reaches_all by exact Hc. cbn [fst snd].
  repeat split. intros key. cbn [connectedHubs with_connectedHubs].
  rewrite !lookup_fmap.
  destruct (connectedHubs w !! key) as [ch|]; [|reflexivity].
  cbn. now rewrite deliver_twice.
Qed.

(** Two deltas sent to the hubs H1 and H2. *)
Lemma broadcast_fifo_witness :
  let a := {| pb.AccountServices_ := []; pb.NewLabelLinks := None |} in
  let b := {| pb.AccountServices_ := []; pb.NewLabelLinks := Some [] |} in
  let w := with_connectedHubs
             {[ "H1" := fresh_session; "H2" := fresh_session ]}
             (Demo.world Demo.empty_db) in
  cancel_after Demo.bare_call = None
  ∧ xmit <$> (connectedHubs
                (broadcastActivity Demo.bare_call b
                   (broadcastActivity Demo.bare_call a w).2).2 !! "H2")
    = Some [a; b].
Proof.
  intros a b w. split; [reflexivity|].
  destruct (broadcast_fifo Demo.bare_call a b w eq_refl) as (_ & _ & Hq).
  rewrite (Hq "H2"). reflexivity.
Defined.

(** X4.  A broadcast whose context is cancelled after [n] sends returns the
    cancellation error exactly when more than [n] sessions are registered;
    every session either got the delta appended or was left as it was, no
    session is added or removed; when at most [n] sessions are registered
    all of them got the delta, and with [n = 0] none did. *)
Theorem broadcast_cancelled (ctx : Ctx) (act : pb.CentralActivity) (w : World)
  (n : nat) :
  cancel_after ctx = Some n ->
  let out := broadcastActivity ctx act w in
  (out.1 = if decide (n < size (connectedHubs w)) then inl Canceled
           else inr tt)
  ∧ (forall key,
       match connectedHubs w !! key with
       | None => connectedHubs out.2 !! key = None
       | Some ch =>
           connectedHubs out.2 !! key = Some ch
           ∨ connectedHubs out.2 !! key = Some (deliver act ch)
       end)
  ∧ (size (connectedHubs w) ≤ n ->
     forall key,
       connectedHubs out.2 !! key = deliver act <$> connectedHubs w !! key)
  ∧ (n = 0 -> connectedHubs out.2 = connectedHubs w).
Proof.
  intros Hc out. subst out. unfold broadcastActivity. rewrite Hc.
  cbn [fst snd connectedHubs with_connectedHubs].
  split; [reflexivity|]. split; [|split].
  - intros key. rewrite map_lookup_imap.
    destruct (connectedHubs w !! key) as [ch|]; [|reflexivity]. cbn.
    destruct (decide (key ∈ _)); [right|left]; reflexivity.
  - intros Hall key. rewrite map_lookup_imap.
    destruct (connectedHubs w !! key) as [ch|] eqn:Hk; [|reflexivity]. cbn.
    rewrite decide_True; [reflexivity|].
    rewrite take_ge by (rewrite length_fmap, length_map_to_list; exact Hall).
    apply list_elem_of_fmap. exists (key, ch). split; [reflexivity|].
    now apply elem_of_map_to_list.
  - intros ->. apply map_eq. intros key. rewrite map_lookup_imap.
    destruct (connectedHubs w !! key) as [ch|]; [|reflexivity]. cbn.
    rewrite take_0. rewrite decide_False by (intros Hin; inversion Hin).
    reflexivity.
Qed.

(** A caller that is already gone: the hub H1 is handed nothing. *)
Lemma broadcast_cancelled_witness :
  let ctx := {| incoming := None; cancel_after := Some 0 |} in
  let act := {| pb.AccountServices_ := []; pb.NewLabelLinks := None |} in
  let w := with_connectedHubs {[ "H1" := fresh_session ]}
             (Demo.world Demo.empty_db) in
  cancel_after ctx = Some 0
  ∧ (broadcastActivity ctx act w).1 = inl Canceled
  ∧ connectedHubs (broadcastActivity ctx act w).2 = connectedHubs w.
Proof.
  intros ctx act w. split; [reflexivity|].
  destruct (broadcast_cancelled ctx act w 0 eq_refl) as (Hr & _ & _ & Hsame).
  split; [exact Hr|exact (Hsame eq_refl)].
Defined.

(** ** Persistence before broadcast *)

(** X5.  AddService hands its delta to the sessions only after the Service
    row is in the store: in every world and for every call, either no
    session was touched, or the row was inserted and the sessions are those
    the fan-out of the service delta leaves. *)
Theorem AddService_broadcasts_after_insert (E : Env) (s : Server) (ctx : Ctx)
  (service : pb.ServiceRequest) (w : World) :
  let out := AddService E s ctx service w in
  connectedHubs out.2 = connectedHubs w
  ∨ (services (db out.2)
     = services (db w)
       ++ [new_service E service (serial (db w) + 1) (now w)]
     ∧ connectedHubs out.2
       = connectedHubs (broadcastActivity ctx (service_delta service) w).2).
Proof.
  intros out.
  assert (Hout : out = AddService E s ctx service w) by reflexivity.
  clearbody out. unfold AddService in Hout.
  unfold mbind at 1 in Hout. unfold M_bind at 1 in Hout.
  rewrite checkFromHub_screen in Hout.
  destruct (screen E s pb.HUB ctx) as [rej|tok];
    [subst out; left; reflexivity|].
  rewrite bind_gets in Hout.
  unfold mbind, M_bind, exec, try, broadcastActivity, updateAccountRouting,
    materialize, service_Create, mret, M_ret in Hout.
  unfold broadcastActivity.
  destruct (faults w) as [|[c|] [|[c'|] fs]]; cbn in Hout;
    destruct (cancel_after ctx); cbn in Hout; subst out; cbn;
    first [left; reflexivity | right; split; reflexivity].
Qed.

(** X6.  AddLabelLink hands its delta to the sessions only after both the
    account upsert and the link insert went through: with a MANAGE token,
    either no session was touched, or the link row and the upserted account
    are in the store and the sessions are those the fan-out of the link
    delta leaves. *)
Theorem AddLabelLink_broadcasts_after_insert (E : Env) (s : Server)
  (ctx : Ctx) (req : pb.AddLabelLinkRequest) (w : World)
  (caller : token.ValidToken) :
  screen E s pb.MANAGE ctx = inr caller ->
  let account := link_account caller req in
  let out := AddLabelLink E s ctx req w in
  connectedHubs out.2 = connectedHubs w
  ∨ (label_links (db out.2)
     = label_links (db w)
       ++ [link_row E account req (serial (db w) + 1) (now w)]
     ∧ accounts (db out.2)
       = upsert_rows (now w) (account_row E account) (accounts (db w))
     ∧ connectedHubs out.2
       = connectedHubs
           (broadcastActivity ctx (link_delta account req) w).2).
Proof.
  intros Hgate account out.
  assert (Hout : out = AddLabelLink E s ctx req w) by reflexivity.
  clearbody out. unfold AddLabelLink in Hout.
  rewrite (bind_runs _ _ _ _ _ (mgmt_gate_open _ _ _ _ _ Hgate)) in Hout.
  fold (link_account caller req) in Hout. fold account in Hout.
  destruct (token.AllowAccount caller (pb.Namespace account));
    cbn [negb] in Hout; [|subst out; left; reflexivity].
  rewrite bind_gets in Hout.
  unfold mbind, M_bind, exec, try, broadcastActivity, updateLabelLinks,
    materialize, label_link_Create, mret, M_ret in Hout.
  rewrite account_Upsert_rows in Hout.
  unfold broadcastActivity.
  destruct (faults w) as [|[c|] [|[c'|] [|[c''|] fs]]]; cbn in Hout;
    destruct (cancel_after ctx); cbn in Hout; subst out; cbn;
    first [left; reflexivity | right; repeat split; reflexivity].
Qed.

(** The store fails the insert of the link: hub H1 is handed nothing. *)
Lemma AddLabelLink_broadcasts_after_insert_witness :
  let req := {| pb.ALAccount := {| pb.AccountId := pb.ULIDFromBytes "A";
                                   pb.Namespace := "org/team" |};
                pb.ALLabels := []; pb.ALTarget := [] |} in
  let w := with_faults [None; Some "unique_violation"]
             (with_connectedHubs {[ "H1" := fresh_session ]}
                (Demo.world Demo.empty_db)) in
  let out := AddLabelLink Demo.env Demo.server (Demo.call "MANAGE:org/team")
               req w in
  screen Demo.env Demo.server pb.MANAGE (Demo.call "MANAGE:org/team")
  = inr Demo.manage_token
  ∧ label_links (db out.2) = []
  ∧ connectedHubs out.2 = connectedHubs w.
Proof.
  intros req w out. split; [reflexivity|]. split; [reflexivity|].
  destruct (AddLabelLink_broadcasts_after_insert Demo.env Demo.server
              (Demo.call "MANAGE:org/team") req w Demo.manage_token eq_refl)
    as [Hsame|(Hrows & _)]; [exact Hsame|].
  discriminate Hrows.
Defined.

(** ** Removing the services of an instance *)

Lemma resolve_each (E : Env) sos accs :
  resolve E sos = inr accs ->
  Forall2 (fun so acc => AccountFromKey E (Service.AccountId so) = inr acc)
          sos accs.
Proof.
  revert accs. induction sos as [|so rest IH]; intros accs Hres.
  - injection Hres as <-. constructor.
  - simpl in Hres.
    destruct (AccountFromKey E (Service.AccountId so)) as [e|acc] eqn:Hk;
      [discriminate|].
    destruct (resolve E rest) as [e|accs']; [discriminate|].
    injection Hres as <-. constructor; [exact Hk|now apply IH].
Qed.

Lemma reroute_any_db (E : Env) h sos w : db (reroute E h sos w).2 = db w.
Proof.
  revert w. induction sos as [|so rest IH]; intros w; [reflexivity|].
  cbn [reroute]. rewrite bind_lift.
  destruct (AccountFromKey E (Service.AccountId so)) as [e|acc];
    [reflexivity|].
  unfold updateAccountRouting, mbind, M_bind.
  pose proof (keeps_db_materialize (RoutingOf acc) w) as Hm.
  destruct (materialize (RoutingOf acc) w) as [[e|u] w1]; cbn in Hm |- *;
    [exact Hm|]. now rewrite IH.
Qed.

Lemma removeHubServices_keeps_hubs (E : Env) hub w :
  hubs (db (removeHubServices E Main hub w).2) = hubs (db w).
Proof.
  unfold removeHubServices, mbind, M_bind, exec, service_FindByHub,
    service_DeleteByHub.
  destruct (faults w) as [|[c|] [|[c'|] fs]]; cbn; try reflexivity;
    now rewrite reroute_any_db.
Qed.

(** X7.  On the server's own handle and with a store that reports no
    fault, removeHubServices deletes exactly the services of the instance
    and leaves hubs and accounts alone; the deletion is not undone when an
    account key fails to resolve, although the call then returns that
    error; when all keys resolve, the routing is re-materialised once per
    deleted service, in the order of the rows. *)
Theorem removeHubServices_effect (E : Env) (hub : pb.ULID) (w : World) :
  faults w = [] ->
  let gone := filter (fun so => Service.HubId so = pb.Bytes hub)
                     (services (db w)) in
  let out := removeHubServices E Main hub w in
  services (db out.2)
  = filter (fun so => Service.HubId so ≠ pb.Bytes hub) (services (db w))
  ∧ hubs (db out.2) = hubs (db w)
  ∧ accounts (db out.2) = accounts (db w)
  ∧ out.1 = match resolve E gone with inl e => inl e | inr _ => inr tt end
  ∧ (forall accs, resolve E gone = inr accs ->
       materialized out.2 = materialized w ++ (RoutingOf <$> accs)
       ∧ Forall2 (fun so acc =>
                    AccountFromKey E (Service.AccountId so) = inr acc)
                 gone accs).
Proof.
  intros Hq gone out.
  assert (Hdb : db out.2
                = with_services
                    (filter (fun so => Service.HubId so ≠ pb.Bytes hub)
                            (services (db w)))
                    (serial (db w)) (db w)).
  { subst out. unfold removeHubServices.
    erewrite bind_runs by (rewrite exec_quiet by exact Hq; reflexivity).
    erewrite bind_runs by (rewrite exec_quiet by exact Hq; reflexivity).
    now rewrite reroute_any_db. }
  rewrite Hdb.
  split; [reflexivity|]. split; [reflexivity|]. split; [reflexivity|].
  split.
  - destruct (resolve E gone) as [e|accs] eqn:Hres.
    + apply (removeHubServices_quiet_fails E Main hub e w Hq Hres).
    + subst out.
      now rewrite (removeHubServices_quiet E Main hub accs w Hq Hres).
  - intros accs Hres. split; [|now apply resolve_each].
    subst out.
    now rewrite (removeHubServices_quiet E Main hub accs w Hq Hres).
Qed.

(** Instance I1 holds two services of account A and instance I2 one of
    account B: removing I1 re-materialises A twice. *)
Lemma removeHubServices_effect_witness :
  let w := Demo.world
             (with_services [Demo.service_row 1 "X" "I1" "A";
                             Demo.service_row 2 "Y" "I2" "B";
                             Demo.service_row 3 "Z" "I1" "A"] 3
                Demo.empty_db) in
  let out := removeHubServices Demo.env Main (pb.ULIDFromBytes "I1") w in
  faults w = []
  ∧ Service.ID <$> services (db out.2) = [2%Z]
  ∧ length (materialized out.2) = 2.
Proof.
  intros w out. split; [reflexivity|].
  destruct (removeHubServices_effect Demo.env (pb.ULIDFromBytes "I1") w
              eq_refl) as (Hs & _ & _ & _ & Hm).
  fold out in Hs. split; [now rewrite Hs|].
  destruct (Hm _ eq_refl) as [Hlog _]. fold out in Hlog. now rewrite Hlog.
Defined.

(** ** HubDisconnect *)

(** X8.  With a valid HUB token, a store that reports no fault and account
    keys that resolve, HubDisconnect returns the response and a nil error,
    deletes the hub rows with the request's stable id and the services with
    the request's instance id; the two deletions are keyed independently, so
    the hub row goes whatever instance it holds. *)
Theorem HubDisconnect_cleans (E : Env) (s : Server) (ctx : Ctx)
  (req : pb.HubDisconnectRequest) (w : World) (tok : token.ValidToken)
  (accs : list pb.Account) :
  screen E s pb.HUB ctx = inr tok ->
  faults w = [] ->
  resolve E (filter (fun so => Service.HubId so
                               = pb.Bytes (pb.HDInstanceId req))
                    (services (db w))) = inr accs ->
  let out := HubDisconnect E s ctx req w in
  out.1 = (Some pb.MkNoop, None)
  ∧ hubs (db out.2)
    = filter (fun h => Hub.StableID h ≠ pb.Bytes (pb.HDStableId req))
             (hubs (db w))
  ∧ services (db out.2)
    = filter (fun so => Service.HubId so ≠ pb.Bytes (pb.HDInstanceId req))
             (services (db w)).
Proof.
  intros Hgate Hq Hres out. subst out. unfold HubDisconnect.
  rewrite (hub_gate_open _ _ _ _ _ Hgate).
  rewrite (removeHubServices_quiet E Main _ accs w Hq Hres).
  rewrite exec_quiet by exact Hq. repeat split.
Qed.

(** A stale instance I0 disconnects hub S, whose row holds I1: the row is
    deleted and the service of I1 stays. *)
Lemma HubDisconnect_cleans_witness :
  let req := {| pb.HDStableId := pb.ULIDFromBytes "S";
                pb.HDInstanceId := pb.ULIDFromBytes "I0" |} in
  let w := Demo.world
             (with_services [Demo.service_row 1 "X" "I1" "A"] 1
                (with_hubs [Demo.hub_row "S" "I1"] Demo.empty_db)) in
  let out := HubDisconnect Demo.env Demo.server (Demo.call "HUB:") req w in
  screen Demo.env Demo.server pb.HUB (Demo.call "HUB:") = inr Demo.hub_token
  ∧ out.1 = (Some pb.MkNoop, None)
  ∧ hubs (db out.2) = []
  ∧ Service.HubId <$> services (db out.2) = ["I1"].
Proof.
  intros req w out. split; [reflexivity|].
  destruct (HubDisconnect_cleans Demo.env Demo.server (Demo.call "HUB:") req
              w Demo.hub_token [] eq_refl eq_refl eq_refl)
    as (Hr & Hh & Hs).
  fold out in Hr, Hh, Hs.
  split; [exact Hr|]. split; [now rewrite Hh|now rewrite Hs].
Defined.

(** X9.  When the store fails the deletion of the hub row, HubDisconnect
    still returns the response, together with a composite error that holds
    that failure and nothing else, whether or not the removal of the
    services failed before; the hubs table is as it was. *)
Theorem HubDisconnect_reports_row_failure (E : Env) (s : Server) (ctx : Ctx)
  (req : pb.HubDisconnectRequest) (w : World) (tok : token.ValidToken)
  (code : string) (fs : list (option string)) :
  screen E s pb.HUB ctx = inr tok ->
  faults (removeHubServices E Main (pb.HDInstanceId req) w).2
  = Some code :: fs ->
  let out := HubDisconnect E s ctx req w in
  out.1 = (Some pb.MkNoop, Some (MultiError [StoreFailure code]))
  ∧ hubs (db out.2) = hubs (db w).
Proof.
  intros Hgate Hf out. subst out. unfold HubDisconnect.
  rewrite (hub_gate_open _ _ _ _ _ Hgate).
  pose proof (removeHubServices_keeps_hubs E (pb.HDInstanceId req) w) as Hh.
  destruct (removeHubServices E Main (pb.HDInstanceId req) w) as [r1 w1].
  cbn [snd] in Hf, Hh. unfold exec. rewrite Hf. split; [reflexivity|].
  exact Hh.
Qed.

(** The store goes away after the services are removed. *)
Lemma HubDisconnect_reports_row_failure_witness :
  let req := {| pb.HDStableId := pb.ULIDFromBytes "S";
                pb.HDInstanceId := pb.ULIDFromBytes "I" |} in
  let w := with_faults [None; None; Some "connection lost"]
             (Demo.world (with_hubs [Demo.hub_row "S" "I"] Demo.empty_db)) in
  screen Demo.env Demo.server pb.HUB (Demo.call "HUB:") = inr Demo.hub_token
  ∧ (HubDisconnect Demo.env Demo.server (Demo.call "HUB:") req w).1
    = (Some pb.MkNoop, Some (MultiError [StoreFailure "connection lost"])).
Proof.
  intros req w. split; [reflexivity|].
  apply (proj1 (HubDisconnect_reports_row_failure Demo.env Demo.server
                  (Demo.call "HUB:") req w Demo.hub_token "connection lost"
                  [] eq_refl eq_refl)).
Defined.

(** ** AllHubs *)

Lemma hub_infos_ids (E : Env) rows out :
  hub_infos E rows = inr out ->
  pb.HubInfoId <$> out
  = (fun h => pb.ULIDFromBytes (Hub.InstanceID h)) <$> rows
  ∧ Forall2 (fun h info =>
               json_Unmarshal E (Hub.ConnectionInfo h)
               = inr (pb.HubLocations info)) rows out.
Proof.
  revert out. induction rows as [|h rest IH]; intros out Hout.
  - injection Hout as <-. split; constructor.
  - simpl in Hout.
    destruct (json_Unmarshal E (Hub.ConnectionInfo h)) as [e|locs] eqn:Hl;
      [discriminate|].
    destruct (hub_infos E rest) as [e|out']; [discriminate|].
    injection Hout as <-. destruct (IH out' eq_refl) as [Hids Hall].
    split; [cbn; now rewrite Hids|]. constructor; [exact Hl|exact Hall].
Qed.

Lemma hub_infos_fails (E : Env) rows h e :
  h ∈ rows ->
  json_Unmarshal E (Hub.ConnectionInfo h) = inl e ->
  exists e', hub_infos E rows = inl e'.
Proof.
  intros Hin Hbad. induction rows as [|h0 rest IH]; [inversion Hin|].
  simpl. apply elem_of_cons in Hin as [<-|Hin].
  - rewrite Hbad. now eexists.
  - destruct (json_Unmarshal E (Hub.ConnectionInfo h0)); [now eexists|].
    destruct (IH Hin) as [e' ->]. now eexists.
Qed.

(** X10.  With a store that reports no fault, AllHubs changes nothing and
    answers with one entry per hub row, in the order of the rows: the id of
    an entry is the instance id of the row (not its stable id) and its
    locations are the decoded connection info; one row whose connection
    info does not decode makes the whole call fail. *)
Theorem AllHubs_lists_instances (E : Env) (ctx : Ctx) (n : pb.Noop)
  (w : World) :
  faults w = [] ->
  let out := AllHubs E ctx n w in
  out.2 = w
  ∧ (forall infos, out.1 = inr infos ->
       pb.HubInfoId <$> infos
       = (fun h => pb.ULIDFromBytes (Hub.InstanceID h)) <$> hubs (db w)
       ∧ Forall2 (fun h info =>
                    json_Unmarshal E (Hub.ConnectionInfo h)
                    = inr (pb.HubLocations info)) (hubs (db w)) infos)
  ∧ (forall h e, h ∈ hubs (db w) ->
       json_Unmarshal E (Hub.ConnectionInfo h) = inl e ->
       exists e', out.1 = inl e').
Proof.
  intros Hq out.
  assert (Hrun : out = (hub_infos E (hubs (db w)), w)).
  { subst out. unfold AllHubs.
    erewrite bind_runs
      by (rewrite exec_quiet by exact Hq; cbn [hub_Find tables set_tables];
          rewrite with_db_same; reflexivity).
    reflexivity. }
  rewrite Hrun. cbn [fst snd]. split; [reflexivity|]. split.
  - intros infos. apply hub_infos_ids.
  - intros h e. apply hub_infos_fails.
Qed.

(** Two hubs: the answer lists their instance ids. *)
Lemma AllHubs_lists_instances_witness :
  let w := Demo.world
             (with_hubs [Demo.hub_row "S1" "I1"; Demo.hub_row "S2" "I2"]
                Demo.empty_db) in
  faults w = []
  ∧ exists infos,
      (AllHubs Demo.env Demo.bare_call pb.MkNoop w).1 = inr infos
      ∧ pb.HubInfoId <$> infos
        = [pb.ULIDFromBytes "I1"; pb.ULIDFromBytes "I2"].
Proof.
  intros w. split; [reflexivity|].
  eexists. split; [reflexivity|].
  exact (proj1 (proj1 (proj2 (AllHubs_lists_instances Demo.env Demo.bare_call
                                pb.MkNoop w eq_refl)) _ eq_refl)).
Defined.

(** ** Register and the signer *)

(** X11.  Register inserts the management client before it asks for the
    signature and does not take it back: when the signer fails, the call
    returns the signer's error, the record stays, and a second Register of
    the same namespace is refused with "namespace already in use". *)
Theorem Register_keeps_record_when_signing_fails (E : Env) (s : Server)
  (ctx : Ctx) (reg : pb.ControlRegister) (w : World) (e : error) :
  presents (registerToken s) ctx ->
  literal (pb.RegNamespace reg) = true ->
  faults w = [] ->
  filter (fun r => String.prefix (pb.RegNamespace reg)
                     (ManagementClient.Namespace r) = true)
         (management_clients (db w)) = [] ->
  pb.Bytes (NewULID E (drawn w))
    ∉ ManagementClient.ID <$> management_clients (db w) ->
  EncodeED25519WithVault E (manage_creator (pb.RegNamespace reg)) = inl e ->
  let out := Register E s ctx reg w in
  out.1 = inl e
  ∧ management_clients (db out.2)
    = management_clients (db w)
      ++ [ {| ManagementClient.ID := pb.Bytes (NewULID E (drawn w));
              ManagementClient.Namespace := pb.RegNamespace reg |} ]
  ∧ Register E s ctx reg out.2
    = (inl (Errorf "namespace already in use"), out.2).
Proof.
  intros Hcall Hlit Hq Hfree Hfresh Hsign out. subst out.
  rewrite (Register_creates E s _ _ _ Hcall Hlit Hq Hfree Hfresh), Hsign.
  cbn [fst snd]. split; [reflexivity|]. split; [reflexivity|].
  rewrite (Register_start E s _ _ _ Hcall Hlit) by exact Hq.
  cbn [db with_db management_clients with_management_clients].
  rewrite filter_app, Hfree, filter_cons.
  cbn [ManagementClient.Namespace].
  rewrite decide_True by apply prefix_refl. reflexivity.
Qed.

(** The vault is sealed: "org" is taken although no token was issued. *)
Lemma Register_keeps_record_when_signing_fails_witness :
  let reg := {| pb.RegNamespace := "org" |} in
  let w := Demo.world Demo.empty_db in
  let out := Register sealed_env Demo.server (Demo.call "register-secret")
               reg w in
  presents (registerToken Demo.server) (Demo.call "register-secret")
  ∧ out.1 = inl (Upstream "vault is sealed")
  ∧ ManagementClient.Namespace <$> management_clients (db out.2) = ["org"].
Proof.
  intros reg w out.
  assert (Hcall : presents (registerToken Demo.server)
                    (Demo.call "register-secret"))
    by (eexists _, []; split; reflexivity).
  split; [exact Hcall|].
  assert (Hfresh : pb.Bytes (NewULID sealed_env (drawn w))
                   ∉ ManagementClient.ID <$> management_clients (db w))
    by (intros Hin; inversion Hin).
  destruct (Register_keeps_record_when_signing_fails sealed_env Demo.server
              (Demo.call "register-secret") reg w (Upstream "vault is sealed")
              Hcall eq_refl eq_refl eq_refl Hfresh eq_refl)
    as (Hr & Hrows & _).
  fold out in Hr, Hrows. split; [exact Hr|]. now rewrite Hrows.
Defined.

(** ** CreateToken and the accounts table *)

Lemma upsert_rows_overwrites t ao rows a :
  a ∈ upsert_rows t ao rows ->
  Account.ID a = Account.ID ao ->
  Account.Namespace a = Account.Namespace ao.
Proof.
  unfold upsert_rows.
  destruct (decide (Account.ID ao ∈ Account.ID <$> rows)) as [Hin|Hout].
  - intros Ha Hid. apply list_elem_of_fmap in Ha as (a0 & -> & Ha0).
    destruct (decide (Account.ID a0 = Account.ID ao)) as [|Hne];
      [reflexivity|]. now elim Hne.
  - intros Ha Hid. apply elem_of_app in Ha as [Ha|Ha].
    + elim Hout. apply list_elem_of_fmap. exists a.
      split; [now symmetry|exact Ha].
    + apply list_elem_of_singleton in Ha as ->. reflexivity.
Qed.

Lemma upsert_rows_keeps_others t ao rows a :
  a ∈ rows -> Account.ID a ≠ Account.ID ao -> a ∈ upsert_rows t ao rows.
Proof.
  intros Ha Hne. unfold upsert_rows.
  destruct (decide (Account.ID ao ∈ Account.ID <$> rows)).
  - apply list_elem_of_fmap. exists a. split; [|exact Ha].
    now rewrite decide_False by exact Hne.
  - apply elem_of_app. now left.
Qed.

(** X12.  A CreateToken call that passes its checks upserts the account
    before it asks for the signature, whatever the signer then answers:
    afterwards a row with the account's key exists, every row with that key
    carries the requested namespace (an existing row is overwritten), rows
    with other keys are kept, and the table grows by one row only when the
    key was new. *)
Theorem CreateToken_upserts_account (E : Env) (s : Server) (ctx : Ctx)
  (req : pb.CreateTokenRequest) (w : World) (caller : token.ValidToken) :
  screen E s pb.MANAGE ctx = inr caller ->
  faults w = [] ->
  token.AllowAccount caller (pb.Namespace (pb.CTAccount req)) = true ->
  access_refused caller (pb.CTCapabilities req) = false ->
  let out := CreateToken E s ctx req w in
  let rows := accounts (db out.2) in
  (exists a, a ∈ rows ∧ Account.ID a = Key E (pb.CTAccount req))
  ∧ (forall a, a ∈ rows -> Account.ID a = Key E (pb.CTAccount req) ->
       Account.Namespace a = pb.Namespace (pb.CTAccount req))
  ∧ (forall a, a ∈ accounts (db w) ->
       Account.ID a ≠ Key E (pb.CTAccount req) -> a ∈ rows)
  ∧ length rows
    = if decide (Key E (pb.CTAccount req) ∈ Account.ID <$> accounts (db w))
      then length (accounts (db w)) else S (length (accounts (db w))).
Proof.
  intros Hgate Hq Hns Hcaps out rows.
  assert (Hrows : rows = upsert_rows (now w) (account_row E (pb.CTAccount req))
                           (accounts (db w))).
  { subst rows out. unfold CreateToken.
    rewrite (bind_runs _ _ _ _ _ (mgmt_gate_open _ _ _ _ _ Hgate)).
    rewrite Hns, Hcaps. cbn [negb]. rewrite bind_gets, bind_try.
    rewrite exec_quiet by exact Hq. cbn [tables].
    rewrite account_Upsert_rows. cbn [fst snd].
    unfold mbind, M_bind, mret, M_ret, lift. reflexivity. }
  rewrite Hrows. split; [|split; [|split]].
  - destruct (upsert_rows_has (now w) (account_row E (pb.CTAccount req))
                (accounts (db w))) as (a & Ha & Hid & _).
    exists a. split; [exact Ha|exact Hid].
  - intros a Ha Hid.
    apply (upsert_rows_overwrites _ _ _ _ Ha Hid).
  - intros a Ha Hne. now apply upsert_rows_keeps_others.
  - unfold upsert_rows. cbn [account_row Account.ID].
    destruct (decide _); [now rewrite length_fmap|].
    rewrite length_app. cbn. lia.
Qed.

(** Account A is stored under "org/team"; a token for "org/team/sub" moves
    it there. *)
Lemma CreateToken_upserts_account_witness :
  let req := {| pb.CTAccount := {| pb.AccountId := pb.ULIDFromBytes "A";
                                   pb.Namespace := "org/team/sub" |};
                pb.CTCapabilities := []; pb.CTValidDuration := None |} in
  let w := Demo.world
             (with_accounts
                [ {| Account.ID := "A"; Account.Namespace := "org/team";
                     Account.CreatedAt := 900; Account.UpdatedAt := 900 |} ]
                Demo.empty_db) in
  let out := CreateToken Demo.env Demo.server (Demo.call "MANAGE:org/team")
               req w in
  screen Demo.env Demo.server pb.MANAGE (Demo.call "MANAGE:org/team")
  = inr Demo.manage_token
  ∧ length (accounts (db out.2)) = 1
  ∧ Account.Namespace <$> accounts (db out.2) = ["org/team/sub"].
Proof.
  intros req w out. split; [reflexivity|].
  destruct (CreateToken_upserts_account Demo.env Demo.server
              (Demo.call "MANAGE:org/team") req w Demo.manage_token
              eq_refl eq_refl eq_refl eq_refl) as (_ & _ & _ & Hlen).
  fold out in Hlen. split; [exact Hlen|reflexivity].
Defined.

(** ** Sessions and the registry *)






(** ** Flow telemetry *)

Lemma wrap64_add_r a b : wrap64 (a + wrap64 b) = wrap64 (a + b).
Proof.
  unfold wrap64.
  replace (a + ((b + 2 ^ 63) mod 2 ^ 64 - 2 ^ 63) + 2 ^ 63)%Z
    with (a + (b + 2 ^ 63) mod 2 ^ 64)%Z by lia.
  rewrite Z.add_mod_idemp_r by lia. f_equal. f_equal. lia.
Qed.

Lemma wrap64_add_l a b : wrap64 (wrap64 a + b) = wrap64 (a + b).
Proof. rewrite (Z.add_comm (wrap64 a)), wrap64_add_r. f_equal. lia. Qed.


Lemma stream_messages_app f1 f2 :
  stream_messages (f1 ++ f2) = (stream_messages f1 + stream_messages f2)%Z.
Proof.
  induction f1 as [|r f1 IH]; [reflexivity|].
  cbn [app stream_messages foldr]. fold (stream_messages (f1 ++ f2)).
  fold (stream_messages f1). rewrite IH. lia.
Qed.

Lemma stream_bytes_app f1 f2 :
  stream_bytes (f1 ++ f2) = (stream_bytes f1 + stream_bytes f2)%Z.
Proof.
  induction f1 as [|r f1 IH]; [reflexivity|].
  cbn [app stream_bytes foldr]. fold (stream_bytes (f1 ++ f2)).
  fold (stream_bytes f1). rewrite IH. lia.
Qed.

Section FlowCounters.

Context (E : Env) (AccountSpecString : pb.Account -> string).

Lemma flow_loop_sums flows m b :
  let '(m', b', _) := flow_loop E AccountSpecString flows m b in
  wrap64 m' = wrap64 (m + stream_messages flows)
  ∧ wrap64 b' = wrap64 (b + stream_bytes flows).
Proof.
  revert m b. induction flows as [|rec rest IH]; intros m b.
  - cbn. split; f_equal; lia.
  - cbn [flow_loop stream_messages stream_bytes foldr].
    fold (stream_messages rest). fold (stream_bytes rest).
    destruct (Stream rec) as [st|].
    + specialize (IH (wrap64 (m + NumMessages st))
                     (wrap64 (b + NumBytes st))).
      destruct (flow_loop E AccountSpecString rest _ _) as [[m' b'] evs].
      destruct IH as [-> ->]. rewrite !wrap64_add_l.
      split; f_equal; lia.
    + specialize (IH m b).
      destruct (flow_loop E AccountSpecString rest _ _) as [[m' b'] evs].
      destruct IH as [-> ->]. split; f_equal; lia.
Qed.

Lemma processFlows_counters ch flows :
  let ch' := (processFlows E AccountSpecString ch flows).1 in
  messages ch' = wrap64 (messages ch + stream_messages flows)
  ∧ bytes ch' = wrap64 (bytes ch + stream_bytes flows)
  ∧ xmit ch' = xmit ch.
Proof.
  unfold processFlows.
  pose proof (flow_loop_sums flows 0 0) as H.
  destruct (flow_loop E AccountSpecString flows 0 0) as [[m b] evs].
  destruct H as [Hm Hb]. cbn [fst messages bytes xmit].
  rewrite <- (wrap64_add_r (messages ch) m), Hm, wrap64_add_r.
  rewrite <- (wrap64_add_r (bytes ch) b), Hb, wrap64_add_r.
  repeat split; f_equal; lia.
Qed.


End FlowCounters.



(** X16.  Batches compose: processing one batch and then another leaves
    the session exactly as processing the two batches as one, also across
    a wrap-around of the counters. *)
Theorem processFlows_batches_compose (E : Env)
  (AccountSpecString : pb.Account -> string) (ch : connectedHub)
  (f1 f2 : list FlowRecord) :
  (processFlows E AccountSpecString
     (processFlows E AccountSpecString ch f1).1 f2).1
  = (processFlows E AccountSpecString ch (f1 ++ f2)).1.
Proof.
  destruct (processFlows_counters E AccountSpecString ch f1)
    as (Hm1 & Hb1 & Hx1).
  destruct (processFlows_counters E AccountSpecString
              (processFlows E AccountSpecString ch f1).1 f2)
    as (Hm2 & Hb2 & Hx2).
  destruct (processFlows_counters E AccountSpecString ch (f1 ++ f2))
    as (Hm & Hb & Hx).
  destruct (processFlows E AccountSpecString
              (processFlows E AccountSpecString ch f1).1 f2).1 as [x2 m2 b2].
  destruct (processFlows E AccountSpecString ch (f1 ++ f2)).1 as [x m b].
  cbn in *. subst.
  rewrite Hm1, Hb1, !wrap64_add_l, stream_messages_app, stream_bytes_app, Hx1.
  f_equal; f_equal; lia.
Qed.

(** * The HTTP front end (package [web]) *)

Section HostPrefix.
Import web.

Lemma append_cons x a b : String x a +:+ b = String x (a +:+ b).
Proof. reflexivity. Qed.

Lemma append_nil b : "" +:+ b = b.
Proof. reflexivity. Qed.

Lemma append_assoc a b c : (a +:+ b) +:+ c = a +:+ (b +:+ c).
Proof.
  induction a as [|x a IH]; [reflexivity|]. rewrite !append_cons.
  now rewrite IH.
Qed.

Lemma append_empty a : a +:+ "" = a.
Proof.
  induction a as [|x a IH]; [reflexivity|]. rewrite append_cons.
  now rewrite IH.
Qed.

Lemma occurs_app c a b : occurs c (a +:+ b) = occurs c a || occurs c b.
Proof.
  induction a as [|x a IH]; [reflexivity|].
  rewrite append_cons. cbn [occurs]. now rewrite IH, orb_assoc.
Qed.

Lemma len_app a b : len (a +:+ b) = (len a + len b)%Z.
Proof.
  unfold len. induction a as [|x a IH]; [rewrite append_nil; cbn; lia|].
  rewrite append_cons. cbn [String.length]. lia.
Qed.

Lemma len_nonneg s : (0 <= len s)%Z.
Proof. unfold len. lia. Qed.

Lemma substring_all s : String.substring 0 (String.length s) s = s.
Proof. induction s as [|a s IH]; [reflexivity|]. cbn. now rewrite IH. Qed.

Lemma substring_head pre post :
  String.substring 0 (String.length pre) (pre +:+ post) = pre.
Proof.
  induction pre as [|a pre IH]; [now destruct post|].
  rewrite append_cons. cbn [String.length String.substring]. now rewrite IH.
Qed.

Lemma substring_tail pre post :
  String.substring (String.length pre) (String.length post) (pre +:+ post)
  = post.
Proof.
  induction pre as [|a pre IH]; [apply substring_all|].
  rewrite append_cons. cbn [String.length String.substring]. exact IH.
Qed.

Lemma slice_head pre post : slice (pre +:+ post) 0 (len pre) = pre.
Proof.
  unfold slice, len. rewrite Z.sub_0_r, Nat2Z.id. apply substring_head.
Qed.

Lemma slice_tail pre post :
  slice (pre +:+ post) (len pre) (len (pre +:+ post)) = post.
Proof.
  unfold slice. rewrite len_app. unfold len.
  replace (Z.of_nat (String.length pre) + Z.of_nat (String.length post)
           - Z.of_nat (String.length pre))%Z
    with (Z.of_nat (String.length post)) by lia.
  rewrite !Nat2Z.id. apply substring_tail.
Qed.

(** [IndexByte] finds the first occurrence, [LastIndexByte] the last. *)
Lemma IndexByte_none s c : occurs c s = false -> IndexByte s c = (-1)%Z.
Proof.
  induction s as [|a s IH]; [reflexivity|]. cbn [occurs IndexByte].
  intros [Ha Hs]%orb_false_elim. now rewrite Ha, (IH Hs).
Qed.

Lemma IndexByte_at pre post c :
  occurs c pre = false -> IndexByte (pre +:+ String c post) c = len pre.
Proof.
  induction pre as [|a pre IH].
  - intros _. rewrite append_nil. cbn [IndexByte].
    now rewrite Ascii.eqb_refl.
  - cbn [occurs]. intros [Ha Hs]%orb_false_elim.
    rewrite append_cons. cbn [IndexByte]. rewrite Ha, (IH Hs).
    pose proof (len_nonneg pre). rewrite decide_False by lia.
    unfold len. cbn [String.length]. lia.
Qed.

Lemma LastIndexByte_none s c :
  occurs c s = false -> LastIndexByte s c = (-1)%Z.
Proof.
  induction s as [|a s IH]; [reflexivity|]. cbn [occurs LastIndexByte].
  intros [Ha Hs]%orb_false_elim. now rewrite Ha, (IH Hs).
Qed.

Lemma LastIndexByte_at pre post c :
  occurs c post = false -> LastIndexByte (pre +:+ String c post) c = len pre.
Proof.
  intros Hpost. induction pre as [|a pre IH].
  - rewrite append_nil. cbn [LastIndexByte].
    rewrite (LastIndexByte_none _ _ Hpost), Ascii.eqb_refl.
    reflexivity.
  - rewrite append_cons. cbn [LastIndexByte]. rewrite IH.
    pose proof (len_nonneg pre). rewrite decide_False by lia.
    unfold len. cbn [String.length]. lia.
Qed.

Lemma occurs_split c s :
  occurs c s = true ->
  exists pre post, s = pre +:+ String c post /\ occurs c pre = false.
Proof.
  induction s as [|a s IH]; [discriminate|]. cbn [occurs].
  destruct (Ascii.eqb a c) eqn:Hac.
  - intros _. apply Ascii.eqb_eq in Hac as ->. now exists "", s.
  - cbn. intros (pre & post & -> & Hpre)%IH.
    exists (String a pre), post. split; [reflexivity|].
    cbn. now rewrite Hac, Hpre.
Qed.

Lemma occurs_split_last c s :
  occurs c s = true ->
  exists pre post, s = pre +:+ String c post /\ occurs c post = false.
Proof.
  induction s as [|a s IH]; [discriminate|].
  destruct (occurs c s) eqn:Hs.
  - intros _. destruct (IH eq_refl) as (pre & post & -> & Hpost).
    now exists (String a pre), post.
  - cbn [occurs]. rewrite Hs, orb_false_r. intros Hac.
    apply Ascii.eqb_eq in Hac as ->. now exists "", s.
Qed.

(** A host made of a dot-free label and a domain is cut back into the
    two. *)
Lemma cut_at_first_dot label domain :
  occurs "."%char label = false -> is_domain domain ->
  let host := label +:+ domain in
  let firstDot := IndexByte host "."%char in
  (if decide (firstDot ≠ -1)%Z then slice host 0 firstDot else host) = label
  /\ (if decide (firstDot ≠ -1)%Z then slice host firstDot (len host)
      else "") = domain.
Proof.
  intros Hlabel [->|[rest ->]]; cbn zeta.
  - rewrite append_empty, (IndexByte_none _ _ Hlabel).
    rewrite !decide_False by (intros Hne; now apply Hne). now split.
  - rewrite (IndexByte_at _ _ _ Hlabel). pose proof (len_nonneg label).
    rewrite !decide_True by lia. now rewrite slice_head, slice_tail.
Qed.

Lemma host_shape host :
  exists label domain,
    host = label +:+ domain /\ occurs "."%char label = false
    /\ is_domain domain.
Proof.
  destruct (occurs "."%char host) eqn:Hdot.
  - destruct (occurs_split _ _ Hdot) as (pre & post & -> & Hpre).
    exists pre, (String "."%char post). split; [reflexivity|].
    split; [exact Hpre|]. right. now eexists.
  - exists host, "". rewrite append_empty. split; [reflexivity|].
    split; [exact Hdot|]. now left.
Qed.

(** The result on a host given by its label and domain. *)
Lemma extractPrefixHost_label label domain :
  occurs "."%char label = false -> is_domain domain ->
  extractPrefixHost (label +:+ domain)
  = if occurs "-"%char label
    then (slice label 0 (LastIndexByte label "-"%char + 1) +:+ domain,
          slice label (LastIndexByte label "-"%char + 1) (len label), true)
    else ("", "", false).
Proof.
  intros Hlabel Hdom. unfold extractPrefixHost.
  destruct (cut_at_first_dot label domain Hlabel Hdom) as [-> ->].
  destruct (occurs "-"%char label) eqn:Hdash.
  - destruct (occurs_split_last _ _ Hdash) as (pre & post & -> & Hpost).
    rewrite (LastIndexByte_at _ _ _ Hpost). pose proof (len_nonneg pre).
    now rewrite decide_False by lia.
  - rewrite (LastIndexByte_none _ _ Hdash).
    now rewrite decide_True by reflexivity.
Qed.

Lemma extractPrefixHost_parts stem d domain :
  occurs "."%char stem = false -> occurs "."%char d = false ->
  occurs "-"%char d = false -> is_domain domain ->
  extractPrefixHost (stem +:+ "-" +:+ d +:+ domain)
  = (stem +:+ "-" +:+ domain, d, true).
Proof.
  intros Hstem Hd Hdash Hdom.
  assert (Hhost : stem +:+ "-" +:+ d +:+ domain
                  = (stem +:+ String "-"%char d) +:+ domain)
    by (now rewrite append_assoc).
  rewrite Hhost, extractPrefixHost_label; [|
    rewrite occurs_app; cbn [occurs];
    now rewrite Hstem, Hd | exact Hdom].
  rewrite occurs_app. cbn [occurs]. rewrite Ascii.eqb_refl, orb_true_r.
  rewrite (LastIndexByte_at _ _ _ Hdash).
  assert (Hsplit : stem +:+ String "-"%char d = (stem +:+ "-") +:+ d)
    by (now rewrite append_assoc).
  assert (Hlen : (len stem + 1)%Z = len (stem +:+ "-"))
    by (rewrite len_app; reflexivity).
  rewrite Hlen, Hsplit, slice_head, slice_tail.
  now rewrite append_assoc.
Qed.

Lemma extractPrefixHost_sound host p d :
  extractPrefixHost host = (p, d, true) ->
  exists stem domain,
    host = stem +:+ "-" +:+ d +:+ domain
    /\ p = stem +:+ "-" +:+ domain
    /\ occurs "."%char stem = false /\ occurs "."%char d = false
    /\ occurs "-"%char d = false /\ is_domain domain.
Proof.
  destruct (host_shape host) as (label & domain & -> & Hlabel & Hdom).
  rewrite (extractPrefixHost_label _ _ Hlabel Hdom).
  destruct (occurs "-"%char label) eqn:Hdash; [|discriminate].
  destruct (occurs_split_last _ _ Hdash) as (stem & post & -> & Hpost).
  rewrite (LastIndexByte_at _ _ _ Hpost).
  assert (Hsplit : stem +:+ String "-"%char post = (stem +:+ "-") +:+ post)
    by (now rewrite append_assoc).
  assert (Hlen : (len stem + 1)%Z = len (stem +:+ "-"))
    by (rewrite len_app; reflexivity).
  rewrite Hlen, Hsplit, slice_head, slice_tail.
  intros [= <- <-]. exists stem, domain.
  rewrite occurs_app in Hlabel. cbn [occurs] in Hlabel.
  apply orb_false_elim in Hlabel as [Hstem [_ Hd]%orb_false_elim].
  rewrite !append_assoc. repeat split; assumption.
Qed.

(** X17.  extractPrefixHost: the function succeeds with prefix host [p]
    and deployment id [d] exactly when the host reads [stem-d] followed by
    a domain that is empty or starts at the first dot of the host, [d]
    holding neither dash nor dot and [stem] no dot; [p] is then the host
    with [d] cut out, the dash kept. *)
Theorem extractPrefixHost_decomposes (host p d : string) :
  web.extractPrefixHost host = (p, d, true)
  <-> exists stem domain,
        host = stem +:+ "-" +:+ d +:+ domain
        /\ p = stem +:+ "-" +:+ domain
        /\ web.occurs "."%char stem = false
        /\ web.occurs "."%char d = false
        /\ web.occurs "-"%char d = false
        /\ (domain = "" \/ exists rest, domain = String "."%char rest).
Proof.
  split; [apply extractPrefixHost_sound|].
  intros (stem & domain & -> & -> & Hstem & Hd & Hdash & Hdom).
  now apply extractPrefixHost_parts.
Qed.

(** Witness of X17: [app-abc123.example.com] is cut into the prefix host
    [app-.example.com] and the deployment id [abc123]. *)
Lemma extractPrefixHost_decomposes_witness :
  exists stem domain,
    "app-abc123.example.com" = stem +:+ "-" +:+ "abc123" +:+ domain
    /\ "app-.example.com" = stem +:+ "-" +:+ domain
    /\ web.occurs "."%char stem = false
    /\ web.occurs "."%char "abc123" = false
    /\ web.occurs "-"%char "abc123" = false
    /\ (domain = "" \/ exists rest, domain = String "."%char rest).
Proof.
  apply (proj1 (extractPrefixHost_decomposes
                  "app-abc123.example.com" "app-.example.com" "abc123")).
  reflexivity.
Defined.

(** X18.  extractPrefixHost: a host is taken for a deployment host
    exactly when a dash stands before its first dot. *)
Theorem extractPrefixHost_accepts (host : string) :
  (web.extractPrefixHost host).2 = true
  <-> exists a b,
        host = a +:+ String "-"%char b /\ web.occurs "."%char a = false.
Proof.
  destruct (host_shape host) as (label & domain & -> & Hlabel & Hdom).
  rewrite (extractPrefixHost_label _ _ Hlabel Hdom).
  destruct (occurs "-"%char label) eqn:Hdash; cbn [snd].
  - split; [intros _|reflexivity].
    destruct (occurs_split _ _ Hdash) as (a & b & -> & Ha).
    exists a, (b +:+ domain). split; [now rewrite append_assoc|].
    rewrite occurs_app in Hlabel. now apply orb_false_elim in Hlabel.
  - split; [discriminate|].
    intros (a & b & Hhost & Ha). exfalso.
    assert (Hin : occurs "-"%char label = true); [|congruence].
    clear Hdash. revert label Hlabel Hhost.
    induction a as [|c a IH]; intros label Hlabel Hhost.
    + rewrite append_nil in Hhost. destruct label as [|c' label].
      * rewrite append_nil in Hhost.
        destruct Hdom as [->|[rest ->]]; discriminate.
      * rewrite append_cons in Hhost. injection Hhost as -> _.
        reflexivity.
    + cbn [occurs] in Ha. apply orb_false_elim in Ha as [Hc Ha].
      rewrite append_cons in Hhost. destruct label as [|c' label].
      * rewrite append_nil in Hhost.
        destruct Hdom as [->|[rest ->]]; [discriminate|].
        injection Hhost as <- _. discriminate Hc.
      * rewrite append_cons in Hhost. injection Hhost as -> Hhost.
        cbn [occurs] in Hlabel |- *.
        apply orb_false_elim in Hlabel as [_ Hlabel].
        rewrite (IH Ha label Hlabel Hhost). apply orb_true_r.
Qed.

(** Witness of X18: [my-app.example.com] has a dash before its first dot,
    [app.my-site.com] has none. *)
Lemma extractPrefixHost_accepts_witness :
  (web.extractPrefixHost "my-app.example.com").2 = true
  /\ ~ exists a b,
        "app.my-site.com" = a +:+ String "-"%char b
        /\ web.occurs "."%char a = false.
Proof.
  split.
  - apply (proj2 (extractPrefixHost_accepts "my-app.example.com")).
    exists "my", "app.example.com". split; reflexivity.
  - intros H.
    apply (proj2 (extractPrefixHost_accepts "app.my-site.com")) in H.
    discriminate H.
Defined.

End HostPrefix.

Section Serve.
Import web frontend.

Context (f : Frontend) (req : HttpRequest).

(** X19.  ServeHTTP: a host the checker does not handle and whose first
    label holds no dash is answered 500 before the resolver is asked,
    whatever link the resolver holds for that host. *)
Theorem ServeHTTP_refuses_foreign_host (label domain : string) :
  HandlingHostname f (Host req) = false ->
  Host req = label +:+ domain ->
  occurs "."%char label = false ->
  occurs "-"%char label = false ->
  (domain = "" \/ exists rest, domain = String "."%char rest) ->
  ServeHTTP f req
  = HttpError ("no registered application for hostname: " +:+ Host req) 500.
Proof.
  intros Hh Hhost Hlabel Hdash Hdom. unfold ServeHTTP, resolve_target.
  rewrite Hh. cbn [negb]. rewrite Hhost at 1.
  rewrite (extractPrefixHost_label _ _ Hlabel Hdom), Hdash.
  reflexivity.
Qed.

(** X20.  ServeHTTP, extractPrefixHost: for a host [stem-d.domain]
    the checker does not handle and the resolver has no link for, the
    link of [stem-.domain] marked [:deployment=true] is used, and the
    request goes on with that link's account and its target extended by
    [:deployment=d]. *)
Theorem ServeHTTP_deployment_fallback
    (stem d domain account0 account : string) (target : list string) :
  HandlingHostname f (Host req) = false ->
  Host req = stem +:+ "-" +:+ d +:+ domain ->
  occurs "."%char stem = false ->
  occurs "."%char d = false ->
  occurs "-"%char d = false ->
  (domain = "" \/ exists rest, domain = String "."%char rest) ->
  FindLabelLink f [":hostname=" +:+ Host req] = (account0, [], None) ->
  FindLabelLink f [":hostname=" +:+ stem +:+ "-" +:+ domain;
                   ":deployment=true"] = (account, target, None) ->
  target <> [] ->
  ServeHTTP f req
  = forward f req account (target ++ [":deployment=" +:+ d]).
Proof.
  intros Hh Hhost Hstem Hd Hdash Hdom Hdirect Hdeploy Hne.
  unfold ServeHTTP, resolve_target.
  rewrite Hh. cbn [negb]. rewrite Hhost at 1.
  rewrite (extractPrefixHost_parts _ _ _ Hstem Hd Hdash Hdom).
  cbn [negb andb]. rewrite Hdirect, Hdeploy.
  destruct target; [contradiction|reflexivity].
Qed.

(** X21.  ServeHTTP: a host the checker handles is never tried as a
    deployment host: without a link of its own it is answered 404, dash
    or no dash. *)
Theorem ServeHTTP_handled_host_without_link (account : string) :
  HandlingHostname f (Host req) = true ->
  FindLabelLink f [":hostname=" +:+ Host req] = (account, [], None) ->
  ServeHTTP f req
  = HttpError ("no registered application for hostname: " +:+ Host req) 404.
Proof.
  intros Hh Hdirect. unfold ServeHTTP, resolve_target.
  rewrite Hh. cbn [negb andb]. now rewrite Hdirect.
Qed.

(** X22.  ServeHTTP: when the resolver matches no service and reports
    no error, the handler indexes the empty slice and panics; no answer
    is written. *)
Theorem ServeHTTP_panics_on_empty_match
    (account : string) (target : list string) :
  HandlingHostname f (Host req) = true ->
  FindLabelLink f [":hostname=" +:+ Host req] = (account, target, None) ->
  target <> [] ->
  MatchServices f account target = ([], None) ->
  ServeHTTP f req = Panics.
Proof.
  intros Hh Hdirect Hne Hmatch. unfold ServeHTTP, resolve_target.
  rewrite Hh. cbn [negb andb]. rewrite Hdirect.
  destruct target; [contradiction|]. unfold forward. now rewrite Hmatch.
Qed.

(** X23.  ServeHTTP: when the service answers with a tag other than 1
    and no error, the handler calls [Error] on the nil error and panics
    instead of answering 500. *)
Theorem ServeHTTP_panics_on_wrong_tag
    (account : string) (target : list string) (rs : ResolvedService)
    (rest : list ResolvedService) (wctx : WireContext)
    (tag : Z) (wresp : Response) :
  HandlingHostname f (Host req) = true ->
  FindLabelLink f [":hostname=" +:+ Host req] = (account, target, None) ->
  target <> [] ->
  MatchServices f account target = (rs :: rest, None) ->
  ServiceType rs = "http" ->
  (forall r, ConnectToService f r account rs = inr wctx) ->
  ReadMarshal wctx (Body req) = (tag, None, wresp) ->
  tag <> 1%Z ->
  ServeHTTP f req = Panics.
Proof.
  intros Hh Hdirect Hne Hmatch Htype Hconn Hread Htag.
  unfold ServeHTTP, resolve_target.
  rewrite Hh. cbn [negb andb]. rewrite Hdirect.
  destruct target; [contradiction|]. unfold forward. rewrite Hmatch.
  rewrite decide_False by (intros Hn; now apply Hn).
  rewrite Hconn, Hread. now rewrite decide_True by exact Htag.
Qed.

End Serve.

(** Witness of X19: [www.example.com] is not handled and has no dash; the
    link the resolver holds for it is never consulted. *)
Lemma ServeHTTP_refuses_foreign_host_witness :
  frontend.ServeHTTP (frontend.demo [] 1)
    (frontend.demo_request "www.example.com")
  = frontend.HttpError
      "no registered application for hostname: www.example.com" 500.
Proof.
  apply (ServeHTTP_refuses_foreign_host (frontend.demo [] 1)
           (frontend.demo_request "www.example.com") "www" ".example.com");
    try reflexivity.
  right. now eexists.
Defined.

(** Witness of X20: [app-abc123.example.com] is served through the
    deployment link of [app-.example.com]. *)
Lemma ServeHTTP_deployment_fallback_witness :
  frontend.ServeHTTP (frontend.demo [] 1)
    (frontend.demo_request "app-abc123.example.com")
  = frontend.forward (frontend.demo [] 1)
      (frontend.demo_request "app-abc123.example.com") "acct"
      ([":app=web"] ++ [":deployment=" +:+ "abc123"]).
Proof.
  apply (ServeHTTP_deployment_fallback (frontend.demo [] 1)
           (frontend.demo_request "app-abc123.example.com")
           "app" "abc123" ".example.com" "" "acct" [":app=web"]);
    try reflexivity.
  - right. now eexists.
  - discriminate.
Defined.

(** Witness of X21: [app-7.example.com] is handled, so the deployment link
    of [app-.example.com] is not looked up. *)
Lemma ServeHTTP_handled_host_without_link_witness :
  frontend.ServeHTTP (frontend.demo [] 1)
    (frontend.demo_request "app-7.example.com")
  = frontend.HttpError
      "no registered application for hostname: app-7.example.com" 404.
Proof.
  apply (ServeHTTP_handled_host_without_link (frontend.demo [] 1)
           (frontend.demo_request "app-7.example.com") "");
    reflexivity.
Defined.

(** Witness of X22: [hub.example.com] with a resolver that matches nothing. *)
Lemma ServeHTTP_panics_on_empty_match_witness :
  frontend.ServeHTTP (frontend.demo [] 1)
    (frontend.demo_request "hub.example.com")
  = frontend.Panics.
Proof.
  apply (ServeHTTP_panics_on_empty_match (frontend.demo [] 1)
           (frontend.demo_request "hub.example.com") "acct" [":app=hub"]);
    try reflexivity.
  discriminate.
Defined.

(** Witness of X23: [hub.example.com] with a service that answers tag 2. *)
Lemma ServeHTTP_panics_on_wrong_tag_witness :
  frontend.ServeHTTP (frontend.demo [frontend.demo_service] 2)
    (frontend.demo_request "hub.example.com")
  = frontend.Panics.
Proof.
  apply (ServeHTTP_panics_on_wrong_tag
           (frontend.demo [frontend.demo_service] 2)
           (frontend.demo_request "hub.example.com") "acct" [":app=hub"]
           frontend.demo_service [] (frontend.demo_context 2) 2
           {| frontend.Code := 200; frontend.RespHeaders := [] |});
    try reflexivity; discriminate.
Defined.

(** * The certificate store (package [data]) *)

Section CertStore.
Import bolt.

Context (now : berror + ByteSlice) (UnmarshalBinary : ByteSlice -> berror + Z).

Lemma Exists_lookup key d :
  Exists key d = true <-> exists b data, d = Some b /\ b !! key = Some data.
Proof.
  unfold Exists, View, Get. cbn. destruct d as [b|]; cbn.
  - rewrite bool_decide_eq_true. split.
    + intros [data Hdata]. now exists b, data.
    + intros (b' & data & [= <-] & Hdata). now exists data.
  - split; [discriminate|]. now intros (b & data & [=] & _).
Qed.

Lemma Exists_insert key k data b :
  Exists k (Some (<[key := data]> b))
  = if decide (k = key) then true else Exists k (Some b).
Proof.
  unfold Exists, View, Get. cbn. destruct (decide (k = key)) as [->|Hne].
  - rewrite lookup_insert_eq. now apply bool_decide_eq_true.
  - now rewrite lookup_insert_ne by congruence.
Qed.

Lemma Exists_delete key k b :
  Exists k (Some (delete key b))
  = if decide (k = key) then false else Exists k (Some b).
Proof.
  unfold Exists, View, Get. cbn. destruct (decide (k = key)) as [->|Hne].
  - rewrite lookup_delete_eq. apply bool_decide_eq_false. now intros [? [=]].
  - now rewrite lookup_delete_ne by congruence.
Qed.

Lemma Exists_fresh_bucket k d : Exists k (Some (default ∅ d)) = Exists k d.
Proof. destruct d as [b|]; [reflexivity|]. reflexivity. Qed.

(** A failed [Update] is rolled back. *)
Lemma Update_rolls_back commit fn d err d' :
  Update commit fn d = (Some err, d') -> d' = d.
Proof.
  unfold Update. destruct (fn _); [now intros [= _ <-]|].
  destruct commit; now intros [= <-].
Qed.

(** What the visitor of [List] collects from the pairs it is shown. *)
Lemma List_visits prefix recursive (l : list (string * ByteSlice)) acc :
  foldl (fun matches kv =>
           if negb recursive && bool_decide (1 < Count kv.1 "/"%char)%Z
           then matches
           else if String.prefix prefix kv.1
                then matches ++ [kv.2]
                else matches) acc l
  = acc ++ (filter (fun kv =>
                      (recursive = true \/ (Count kv.1 "/"%char <= 1)%Z)
                      /\ String.prefix prefix kv.1 = true) l).*2.
Proof.
  revert acc. induction l as [|kv l IH]; intros acc; cbn [foldl].
  - now rewrite app_nil_r.
  - rewrite IH, filter_cons. destruct recursive; cbn [negb andb].
    + destruct (String.prefix prefix kv.1) eqn:Hp.
      * rewrite decide_True by (split; [now left|reflexivity]).
        now rewrite fmap_cons, <- app_assoc.
      * now rewrite decide_False by (intros [_ [=]]).
    + case_bool_decide as Hc.
      * now rewrite decide_False by (intros [[[=]|Hle] _]; lia).
      * destruct (String.prefix prefix kv.1) eqn:Hp.
        -- rewrite decide_True by (split; [right; lia|reflexivity]).
           now rewrite fmap_cons, <- app_assoc.
        -- now rewrite decide_False by (intros [_ [=]]).
Qed.

(** X24.  Load, Stat: both open a read-only transaction and ask it
    to create the bucket, which a read-only transaction refuses: whatever
    the file holds, [Load] and [Stat] return that error and never read
    the key. *)
Theorem Load_and_Stat_never_read (key : string) (d : bolt.DB) :
  bolt.Load key d = bolt.Returns (None, Some bolt.ErrTxNotWritable)
  /\ bolt.Stat UnmarshalBinary key d
     = bolt.Returns (bolt.KeyInfo_zero, Some bolt.ErrTxNotWritable).
Proof. split; reflexivity. Qed.

(** X25.  Store: a [Store] that returns nil has put, under a non-empty
    key, the time stamp followed by the value, replacing what the key
    held and creating the bucket if it was missing; the key then exists
    and no other key is added or lost. *)
Theorem Store_effect
    (commit : option bolt.berror) (key : string) (value : ByteSlice)
    (d d' : bolt.DB) :
  bolt.Store now commit key value d = (None, d') ->
  exists data,
    now = inr data /\ key <> ""
    /\ d' = Some (<[key := data +:+ value]> (default ∅ d))
    /\ bolt.Exists key d' = true
    /\ forall k, k <> key -> bolt.Exists k d' = bolt.Exists k d.
Proof.
  unfold Store, Update, CreateBucketIfNotExists, Put. cbn.
  destruct now as [err|data]; [discriminate|]. cbn.
  destruct (decide (key = "")); [discriminate|].
  destruct (decide (MaxKeySize < blen key)%Z); [discriminate|].
  destruct (decide (MaxValueSize < blen (data +:+ value))%Z);
    [discriminate|].
  cbn. destruct commit; [discriminate|]. intros [= <-].
  exists data. repeat split; try assumption.
  - rewrite Exists_insert. now rewrite decide_True.
  - intros k Hk. rewrite Exists_insert, decide_False by exact Hk.
    apply Exists_fresh_bucket.
Qed.

(** X26.  Store: a [Store] that returns an error leaves the file as it
    was - not even the bucket is created; an empty key is such a case. *)
Theorem Store_failure_keeps_file
    (commit : option bolt.berror) (key : string) (value : ByteSlice)
    (d d' : bolt.DB) (err : bolt.berror) :
  bolt.Store now commit key value d = (Some err, d') ->
  d' = d
  /\ exists err', bolt.Store now commit "" value d = (Some err', d).
Proof.
  intros Hrun. split.
  - exact (Update_rolls_back _ _ _ _ _ Hrun).
  - unfold Store, Update, CreateBucketIfNotExists, Put. cbn.
    destruct now; cbn; eauto.
Qed.

(** X27.  Delete: when the commit goes through, [Delete] returns nil
    for every key, present or not, and creates the bucket if it was
    missing; the key no longer exists and the other keys are as
    before. *)
Theorem Delete_effect (key : string) (d : bolt.DB) :
  bolt.Delete None key d = (None, Some (delete key (default ∅ d)))
  /\ bolt.Exists key (bolt.Delete None key d).2 = false
  /\ forall k, k <> key ->
       bolt.Exists k (bolt.Delete None key d).2 = bolt.Exists k d.
Proof.
  assert (Hrun : Delete None key d = (None, Some (delete key (default ∅ d))))
    by reflexivity.
  rewrite Hrun. cbn [snd]. split; [reflexivity|]. split.
  - rewrite Exists_delete. now rewrite decide_True.
  - intros k Hk. rewrite Exists_delete, decide_False by exact Hk.
    apply Exists_fresh_bucket.
Qed.

(** X28.  List: the strings returned are the stored values (time stamp
    and payload) of the keys that start with the prefix - and, unless
    [recursive], hold at most one slash - not the keys themselves; the
    error is always nil. *)
Theorem List_returns_values
    (prefix : string) (recursive : bool) (d : bolt.DB) (x : string) :
  (x ∈ (bolt.List prefix recursive d).1
   <-> exists b k,
         d = Some b /\ b !! k = Some x
         /\ String.prefix prefix k = true
         /\ (recursive = true \/ (bolt.Count k "/"%char <= 1)%Z))
  /\ (bolt.List prefix recursive d).2 = None.
Proof.
  unfold List, View. cbn. destruct d as [b|]; cbn.
  - split; [|reflexivity]. rewrite List_visits, app_nil_l.
    rewrite list_elem_of_fmap. split.
    + intros ([k v] & -> & Hin). apply list_elem_of_filter in Hin.
      destruct Hin as [[Hrec Hpre] Hin]. unfold ForEach in Hin.
      rewrite merge_sort_Permutation in Hin.
      apply elem_of_map_to_list in Hin. now exists b, k.
    + intros (b' & k & [= <-] & Hk & Hpre & Hrec).
      exists (k, x). split; [reflexivity|].
      apply list_elem_of_filter. split; [now split|].
      unfold ForEach. rewrite merge_sort_Permutation.
      now apply elem_of_map_to_list.
  - split; [|reflexivity]. split; [intros Hin; inversion Hin|].
    now intros (b & k & [=] & _).
Qed.

End CertStore.

(** Witness of X25: the first certificate stored in an empty file. *)
Lemma Store_effect_witness :
  exists data,
    @inr bolt.berror ByteSlice bolt.demo_stamp = inr data
    /\ "certs/a.crt" <> ""
    /\ bolt.demo_db
       = Some (<["certs/a.crt" := data +:+ "PEM"]> (default ∅ None))
    /\ bolt.Exists "certs/a.crt" bolt.demo_db = true
    /\ forall k, k <> "certs/a.crt" ->
         bolt.Exists k bolt.demo_db = bolt.Exists k None.
Proof.
  apply (Store_effect (inr bolt.demo_stamp) None "certs/a.crt" "PEM" None
           bolt.demo_db).
  reflexivity.
Defined.

(** Witness of X26: an empty key is refused and the stored certificate
    stays. *)
Lemma Store_failure_keeps_file_witness :
  exists err',
    bolt.Store (inr bolt.demo_stamp) None "" "PEM" bolt.demo_db
    = (Some err', bolt.demo_db).
Proof.
  apply (Store_failure_keeps_file (inr bolt.demo_stamp) None "" "PEM"
           bolt.demo_db bolt.demo_db bolt.ErrKeyRequired).
  reflexivity.
Defined.

(** Witness of X28: listing [certs/] yields the stored bytes of
    [certs/a.crt], time stamp included. *)
Lemma List_returns_values_witness :
  bolt.demo_stamp +:+ "PEM" ∈ (bolt.List "certs/" false bolt.demo_db).1.
Proof.
  apply (proj2 (proj1 (List_returns_values "certs/" false bolt.demo_db
                         (bolt.demo_stamp +:+ "PEM")))).
  exists {[ "certs/a.crt" := bolt.demo_stamp +:+ "PEM" ]}, "certs/a.crt".
  split; [reflexivity|]. split; [reflexivity|]. split; [reflexivity|].
  right. cbn. lia.
Defined.
